(** * Narrow-band level set on Cartesian and octree meshes

    A shallow embedding of [LevelSetMesh.cpp] (classes
    [bitpit::LevelSetCartesian] and [bitpit::LevelSetOctree]) and the
    properties of its band sizing, band maintenance and local Eikonal
    solve.

    Conventions of the embedding.
    - C++ [int], [long] and cell identifiers are [Z]; the conversions
      of the file are written out: [int] to [uint8_t] at the call of
      [computeRSearchFromLevel] as [mod 256], [double] to [int] in the
      snapping of the auxiliary grid with the range of [int].
    - C++ [double] is an abstract number type [D] with the operations the
      file uses (class [Real64]).  The functions are written once, over
      that interface; they run on IEEE binary64 ([PrimFloat.float]) and
      are reasoned about on the real numbers ([R]), the usual
      idealisation of floating point.
    - The member data of a level set ([info], [RSearch]) is a record
      that the member functions take and return.
    - The mesh kernels, the pierced vector and the surface visitor are
      collaborators whose code lies outside this file; they appear as
      records of functions.
    - [updateSizeNarrowBand] and [update] of the octree are given twice:
      as functions of the member data, and statement by statement as
      programs that read and write the member data; the two are proved
      to agree. *)

From Stdlib Require Import ZArith List Bool Lia Reals Lra String.
From Stdlib Require PrimFloat Uint63 FloatOps SpecFloat.
From stdpp Require Import base gmap sets list.

Local Open Scope Z_scope.

(** ** Numbers *)

(** The operations on [double] used by the source. *)
Class Real64 (D : Type) : Type := {
  d_ofZ  : Z -> D;          (* an integral literal such as [2.0] or [1.0e+18] *)
  d_add  : D -> D -> D;
  d_sub  : D -> D -> D;
  d_mul  : D -> D -> D;
  d_div  : D -> D -> D;
  d_opp  : D -> D;
  d_sqrt : D -> D;
  d_ltb  : D -> D -> bool;  (* operator< *)
  d_round : D -> D;         (* [round]: to the nearest integer, halves away from zero *)
  d_toint : D -> option Z   (* the integer left when the fraction is dropped;
                               nothing for an infinity or a NaN *)
}.

Declare Scope d_scope.
Delimit Scope d_scope with D.
Infix "+" := d_add : d_scope.
Infix "-" := d_sub : d_scope.
Infix "*" := d_mul : d_scope.
Infix "/" := d_div : d_scope.
Notation "- x" := (d_opp x) : d_scope.
Infix "<?" := d_ltb : d_scope.

Module Std.
Section Std.
Context {D : Type} {num : Real64 D}.

(** [std::min(a, b)] is [(b < a) ? b : a]. *)
Definition min (a b : D) : D := if (b <? a)%D then b else a.

(** [std::max(a, b)] is [(a < b) ? b : a]. *)
Definition max (a b : D) : D := if (a <? b)%D then b else a.

(** [pow(x, 2)]. *)
Definition pow2 (x : D) : D := (x * x)%D.
End Std.
End Std.

(** [operator<] on the reals. *)
Definition Rltb (x y : R) : bool := if Rlt_dec x y then true else false.

(** Truncation towards zero and rounding half away from zero on the
    reals, from the integer part [Int_part] (the floor). *)
Definition Rtoint (x : R) : Z :=
  if Rlt_dec x 0 then - Int_part (- x) else Int_part x.

Definition Rround (x : R) : R :=
  if Rlt_dec x 0 then (- IZR (Int_part (- x + / 2)))%R
  else IZR (Int_part (x + / 2)).

#[export] Instance Real64_R : Real64 R := {
  d_ofZ := IZR;
  d_add := Rplus;
  d_sub := Rminus;
  d_mul := Rmult;
  d_div := Rdiv;
  d_opp := Ropp;
  d_sqrt := R_sqrt.sqrt;
  d_ltb := Rltb;
  d_round := Rround;
  d_toint := fun x => Some (Rtoint x)
}.

(** An integral literal as a binary64 number (exact below [2^53]; the
    literals of the source, [1.0e+18] included, are all exact). *)
Definition float_ofZ (z : Z) : PrimFloat.float :=
  if z <? 0 then PrimFloat.opp (PrimFloat.of_uint63 (Uint63.of_Z (- z)))
  else PrimFloat.of_uint63 (Uint63.of_Z z).

(** Truncation and rounding of a binary64 number, read off its sign,
    mantissa and exponent; a finite number is [(-1)^s * m * 2^e]. *)
Definition float_toint (x : PrimFloat.float) : option Z :=
  match FloatOps.Prim2SF x with
  | SpecFloat.S754_finite sg m e =>
      let z := if 0 <=? e then Z.pos m * 2 ^ e else Z.pos m / 2 ^ (- e) in
      Some (if sg then - z else z)
  | SpecFloat.S754_zero _ => Some 0
  | _ => None
  end.

Definition float_round (x : PrimFloat.float) : PrimFloat.float :=
  match FloatOps.Prim2SF x with
  | SpecFloat.S754_finite sg m e =>
      if 0 <=? e then x
      else
        let q := (Z.pos m + 2 ^ (- e - 1)) / 2 ^ (- e) in
        if sg then PrimFloat.opp (float_ofZ q) else float_ofZ q
  | _ => x
  end.

#[export] Instance Real64_float : Real64 PrimFloat.float := {
  d_ofZ := float_ofZ;
  d_add := PrimFloat.add;
  d_sub := PrimFloat.sub;
  d_mul := PrimFloat.mul;
  d_div := PrimFloat.div;
  d_opp := PrimFloat.opp;
  d_sqrt := PrimFloat.sqrt;
  d_ltb := PrimFloat.ltb;
  d_round := float_round;
  d_toint := float_toint
}.

(** ** The type [int] *)

Definition INT_MIN : Z := - 2 ^ 31.
Definition INT_MAX : Z := 2 ^ 31 - 1.

(** The conversion of a [double] to [int], explicit as [(int) x] or
    implicit in an assignment: the fraction is dropped.  C++ defines the
    result only when it is an [int]; for every other argument (too
    large, an infinity, a NaN) the value taken here is the one the
    conversion instruction of x86-64 delivers, [INT_MIN]. *)
Definition to_int {D : Type} {num : Real64 D} (x : D) : Z :=
  match d_toint x with
  | Some z => if (INT_MIN <=? z) && (z <=? INT_MAX) then z else INT_MIN
  | None => INT_MIN
  end.

(** The result of an [int] operation, in two's complement: C++ leaves
    an overflow undefined, the machine addition wraps around. *)
Definition wrap_int (z : Z) : Z := (z - INT_MIN) mod 2 ^ 32 + INT_MIN.

(** ** Data model *)

(** [LSInfo]: the per-cell record of the narrow-band store.  Only the
    two fields this file reads are kept. *)
Record LSInfo (D : Type) : Type := mkLSInfo {
  value  : D;   (* level-set value *)
  active : Z    (* flag tested as [active == 0] by the Eikonal stencil *)
}.
Arguments mkLSInfo {D} _ _.
Arguments value {D} _.
Arguments active {D} _.

(** The member data of [LevelSet]: the store [info], a pierced vector
    keyed by cell identifier, and the search radius [RSearch]. *)
Record LevelSet (D : Type) : Type := mkLevelSet {
  info    : gmap Z (LSInfo D);
  RSearch : D
}.
Arguments mkLevelSet {D} _ _.
Arguments info {D} _.
Arguments RSearch {D} _.

Definition set_RSearch {D : Type} (r : D) (ls : LevelSet D) : LevelSet D :=
  mkLevelSet (info ls) r.

(** Which records of the store count as active for band membership,
    at a given search radius (the first argument). *)
Class BandFlag (D : Type) : Type := recordActive : D -> LSInfo D -> bool.

(** Modelled from the spec: [LevelSet::isInNarrowBand], a member of the
    base class whose definition is in another file.  The specification
    gives its contract as "record present and active", says that a
    cell without a record is outside the band, and lists the search
    radius among what the membership tests read.  The test applied to a
    record that is present is therefore left open: it sees the record
    and the member [RSearch], and reads nothing else. *)
Definition isInNarrowBand {D : Type} {flag : BandFlag D} (ls : LevelSet D) (id : Z)
  : bool :=
  match info ls !! id with
  | Some r => recordActive (RSearch ls) r
  | None => false
  end.

(** [bitpit::Adaption::Entity] and [bitpit::Adaption::Info]: one record
    of the adaptation map, with the identifiers before ([previous]) and
    after ([current]) the change.  The cast [(long)] applied to each
    identifier is the identity on cell identifiers. *)
Module Adaption.
Inductive Entity : Type :=
| ENTITY_UNKNOWN
| ENTITY_VERTEX
| ENTITY_CELL
| ENTITY_INTERFACE.

Definition is_cell (e : Entity) : bool :=
  match e with ENTITY_CELL => true | _ => false end.

Record Info : Type := mkInfo {
  entity   : Entity;
  previous : list Z;
  current  : list Z
}.
End Adaption.

(** A point or a triple of lattice indices, [std::array<_,3>]. *)
Definition array3 (A : Type) : Type := (A * A * A)%type.

(** The surface visitor [LSObject], as far as the level set calls it:
    its bounding box and the two callbacks that fill the store.  The
    callbacks receive the level set itself ([this]) and may change it. *)
Module LSObject.
Record t (D : Type) : Type := mk {
  getBoundingBox        : array3 D * array3 D;
  computeLSInNarrowBand : LevelSet D -> LevelSet D;
  updateLSInNarrowBand  : LevelSet D -> list Adaption.Info -> D -> LevelSet D
}.
Arguments mk {D} _ _ _.
Arguments getBoundingBox {D} _.
Arguments computeLSInNarrowBand {D} _ _.
Arguments updateLSInNarrowBand {D} _ _ _ _.
End LSObject.

(** ** [LevelSetCartesian] *)

(** The part of [VolCartesian] the level set consults. *)
Module VolCartesian.
Record t (D : Type) : Type := mk {
  getDimension : Z;             (* [int getDimension()] *)
  getSpacing   : Z -> D;        (* [double getSpacing(int d)] *)
  getAdjacency : Z -> Z -> Z;   (* [getCell(I).getAdjacency(face, 0)]; negative: no neighbour *)
  locateClosestVertexCartesian : array3 D -> array3 Z;
  getCellLinearId : Z -> Z -> Z -> Z
}.
Arguments mk {D} _ _ _ _ _.
Arguments getDimension {D} _.
Arguments getSpacing {D} _ _.
Arguments getAdjacency {D} _ _ _.
Arguments locateClosestVertexCartesian {D} _ _.
Arguments getCellLinearId {D} _ _ _ _.
End VolCartesian.

Module LevelSetCartesian.
Section Cartesian.
Context {D : Type} {num : Real64 D}.
Variable m_cmesh : VolCartesian.t D.

(** The loop [for( d=0; d<getDimension(); ++d)
      r = std::max( r, getSpacing(d) )] started at [-1.]. *)
Definition maxSpacing : D :=
  fold_left (fun r d => Std.max r (VolCartesian.getSpacing m_cmesh d))
            (seqZ 0 (VolCartesian.getDimension m_cmesh)) (d_ofZ (-1)).

(** [computeSizeNarrowBand( visitor )]: the visitor is unused. *)
Definition computeSizeNarrowBand (visitor : LSObject.t D) (ls : LevelSet D)
  : LevelSet D :=
  set_RSearch maxSpacing ls.

(** [updateSizeNarrowBand( mapper )]: the mapper is unused. *)
Definition updateSizeNarrowBand (mapper : list Adaption.Info) (ls : LevelSet D)
  : D :=
  maxSpacing.

(** [compute( visitor )]. *)
Definition compute (visitor : LSObject.t D) (ls : LevelSet D) : LevelSet D :=
  LSObject.computeLSInNarrowBand visitor (computeSizeNarrowBand visitor ls).

(** [update( visitor, mapper )]: the new radius is handed to the
    visitor and stored afterwards. *)
Definition update (visitor : LSObject.t D) (mapper : list Adaption.Info)
           (ls : LevelSet D) : LevelSet D :=
  let newRSearch := updateSizeNarrowBand mapper ls in
  let ls' := LSObject.updateLSInNarrowBand visitor ls mapper newRSearch in
  set_RSearch newRSearch ls'.

(** *** [updateEikonal] *)

(** One guarded probe of the stencil:
    [if( J >= 0 && lsInfo.active == 0) value = std::min(s*lsInfo.value, value)]. *)
Definition probe (s : D) (J : Z) (lsInfo : LSInfo D) (v : D) : D :=
  if (0 <=? J) && (active lsInfo =? 0)
  then Std.min (s * value lsInfo)%D v
  else v.

(** The upwind value of axis [d] for cell [I].  The reference [lsInfo]
    is bound once, to [info[J]] for the left neighbour, and both probes
    read it.  The subscript of the pierced vector refers to a stored
    record; where no record is stored under [J] there is nothing to
    refer to and the function has no result. *)
Definition upwindValue (store : gmap Z (LSInfo D)) (s : D) (I d : Z)
  : option D :=
  let v := d_ofZ (10 ^ 18) in
  let J := VolCartesian.getAdjacency m_cmesh I (2 * d) in
  lsInfo ← store !! J;
  let v := probe s J lsInfo v in
  let J := VolCartesian.getAdjacency m_cmesh I (2 * d + 1) in
  let v := probe s J lsInfo v in
  Some v.

(** Coefficients [a], [b], [c] of the quadratic form. *)
Record quad : Type := mkQuad { qa : D; qb : D; qc : D }.

(** [if (value < 1.0e+17) { h2 = pow(spacing,2); a += 1.0/h2;
      b += -2.0 * value/h2; c += pow(value,2)/h2; }] *)
Definition accumulate (d : Z) (v : D) (q : quad) : quad :=
  if (v <? d_ofZ (10 ^ 17))%D then
    let h2 := Std.pow2 (VolCartesian.getSpacing m_cmesh d) in
    mkQuad (qa q + d_ofZ 1 / h2)%D
           (qb q + d_ofZ (-2) * v / h2)%D
           (qc q + Std.pow2 v / h2)%D
  else q.

(** The loop over the axes. *)
Fixpoint stencil (store : gmap Z (LSInfo D)) (s : D) (I : Z)
         (axes : list Z) (q : quad) : option quad :=
  match axes with
  | [] => Some q
  | d :: axes' =>
      v ← upwindValue store s I d;
      stencil store s I axes' (accumulate d v q)
  end.

(** [delta = pow(b,2) - 4.0*a*(c - pow(g,2));
    value = -(b - sqrt(delta))/(2.0*a)]. *)
Definition solveQuadratic (g : D) (q : quad) : D :=
  let delta := (Std.pow2 (qb q) - d_ofZ 4 * qa q * (qc q - Std.pow2 g))%D in
  (- (qb q - d_sqrt delta) / (d_ofZ 2 * qa q))%D.

(** [updateEikonal( s, g, I )]; [None] when a subscript [info[J]]
    has no record to refer to. *)
Definition updateEikonal (ls : LevelSet D) (s g : D) (I : Z) : option D :=
  q ← stencil (info ls) s I (seqZ 0 (VolCartesian.getDimension m_cmesh))
              (mkQuad (d_ofZ 0) (d_ofZ 0) (d_ofZ 0));
  Some (solveQuadratic g q).
End Cartesian.
End LevelSetCartesian.

(** The upwind value of an axis as the specification words it, to be
    compared with [LevelSetCartesian.upwindValue]: each of the two
    face neighbours that exists and holds an active record contributes
    [s * value] of its own record; the smaller contribution is kept, and
    an axis without contribution has no upwind value. *)
Module EikonalSpec.
Section EikonalSpec.
Context {D : Type} {num : Real64 D}.
Variable m_cmesh : VolCartesian.t D.

Definition contribution (store : gmap Z (LSInfo D)) (s : D) (J : Z) : option D :=
  if 0 <=? J then
    match store !! J with
    | Some r => if active r =? 0 then Some (s * value r)%D else None
    | None => None
    end
  else None.

Definition upwindValue (store : gmap Z (LSInfo D)) (s : D) (I d : Z) : option D :=
  match contribution store s (VolCartesian.getAdjacency m_cmesh I (2 * d)),
        contribution store s (VolCartesian.getAdjacency m_cmesh I (2 * d + 1)) with
  | Some u, Some v => Some (Std.min u v)
  | Some u, None => Some u
  | None, Some v => Some v
  | None, None => None
  end.
End EikonalSpec.
End EikonalSpec.

(** ** [LevelSetOctree] *)

(** Modelled from the spec: [bitpit::PiercedVector<long>], whose code is
    in another file, as the local [nb] uses it: a container of
    identifiers with [insert(id,id)] and [erase(id,true)] (made
    effective by [flush()]), which the specification describes as
    [insert/erase(id)] with "no side effects beyond membership".  It is
    a finite set of identifiers. *)
Module PiercedVector.
Definition insert (id : Z) (nb : gset Z) : gset Z := {[ id ]} ∪ nb.
Definition erase (id : Z) (nb : gset Z) : gset Z := nb ∖ {[ id ]}.
End PiercedVector.

(** The part of [VolOctree] (and of its [PabloUniform] tree) the level
    set consults.  Cells are named by their identifiers. *)
Module VolOctree.
Record t (D : Type) : Type := mk {
  getDimension    : Z;
  getBoundingBox  : array3 D * array3 D;
  getCells        : list Z;          (* identifiers, in iteration order *)
  getConnect      : Z -> Z -> Z;     (* [cell.getConnect()[j]] *)
  getVertexCoords : Z -> array3 D;
  getCellLevel    : Z -> Z;          (* [int getCellLevel(id)] *)
  levelToSize     : Z -> D;          (* [getTree().levelToSize(uint8_t)] *)
  getLocalMinSize : D                (* [getTree().getLocalMinSize()] *)
}.
Arguments mk {D} _ _ _ _ _ _ _ _.
Arguments getDimension {D} _.
Arguments getBoundingBox {D} _.
Arguments getCells {D} _.
Arguments getConnect {D} _ _ _.
Arguments getVertexCoords {D} _ _.
Arguments getCellLevel {D} _ _.
Arguments levelToSize {D} _ _.
Arguments getLocalMinSize {D} _.
End VolOctree.

(** Component [i] of a [std::array<_,3>], and its update. *)
Definition nth3 {A : Type} (a : array3 A) (i : Z) : A :=
  let '(x, y, z) := a in
  if i =? 0 then x else if i =? 1 then y else z.

Definition upd3 {A : Type} (a : array3 A) (i : Z) (v : A) : array3 A :=
  let '(x, y, z) := a in
  if i =? 0 then (v, y, z) else if i =? 1 then (x, v, z) else (x, y, v).

Definition map3 {A B : Type} (f : A -> B) (a : array3 A) : array3 B :=
  let '(x, y, z) := a in (f x, f y, f z).

Definition zip3 {A B C : Type} (f : A -> B -> C) (a : array3 A) (b : array3 B)
  : array3 C :=
  let '(x, y, z) := a in let '(x', y', z') := b in (f x x', f y y', f z z').

(** The conversion of an [int] to [uint8_t]. *)
Definition to_uint8 (z : Z) : Z := z mod 256.

Module LevelSetOctree.
Section Octree.
Context {D : Type} {num : Real64 D} {flag : BandFlag D}.

(** [CGElem::intersectBoxBox(A0,A1,B0,B1,C0,C1)]: the intersection
    [(C0,C1)] of two boxes, or nothing when they do not meet. *)
Variable intersectBoxBox :
  array3 D -> array3 D -> array3 D -> array3 D -> option (array3 D * array3 D).

(** The constructor [VolCartesian( id, dimension, origin, lengths, nCells )]. *)
Variable newVolCartesian :
  Z -> Z -> array3 D -> array3 D -> array3 Z -> VolCartesian.t D.

Variable m_omesh : VolOctree.t D.

(** [computeRSearchFromLevel( uint8_t level )]:
    [levelToSize(level) * sqrt(11.) / 2.] *)
Definition computeRSearchFromLevel (level : Z) : D :=
  (VolOctree.levelToSize m_omesh (to_uint8 level)
     * d_sqrt (d_ofZ 11) / d_ofZ 2)%D.

(** The bounds of the auxiliary Cartesian grid: the intersection box
    grown by [size] and snapped to the lattice of step [size] anchored
    at [octrBB0]; [nc] counts the cells per direction.  The two casts
    [(int)] and the assignment of [round(...)] to the [int] [nc[i]] are
    [to_int], the [int] sum [... + 1] is taken with [wrap_int].  The
    source leaves the components of [nc] beyond the dimension as
    declared; they are 0 here. *)
Definition snapToGrid (octrBB0 : array3 D) (size : D) (C0 C1 : array3 D)
  : array3 D * array3 D * array3 Z :=
  let C0 := map3 (fun x => x - size)%D C0 in
  let C1 := map3 (fun x => x + size)%D C1 in
  fold_left
    (fun '(C0, C1, nc) i =>
       let o := nth3 octrBB0 i in
       let c0 := (o + size * d_ofZ (to_int ((nth3 C0 i - o) / size)))%D in
       let c1 := (o + size * d_ofZ (wrap_int (to_int ((nth3 C1 i - o) / size) + 1)))%D in
       let n := to_int (d_round ((c1 - c0) / size)%D) in
       (upd3 C0 i c0, upd3 C1 i c1, upd3 nc i n))
    (seqZ 0 (VolOctree.getDimension m_omesh))
    (C0, C1, (0, 0, 0)).

(** The three nested loops over the lattice cells
    [i0[a] <= index < i1[a]] of the auxiliary grid:
    [flagged = flagged || auxLS.isInNarrowBand(index)]. *)
Definition sampleProxy (cmesh : VolCartesian.t D) (auxLS : LevelSet D)
           (i0 i1 : array3 Z) : bool :=
  fold_left
    (fun flagged _k =>
       fold_left
         (fun flagged _j =>
            fold_left
              (fun flagged _i =>
                 let index := VolCartesian.getCellLinearId cmesh _i _j _k in
                 flagged || isInNarrowBand auxLS index)
              (seqZ (nth3 i0 0) (nth3 i1 0 - nth3 i0 0)) flagged)
         (seqZ (nth3 i0 1) (nth3 i1 1 - nth3 i0 1)) flagged)
    (seqZ (nth3 i0 2) (nth3 i1 2 - nth3 i0 2)) false.

(** Whether a cell of the octree is flagged: its corner vertices
    [conn[j0]] and [conn[j1]] are located on the auxiliary grid and
    the lattice cells in between are sampled. *)
Definition cellFlagged (cmesh : VolCartesian.t D) (auxLS : LevelSet D)
           (cell : Z) : bool :=
  let j0 := 0 in
  let j1 := to_uint8 (2 ^ VolOctree.getDimension m_omesh - 1) in
  let C0 := VolOctree.getVertexCoords m_omesh (VolOctree.getConnect m_omesh cell j0) in
  let C1 := VolOctree.getVertexCoords m_omesh (VolOctree.getConnect m_omesh cell j1) in
  let i0 := VolCartesian.locateClosestVertexCartesian cmesh C0 in
  let i1 := VolCartesian.locateClosestVertexCartesian cmesh C1 in
  sampleProxy cmesh auxLS i0 i1.

(** The loop over the cells, started at [level = 100]:
    [if(flagged) level = std::min( level, getCellLevel( cell.getId() ) )]. *)
Definition coarsestFlagged (flagged : Z -> bool) (cells : list Z) : Z :=
  fold_left
    (fun level cell =>
       if flagged cell then Z.min level (VolOctree.getCellLevel m_omesh cell)
       else level)
    cells 100.

(** The auxiliary grid and the auxiliary level set computed on it by
    the Cartesian [compute], with a clone of the visitor.  The
    auxiliary level set starts with an empty store; its radius is
    written by [compute] before anything reads it, and [setSign(false)]
    sets a member that no function of this file reads. *)
Definition auxiliary (visitor : LSObject.t D) (C0 C1 : array3 D)
  : VolCartesian.t D * LevelSet D :=
  let size := VolOctree.getLocalMinSize m_omesh in
  let octrBB0 := fst (VolOctree.getBoundingBox m_omesh) in
  let '(C0, C1, nc) := snapToGrid octrBB0 size C0 C1 in
  let cmesh :=
    newVolCartesian 0 (VolOctree.getDimension m_omesh) C0 (zip3 d_sub C1 C0) nc in
  let auxSe := visitor in
  let auxLS := LevelSetCartesian.compute cmesh auxSe (mkLevelSet ∅ (d_ofZ 0)) in
  (cmesh, auxLS).

(** [computeSizeNarrowBand( visitor )]. *)
Definition computeSizeNarrowBand (visitor : LSObject.t D) (ls : LevelSet D)
  : LevelSet D :=
  let '(octrBB0, octrBB1) := VolOctree.getBoundingBox m_omesh in
  let '(triBB0, triBB1) := LSObject.getBoundingBox visitor in
  match intersectBoxBox octrBB0 octrBB1 triBB0 triBB1 with
  | Some (C0, C1) =>
      let '(cmesh, auxLS) := auxiliary visitor C0 C1 in
      let level :=
        coarsestFlagged (cellFlagged cmesh auxLS) (VolOctree.getCells m_omesh) in
      set_RSearch (computeRSearchFromLevel level) ls
  | None => ls
  end.

(** [compute( visitor )]. *)
Definition compute (visitor : LSObject.t D) (ls : LevelSet D) : LevelSet D :=
  LSObject.computeLSInNarrowBand visitor (computeSizeNarrowBand visitor ls).

(** *** [updateSizeNarrowBand] *)

(** First loop, over the identifiers of the store: those in the
    narrow band enter the working set [nb]. *)
Definition oldNarrowBand (ls : LevelSet D) : gset Z :=
  fold_left
    (fun nb id => if isInNarrowBand ls id then PiercedVector.insert id nb else nb)
    (elements (dom (info ls))) ∅.

(** The loop over the parents of one record: every parent in the
    narrow band sets the flag of the record and leaves [nb]. *)
Definition eraseParents (ls : LevelSet D) (previous : list Z)
           (flag : bool) (nb : gset Z) : bool * gset Z :=
  fold_left
    (fun '(flag, nb) parent =>
       if isInNarrowBand ls parent then (true, PiercedVector.erase parent nb)
       else (flag, nb))
    previous (flag, nb).

(** Second loop: one flag per record ([map]) and the parents erased. *)
Definition screenParents (ls : LevelSet D) (mapper : list Adaption.Info)
           (nb : gset Z) : list bool * gset Z :=
  fold_left
    (fun '(map, nb) rec =>
       if Adaption.is_cell (Adaption.entity rec) then
         let '(flag, nb) := eraseParents ls (Adaption.previous rec) false nb in
         (map ++ [flag], nb)
       else (map ++ [false], nb))
    mapper ([], nb).

(** Third loop: the children of the flagged cell records enter [nb]. *)
Definition insertChildren (mapper : list Adaption.Info) (map : list bool)
           (nb : gset Z) : gset Z :=
  fold_left
    (fun nb '(rec, flag) =>
       if Adaption.is_cell (Adaption.entity rec) then
         if flag : bool then
           fold_left (fun nb child => PiercedVector.insert child nb)
                     (Adaption.current rec) nb
         else nb
       else nb)
    (zip mapper map) nb.

(** The flag the second loop leaves in [map] for a record: a cell
    record with a parent in the narrow band. *)
Definition recordFlag (ls : LevelSet D) (rec : Adaption.Info) : bool :=
  Adaption.is_cell (Adaption.entity rec)
  && existsb (isInNarrowBand ls) (Adaption.previous rec).

(** The working set [nb] after the three loops. *)
Definition newNarrowBand (ls : LevelSet D) (mapper : list Adaption.Info)
  : gset Z :=
  let nb := oldNarrowBand ls in
  let '(map, nb) := screenParents ls mapper nb in
  insertChildren mapper map nb.

(** Last loop, started at [level = 100]:
    [level = min( level, getCellLevel(id) )] over [nb]. *)
Definition coarsestLevel (nb : gset Z) : Z :=
  fold_left (fun level id => Z.min level (VolOctree.getCellLevel m_omesh id))
            (elements nb) 100.

(** [updateSizeNarrowBand( mapper )]: returns the new radius. *)
Definition updateSizeNarrowBand (mapper : list Adaption.Info) (ls : LevelSet D)
  : D :=
  computeRSearchFromLevel (coarsestLevel (newNarrowBand ls mapper)).

(** [update( visitor, mapper )], with the two lines it prints. *)
Definition update (visitor : LSObject.t D) (mapper : list Adaption.Info)
           (ls : LevelSet D) : list (string * D) * LevelSet D :=
  let newRSearch := updateSizeNarrowBand mapper ls in
  let out := [("old Rsearch"%string, RSearch ls);
              ("new Rsearch"%string, newRSearch)] in
  let ls' := LSObject.updateLSInNarrowBand visitor ls mapper newRSearch in
  (out, set_RSearch newRSearch ls').
End Octree.
End LevelSetOctree.

(** *** The band maintainer, statement by statement

    A member function reads and writes the member data of its object.
    [M D A] is a program that, run on the member data, returns a value
    of type [A] and the member data it leaves behind. *)
Module Member.
Definition M (D A : Type) : Type := LevelSet D -> A * LevelSet D.

Section Monad.
Context {D : Type}.

Definition ret {A : Type} (a : A) : M D A := fun ls => (a, ls).

Definition bind {A B : Type} (m : M D A) (k : A -> M D B) : M D B :=
  fun ls => let '(a, ls') := m ls in k a ls'.

(** A statement that reads the member data, and one that changes it. *)
Definition read {A : Type} (f : LevelSet D -> A) : M D A := fun ls => (f ls, ls).

Definition write (f : LevelSet D -> LevelSet D) : M D unit := fun ls => (tt, f ls).

(** A loop over a list that carries local variables of type [B]. *)
Fixpoint foldM {A B : Type} (body : B -> A -> M D B) (l : list A) (b : B) : M D B :=
  match l with
  | [] => ret b
  | a :: l' => bind (body b a) (foldM body l')
  end.
End Monad.
End Member.

Declare Scope member_scope.
Delimit Scope member_scope with M.
Notation "'let*' x ':=' m 'in' k" := (Member.bind m (fun x => k))
  (at level 10, x name, m at level 100, k at level 200) : member_scope.
Notation "'let*' ' pat ':=' m 'in' k" :=
  (Member.bind m (fun x => match x with pat => k end))
  (at level 10, pat pattern, m at level 100, k at level 200) : member_scope.

Module OctreeProgram.
Section Program.
Import Member.
Context {D : Type} {num : Real64 D} {flag : BandFlag D}.
Variable m_omesh : VolOctree.t D.
Local Open Scope member_scope.

(** Modelled from the spec: the call [isInNarrowBand(id)] of the member
    function whose definition is in another file; the specification
    gives it no side effects, so the call reads the member data and
    leaves them as they are. *)
Definition isInNarrowBand (id : Z) : M D bool :=
  read (fun ls => isInNarrowBand ls id).

(** The identifiers met by the iteration [it = info.begin() ...
    it != itEnd; id = it.getId(); ++it]. *)
Definition storeIds : M D (list Z) :=
  read (fun ls => elements (dom (info ls))).

(** [while( it!=itEnd ){ id = it.getId() ;
      if( isInNarrowBand(id) ) nb.insert(id,id) ; ++it ; }] *)
Definition oldNarrowBand : M D (gset Z) :=
  let* ids := storeIds in
  foldM (fun nb id =>
           let* inBand := isInNarrowBand id in
           ret (if inBand : bool then PiercedVector.insert id nb else nb))
        ids ∅.

(** [for ( auto & parent : info.previous){ id = (long) parent;
      if( isInNarrowBand(id) ){ *mapIt = true; nb.erase(id,true) ; }; }] *)
Definition eraseParents (previous : list Z) (flag : bool) (nb : gset Z)
  : M D (bool * gset Z) :=
  foldM (fun '(flag, nb) parent =>
           let* inBand := isInNarrowBand parent in
           ret (if inBand : bool then (true, PiercedVector.erase parent nb)
                else (flag, nb)))
        previous (flag, nb).

(** The loop over the records that fills [map] and erases the parents. *)
Definition screenParents (mapper : list Adaption.Info) (nb : gset Z)
  : M D (list bool * gset Z) :=
  foldM (fun '(map, nb) rec =>
           if Adaption.is_cell (Adaption.entity rec) then
             let* '(flag, nb) := eraseParents (Adaption.previous rec) false nb in
             ret (map ++ [flag], nb)
           else ret (map ++ [false], nb))
        mapper ([], nb).

(** [updateSizeNarrowBand( mapper )].  The last two loops touch the
    local [nb], the records and the mesh only. *)
Definition updateSizeNarrowBand (mapper : list Adaption.Info) : M D D :=
  let* nb := oldNarrowBand in
  let* '(map, nb) := screenParents mapper nb in
  let nb := LevelSetOctree.insertChildren mapper map nb in
  let level := LevelSetOctree.coarsestLevel m_omesh nb in
  ret (LevelSetOctree.computeRSearchFromLevel m_omesh level).

(** [update( visitor, mapper )]; the value returned here is what the
    function prints.  The visitor is handed [this]: its callback is a
    statement that may change the store and the radius. *)
Definition update (visitor : LSObject.t D) (mapper : list Adaption.Info)
  : M D (list (string * D)) :=
  let* newRSearch := updateSizeNarrowBand mapper in
  let* old := read RSearch in
  let* _ := write (fun ls => LSObject.updateLSInNarrowBand visitor ls mapper newRSearch) in
  let* _ := write (set_RSearch newRSearch) in
  ret [("old Rsearch"%string, old); ("new Rsearch"%string, newRSearch)].
End Program.
End OctreeProgram.

(** *** [computeLevelFromRSearch] *)

Module LevelSetOctreeLevel.
Section Level.
Context {D : Type} {num : Real64 D}.
Variable m_omesh : VolOctree.t D.

(** [getTree().getLocalMaxDepth()], the finest level present. *)
Variable getLocalMaxDepth : Z.

(** The literal [1.e-8] (the quotient is the binary64 number the
    literal denotes). *)
Definition tolerance : D := (d_ofZ 1 / d_ofZ (10 ^ 8))%D.

(** The test of the loop, [size < RSearch - 1.e-8], at a level. *)
Definition tooSmall (ls : LevelSet D) (level : Z) : bool :=
  (VolOctree.levelToSize m_omesh level <? RSearch ls - tolerance)%D.

(** The loop [while( size < RSearch - 1.e-8 ) { level-- ;
      size = tree.levelToSize(level) ; }] on a [uint8_t] level, which
    wraps from 0 to 255.  [fuel] bounds the number of decrements;
    [None] when it is used up. *)
Fixpoint levelLoop (fuel : nat) (ls : LevelSet D) (level : Z) : option Z :=
  if tooSmall ls level then
    match fuel with
    | O => None
    | S fuel' => levelLoop fuel' ls (to_uint8 (level - 1))
    end
  else Some level.

(** [computeLevelFromRSearch( r )].  The argument is rescaled
    ([r = r /sqrt(11.) *2.]) and not used afterwards: the loop compares
    with the member [RSearch].  After 256 decrements every level has been
    tried, so that much fuel decides whether the loop ends. *)
Definition computeLevelFromRSearch (ls : LevelSet D) (r : D) : option Z :=
  let level := to_uint8 getLocalMaxDepth in
  let r := (r / d_sqrt (d_ofZ 11) * d_ofZ 2)%D in
  levelLoop 256 ls level.
End Level.
End LevelSetOctreeLevel.

(** The discretised Eikonal equation on the stencil the solver uses:
    the term of an axis is [((phi - u) / h)^2] for its upwind value [u]
    when that value is below the sentinel [1.0e+17], and nothing
    otherwise; the equation is [sum of the terms = g^2]. *)
Module EikonalEquation.
Section Equation.
Variable m_cmesh : VolCartesian.t R.
Variable store : gmap Z (LSInfo R).
Variables (s : R) (I : Z).

Definition contributes (d : Z) : bool :=
  match LevelSetCartesian.upwindValue m_cmesh store s I d with
  | Some u => Rltb u (IZR (10 ^ 17))
  | None => false
  end.

Definition axisTerm (phi : R) (d : Z) : R :=
  match LevelSetCartesian.upwindValue m_cmesh store s I d with
  | Some u =>
      if Rltb u (IZR (10 ^ 17)) then
        ((phi - u) * (phi - u)
         / (VolCartesian.getSpacing m_cmesh d * VolCartesian.getSpacing m_cmesh d))%R
      else 0%R
  | None => 0%R
  end.

Definition residual (axes : list Z) (phi : R) : R :=
  fold_right (fun d acc => (axisTerm phi d + acc)%R) 0%R axes.
End Equation.
End EikonalEquation.

(** ** Concrete meshes and stores

    Small inputs on which the functions above are evaluated. *)
Module Examples.
Section Examples.
Context {D : Type} {num : Real64 D}.

(** A 3 x 3 Cartesian grid of unit spacing; cell [(i,j)] has the
    identifier [i + 3*j], faces [0,1] are the low and high side in
    [x], faces [2,3] in [y]; there is no neighbour ([-1]) across the
    border. *)
Definition grid3x3_adjacency (I face : Z) : Z :=
  let i := I mod 3 in
  let j := I / 3 in
  if face =? 0 then (if 0 <? i then I - 1 else -1)
  else if face =? 1 then (if i <? 2 then I + 1 else -1)
  else if face =? 2 then (if 0 <? j then I - 3 else -1)
  else if face =? 3 then (if j <? 2 then I + 3 else -1)
  else -1.

Definition grid3x3 : VolCartesian.t D :=
  VolCartesian.mk 2 (fun _ => d_ofZ 1) grid3x3_adjacency
                  (fun _ => (0, 0, 0)) (fun i j k => i + 3 * j).

(** A visitor that leaves the level set as it finds it. *)
Definition idleVisitor : LSObject.t D :=
  LSObject.mk ((d_ofZ 0, d_ofZ 0, d_ofZ 0), (d_ofZ 1, d_ofZ 1, d_ofZ 1))
              (fun ls => ls) (fun ls _ _ => ls).

Definition emptyLS : LevelSet D := mkLevelSet ∅ (d_ofZ 0).

(** Around the centre cell 4: the left neighbour 3 is active with
    value 2, the lower neighbour 1 has a record that is not active,
    the neighbours 5 and 7 have no record. *)
Definition store_one_left : gmap Z (LSInfo D) :=
  <[ 3 := mkLSInfo (d_ofZ 2) 0 ]> (<[ 1 := mkLSInfo (d_ofZ 0) 1 ]> ∅).

(** Around the centre cell 4: the left neighbour 3 is active with
    value 5 and the right neighbour 5 is active with value 3; the
    lower and upper neighbours 1 and 7 have records that are not
    active. *)
Definition store_two_sided : gmap Z (LSInfo D) :=
  <[ 3 := mkLSInfo (d_ofZ 5) 0 ]>
    (<[ 5 := mkLSInfo (d_ofZ 3) 0 ]>
       (<[ 1 := mkLSInfo (d_ofZ 0) 1 ]>
          (<[ 7 := mkLSInfo (d_ofZ 0) 1 ]> ∅))).

(** The flag value 0 marks an active record, at every radius. *)
Definition activeIsZero : BandFlag D := fun _ r => active r =? 0.

(** An octree on the unit cube whose cell 1 is at level 2 and whose
    other cells are at level 3; a cell of level [l] has the size
    [1 / 2^l].  Cell [c] has the corner vertices [8c .. 8c+7]; the
    coordinates do not matter for the band maintainer. *)
Definition octree : VolOctree.t D :=
  VolOctree.mk 3
    ((d_ofZ 0, d_ofZ 0, d_ofZ 0), (d_ofZ 1, d_ofZ 1, d_ofZ 1))
    [1; 2; 3]
    (fun c j => 8 * c + j)
    (fun _ => (d_ofZ 0, d_ofZ 0, d_ofZ 0))
    (fun id => if id =? 1 then 2 else 3)
    (fun l => d_ofZ 1 / d_ofZ (2 ^ l))%D
    (d_ofZ 1 / d_ofZ 8)%D.

Definition activeRecord : LSInfo D := mkLSInfo (d_ofZ 0) 0.

(** Eight sibling cells 10..17, all in the band, and the record of
    their merge into the cell 2. *)
Definition store_siblings : gmap Z (LSInfo D) :=
  list_to_map ((fun id => (id, activeRecord)) <$> seqZ 10 8).

Definition merge_siblings : Adaption.Info :=
  Adaption.mkInfo Adaption.ENTITY_CELL (seqZ 10 8) [2].

(** A visitor whose update callback writes what it is given into the
    store: under the identifier 0 the radius it reads in the level
    set, under the identifier 1 the radius it receives as argument. *)
Definition spyVisitor : LSObject.t D :=
  LSObject.mk ((d_ofZ 0, d_ofZ 0, d_ofZ 0), (d_ofZ 1, d_ofZ 1, d_ofZ 1))
              (fun ls => ls)
              (fun ls _ newRSearch =>
                 mkLevelSet (<[ 0 := mkLSInfo (RSearch ls) 0 ]>
                               (<[ 1 := mkLSInfo newRSearch 0 ]> (info ls)))
                            (RSearch ls)).

(** Collaborators for the octree sizer: the intersection of two
    axis-aligned boxes, and a uniform Cartesian grid with
    nearest-vertex lookup and row-major cell numbering. *)
Definition boxes_intersect (A0 A1 B0 B1 : array3 D)
  : option (array3 D * array3 D) :=
  let apart i := (nth3 A1 i <? nth3 B0 i)%D || (nth3 B1 i <? nth3 A0 i)%D in
  if apart 0 || apart 1 || apart 2 then None
  else Some (zip3 Std.max A0 B0, zip3 Std.min A1 B1).

Definition uniformGrid (id dim : Z) (origin lengths : array3 D) (nc : array3 Z)
  : VolCartesian.t D :=
  let h i := (nth3 lengths i / d_ofZ (nth3 nc i))%D in
  let locate p i :=
    Z.min (nth3 nc i)
          (Z.max 0 (to_int (d_round ((nth3 p i - nth3 origin i) / h i)%D))) in
  VolCartesian.mk dim h (fun _ _ => -1)
    (fun p => (locate p 0, locate p 1, locate p 2))
    (fun i j k => i + nth3 nc 0 * j + nth3 nc 0 * nth3 nc 1 * k).

(** The unit cube refined once: eight cells of level 1 and size 1/2;
    cell [c] sits at the lattice position given by the bits of [c]
    and has the corner vertices [8c .. 8c+7], vertex [8c+j] being
    displaced by the bits of [j]. *)
Definition bit (n i : Z) : Z := (n / 2 ^ i) mod 2.

Definition cube8 : VolOctree.t D :=
  VolOctree.mk 3
    ((d_ofZ 0, d_ofZ 0, d_ofZ 0), (d_ofZ 1, d_ofZ 1, d_ofZ 1))
    (seqZ 0 8)
    (fun c j => 8 * c + j)
    (fun v => let c := v / 8 in let j := v mod 8 in
              (d_ofZ (bit c 0 + bit j 0) / d_ofZ 2,
               d_ofZ (bit c 1 + bit j 1) / d_ofZ 2,
               d_ofZ (bit c 2 + bit j 2) / d_ofZ 2)%D)
    (fun _ => 1)
    (fun l => d_ofZ 1 / d_ofZ (2 ^ l))%D
    (d_ofZ 1 / d_ofZ 2)%D.

(** A visitor with the bounding box [lo, hi]^3 (in sixteenths) whose
    compute callback stores an active record for each listed cell. *)
Definition markingVisitor (lo hi : Z) (ids : list Z) : LSObject.t D :=
  let c z := (d_ofZ z / d_ofZ 16)%D in
  LSObject.mk ((c lo, c lo, c lo), (c hi, c hi, c hi))
              (fun ls => mkLevelSet
                           (foldr (fun id st => <[ id := activeRecord ]> st) (info ls) ids)
                           (RSearch ls))
              (fun ls _ _ => ls).

(** A surface box [1/4, 3/8]^3 near the origin of the cube, seen by
    a visitor that marks the listed cells of whatever grid it is
    given. *)
Definition nearOrigin (ids : list Z) : LSObject.t D := markingVisitor 4 6 ids.

Definition nearOriginBox : array3 D * array3 D :=
  LSObject.getBoundingBox (nearOrigin []).

(** A surface box [2, 3]^3 away from the unit cube. *)
Definition farAway : LSObject.t D := markingVisitor 32 48 [].

(** The unit cube refined once, its first octant refined once more:
    the cells 0..7 are the children of the first octant (level 2, size
    1/4, at the lattice position given by the bits of the identifier),
    the cells 8..14 are the octants 1..7 (level 1, size 1/2).
    Coordinates are counted in quarters. *)
Definition cube15 : VolOctree.t D :=
  VolOctree.mk 3
    ((d_ofZ 0, d_ofZ 0, d_ofZ 0), (d_ofZ 1, d_ofZ 1, d_ofZ 1))
    (seqZ 0 15)
    (fun c j => 8 * c + j)
    (fun v => let c := v / 8 in let j := v mod 8 in
              let at_ a := if c <? 8 then bit c a + bit j a
                           else 2 * bit (c - 7) a + 2 * bit j a in
              (d_ofZ (at_ 0) / d_ofZ 4, d_ofZ (at_ 1) / d_ofZ 4,
               d_ofZ (at_ 2) / d_ofZ 4)%D)
    (fun id => if id <? 8 then 2 else 1)
    (fun l => d_ofZ 1 / d_ofZ (2 ^ l))%D
    (d_ofZ 1 / d_ofZ 4)%D.

(** A surface box [1/16, 1/8]^3 in the corner cell 0 of [cube15]; the
    visitor finds the cell 0 and the neighbouring octant 8 in the band
    (on the auxiliary grid the identifier 8 names no cell). *)
Definition surfaceInCorner : LSObject.t D := markingVisitor 1 2 [0; 8].

(** A level set whose band is the cell 1 and whose radius is the one
    of the octree level [level]. *)
Definition bandOfCell1 (level : Z) : LevelSet D :=
  mkLevelSet (<[ 1 := activeRecord ]> ∅)
             (LevelSetOctree.computeRSearchFromLevel octree level).
End Examples.
End Examples.

(** ** More concrete inputs *)
Module MoreExamples.
Section MoreExamples.
Context {D : Type} {num : Real64 D}.

(** Around the centre cell 4 of the 3 x 3 grid: the left neighbour 3
    and the lower neighbour 1 are both active with value 0. *)
Definition store_corner : gmap Z (LSInfo D) :=
  <[ 3 := mkLSInfo (d_ofZ 0) 0 ]> (<[ 1 := mkLSInfo (d_ofZ 0) 0 ]> ∅).

(** Two records of an adaptation: the cell 1 split into 21, 22, and
    the cell 2 split into 23, 24. *)
Definition split1 : Adaption.Info :=
  Adaption.mkInfo Adaption.ENTITY_CELL [1] [21; 22].

Definition split2 : Adaption.Info :=
  Adaption.mkInfo Adaption.ENTITY_CELL [2] [23; 24].

(** A store whose band holds the cells 1 and 2. *)
Definition store_pair : gmap Z (LSInfo D) :=
  <[ 1 := mkLSInfo (d_ofZ 0) 0 ]> (<[ 2 := mkLSInfo (d_ofZ 0) 0 ]> ∅).

(** A membership test that reads the radius: a record is in the band
    when its value lies within the search radius of zero. *)
Definition withinRadius : BandFlag D :=
  fun radius r => negb (radius <? value r)%D && negb (radius <? - value r)%D.

(** A store with the cell 1 on the surface and the cell 2 at the
    distance 3/10 from it. *)
Definition store_near_far : gmap Z (LSInfo D) :=
  <[ 1 := mkLSInfo (d_ofZ 0) 0 ]> (<[ 2 := mkLSInfo (d_ofZ 3 / d_ofZ 10)%D 0 ]> ∅).
End MoreExamples.
End MoreExamples.

(** * Properties *)

(** ** Facts about the number model on the reals *)

Section RealFacts.
Local Open Scope R_scope.

Lemma Rltb_true (x y : R) : x < y -> Rltb x y = true.
Proof. intros Hxy. unfold Rltb. destruct (Rlt_dec x y); [reflexivity | contradiction]. Qed.

Lemma Rltb_false (x y : R) : y <= x -> Rltb x y = false.
Proof. intros Hyx. unfold Rltb. destruct (Rlt_dec x y); [lra | reflexivity]. Qed.

Lemma std_max_Rmax (a b : R) : Std.max a b = Rmax a b.
Proof.
  unfold Std.max; simpl. unfold Rltb, Rmax.
  destruct (Rlt_dec a b), (Rle_dec a b); lra.
Qed.

Lemma std_min_Rmin (a b : R) : Std.min a b = Rmin a b.
Proof.
  unfold Std.min; simpl. unfold Rltb, Rmin.
  destruct (Rlt_dec b a), (Rle_dec a b); lra.
Qed.

(** A running maximum dominates its start and every element folded
    in, and it is one of them. *)
Lemma fold_max_spec (f : Z -> R) (l : list Z) (r0 : R) :
  let r := fold_left (fun r d => Std.max r (f d)) l r0 in
  r0 <= r /\ (forall d, d ∈ l -> f d <= r) /\ (r = r0 \/ exists d, d ∈ l /\ r = f d).
Proof.
  revert r0. induction l as [|d l IH]; intros r0; simpl.
  - split; [lra|]. split; [intros d Hd; inversion Hd | now left].
  - destruct (IH (Std.max r0 (f d))) as (Hge & Hall & Hone).
    rewrite std_max_Rmax in *.
    pose proof (Rmax_l r0 (f d)) as Hl. pose proof (Rmax_r r0 (f d)) as Hr.
    split; [lra|]. split.
    + intros d' Hd'. apply elem_of_cons in Hd' as [-> | Hd']; [lra | auto].
    + destruct Hone as [Hone | (d' & Hd' & Hone)].
      * destruct (Rle_dec r0 (f d)) as [Hle | Hnle].
        -- right. exists d. split; [left |]. rewrite Hone. apply Rmax_right; lra.
        -- left. rewrite Hone. apply Rmax_left; lra.
      * right. exists d'. split; [now right | exact Hone].
Qed.
End RealFacts.

(** ** The Cartesian band sizer *)

Section CartesianSizer.
Local Open Scope R_scope.
Variable m_cmesh : VolCartesian.t R.

Lemma maxSpacing_is_max :
  (1 <= VolCartesian.getDimension m_cmesh)%Z ->
  (forall d, (0 <= d < VolCartesian.getDimension m_cmesh)%Z ->
             0 < VolCartesian.getSpacing m_cmesh d) ->
  let r := LevelSetCartesian.maxSpacing m_cmesh in
  (forall d, (0 <= d < VolCartesian.getDimension m_cmesh)%Z ->
             VolCartesian.getSpacing m_cmesh d <= r) /\
  (exists d, (0 <= d < VolCartesian.getDimension m_cmesh)%Z /\
             r = VolCartesian.getSpacing m_cmesh d).
Proof.
  intros Hdim Hpos r.
  destruct (fold_max_spec (VolCartesian.getSpacing m_cmesh)
              (seqZ 0 (VolCartesian.getDimension m_cmesh)) (IZR (-1)))
    as (Hge & Hall & Hone).
  fold (LevelSetCartesian.maxSpacing m_cmesh) in Hge, Hall, Hone. fold r in Hge, Hall, Hone.
  split.
  - intros d Hd. apply Hall, elem_of_seqZ. lia.
  - destruct Hone as [Hone | (d & Hd & Hone)].
    + exfalso.
      assert (H0 : (0 <= 0 < VolCartesian.getDimension m_cmesh)%Z) by lia.
      specialize (Hpos 0%Z H0).
      assert (Hin : 0%Z ∈ seqZ 0 (VolCartesian.getDimension m_cmesh))
        by (apply elem_of_seqZ; lia).
      specialize (Hall 0%Z Hin). lra.
    + exists d. split; [apply elem_of_seqZ in Hd; lia | exact Hone].
Qed.

(** C3: on every Cartesian mesh (at least one dimension, positive
    spacings) both [computeSizeNarrowBand] and [updateSizeNarrowBand]
    give as search radius the maximum over the dimensions [d] of the
    cell spacing: it bounds every spacing and is one of them; this
    holds for whatever visitor, adaptation map and previous state. *)
Theorem cartesian_radius_is_max_spacing
        (visitor : LSObject.t R) (mapper : list Adaption.Info) (ls : LevelSet R) :
  (1 <= VolCartesian.getDimension m_cmesh)%Z ->
  (forall d, (0 <= d < VolCartesian.getDimension m_cmesh)%Z ->
             0 < VolCartesian.getSpacing m_cmesh d) ->
  let r := RSearch (LevelSetCartesian.computeSizeNarrowBand m_cmesh visitor ls) in
  LevelSetCartesian.updateSizeNarrowBand m_cmesh mapper ls = r /\
  (forall visitor' ls',
     RSearch (LevelSetCartesian.computeSizeNarrowBand m_cmesh visitor' ls') = r) /\
  (forall d, (0 <= d < VolCartesian.getDimension m_cmesh)%Z ->
             VolCartesian.getSpacing m_cmesh d <= r) /\
  (exists d, (0 <= d < VolCartesian.getDimension m_cmesh)%Z /\
             r = VolCartesian.getSpacing m_cmesh d).
Proof.
  intros Hdim Hpos. simpl. split; [reflexivity|]. split; [reflexivity|].
  apply maxSpacing_is_max; assumption.
Qed.
End CartesianSizer.

Lemma cartesian_radius_is_max_spacing_witness :
  let m := Examples.grid3x3 (D := R) in
  let r := RSearch (LevelSetCartesian.computeSizeNarrowBand m Examples.idleVisitor Examples.emptyLS) in
  LevelSetCartesian.updateSizeNarrowBand m [] Examples.emptyLS = r /\
  (forall visitor' ls',
     RSearch (LevelSetCartesian.computeSizeNarrowBand m visitor' ls') = r) /\
  (forall d, 0 <= d < 2 -> (VolCartesian.getSpacing m d <= r)%R) /\
  (exists d, 0 <= d < 2 /\ r = VolCartesian.getSpacing m d).
Proof.
  apply (cartesian_radius_is_max_spacing Examples.grid3x3 Examples.idleVisitor [] Examples.emptyLS).
  - simpl. lia.
  - intros d _. simpl. lra.
Defined.

(** The same sizer run on binary64 numbers: unit spacing gives the
    radius [1.0]. *)
Example cartesian_radius_unit_grid_binary64 :
  RSearch (LevelSetCartesian.computeSizeNarrowBand
             (Examples.grid3x3 (D := PrimFloat.float))
             Examples.idleVisitor Examples.emptyLS)
  = float_ofZ 1.
Proof. vm_compute. reflexivity. Qed.

(** ** The Eikonal stencil *)

Section EikonalR.
Local Open Scope R_scope.
Variable m_cmesh : VolCartesian.t R.
Variable store : gmap Z (LSInfo R).
Variables (s : R) (I : Z).

Let left (d : Z) : Z := VolCartesian.getAdjacency m_cmesh I (2 * d).
Let right (d : Z) : Z := VolCartesian.getAdjacency m_cmesh I (2 * d + 1).

Lemma sentinels : IZR (10 ^ 17) < IZR (10 ^ 18).
Proof. apply IZR_lt. reflexivity. Qed.

(** With an active record under the left neighbour, both probes can
    only propose [s * value] of that record. *)
Lemma upwindValue_left_active (d : Z) (r0 : LSInfo R) :
  store !! left d = Some r0 ->
  (0 <= left d)%Z ->
  active r0 = 0%Z ->
  s * value r0 < IZR (10 ^ 17) ->
  LevelSetCartesian.upwindValue m_cmesh store s I d = Some (s * value r0).
Proof.
  intros Hrec Hex Hact Hsmall. pose proof sentinels as Hsen.
  unfold LevelSetCartesian.upwindValue. fold (left d). rewrite Hrec. simpl.
  fold (right d). f_equal.
  assert (Hfirst : LevelSetCartesian.probe s (left d) r0 (IZR (10 ^ 18)) = s * value r0).
  { unfold LevelSetCartesian.probe. rewrite Hact.
    destruct (0 <=? left d)%Z eqn:E; [|lia]. simpl.
    rewrite std_min_Rmin. apply Rmin_left. lra. }
  rewrite Hfirst. unfold LevelSetCartesian.probe. rewrite Hact.
  destruct (0 <=? right d)%Z; simpl; [|reflexivity].
  rewrite std_min_Rmin. apply Rmin_left. lra.
Qed.

(** With a record that is not active under the left neighbour, no
    probe fires and the sentinel [1.0e+18] stays. *)
Lemma upwindValue_left_inactive (d : Z) (r : LSInfo R) :
  store !! left d = Some r ->
  active r <> 0%Z ->
  LevelSetCartesian.upwindValue m_cmesh store s I d = Some (IZR (10 ^ 18)).
Proof.
  intros Hrec Hact.
  unfold LevelSetCartesian.upwindValue. fold (left d). rewrite Hrec. simpl.
  unfold LevelSetCartesian.probe.
  destruct (active r =? 0)%Z eqn:E; [lia|].
  rewrite !andb_false_r. reflexivity.
Qed.

Lemma accumulate_sentinel (d : Z) (q : LevelSetCartesian.quad) :
  LevelSetCartesian.accumulate m_cmesh d (IZR (10 ^ 18)) q = q.
Proof.
  unfold LevelSetCartesian.accumulate. simpl.
  rewrite Rltb_false; [reflexivity|]. pose proof sentinels. lra.
Qed.

(** Axes whose left neighbour holds a record that is not active leave
    the quadratic form as it is. *)
Lemma stencil_idle_axes (axes : list Z) (q : LevelSetCartesian.quad) :
  (forall d, d ∈ axes -> exists r, store !! left d = Some r /\ active r <> 0%Z) ->
  LevelSetCartesian.stencil m_cmesh store s I axes q = Some q.
Proof.
  revert q. induction axes as [|d axes IH]; intros q Hidle; simpl; [reflexivity|].
  destruct (Hidle d) as (r & Hrec & Hact); [left|].
  rewrite (upwindValue_left_inactive d r Hrec Hact). simpl.
  rewrite accumulate_sentinel. apply IH.
  intros d' Hd'. apply Hidle. now right.
Qed.

Lemma stencil_app (l1 l2 : list Z) (q : LevelSetCartesian.quad) :
  LevelSetCartesian.stencil m_cmesh store s I (l1 ++ l2) q
  = LevelSetCartesian.stencil m_cmesh store s I l1 q
      ≫= LevelSetCartesian.stencil m_cmesh store s I l2.
Proof.
  revert q. induction l1 as [|d l1 IH]; intros q; simpl; [reflexivity|].
  destruct (LevelSetCartesian.upwindValue m_cmesh store s I d); simpl; [apply IH | reflexivity].
Qed.

(** The quadratic form of a single axis with upwind value [u] and
    spacing [h], solved for [g = 1], has the root [u + h]. *)
Lemma solveQuadratic_single (u h : R) :
  0 < h ->
  LevelSetCartesian.solveQuadratic 1
    (LevelSetCartesian.mkQuad (0 + 1 / (h * h)) (0 + -2 * u / (h * h))
                              (0 + u * u / (h * h)))
  = u + h.
Proof.
  intros Hh. unfold LevelSetCartesian.solveQuadratic, Std.pow2. simpl.
  replace ((0 + -2 * u / (h * h)) * (0 + -2 * u / (h * h))
           - 4 * (0 + 1 / (h * h)) * (0 + u * u / (h * h) - 1 * 1))
    with ((2 / h) * (2 / h)) by (field; lra).
  rewrite sqrt_square by (apply Rlt_le, Rdiv_lt_0_compat; lra).
  field. lra.
Qed.

(** One contributing axis [d0], fed by its left neighbour. *)
Lemma updateEikonal_left_neighbour (rs : R) (d0 : Z) (r0 : LSInfo R) :
  (0 <= d0 < VolCartesian.getDimension m_cmesh)%Z ->
  store !! left d0 = Some r0 ->
  (0 <= left d0)%Z ->
  active r0 = 0%Z ->
  s * value r0 < IZR (10 ^ 17) ->
  0 < VolCartesian.getSpacing m_cmesh d0 ->
  (forall d, (0 <= d < VolCartesian.getDimension m_cmesh)%Z -> d <> d0 ->
             exists r, store !! left d = Some r /\ active r <> 0%Z) ->
  LevelSetCartesian.updateEikonal m_cmesh (mkLevelSet store rs) s 1 I
  = Some (s * value r0 + VolCartesian.getSpacing m_cmesh d0).
Proof.
  intros Hd0 Hrec Hex Hact Hsmall Hh Hidle.
  unfold LevelSetCartesian.updateEikonal. simpl info.
  set (dim := VolCartesian.getDimension m_cmesh) in *.
  assert (Hsplit : seqZ 0 dim = seqZ 0 d0 ++ d0 :: seqZ (d0 + 1) (dim - d0 - 1)).
  { replace dim with (d0 + (1 + (dim - d0 - 1)))%Z at 1 by lia.
    rewrite seqZ_app by lia. f_equal.
    rewrite seqZ_cons by lia. rewrite Z.add_0_l. f_equal. f_equal; lia. }
  rewrite Hsplit, stencil_app.
  rewrite stencil_idle_axes.
  2:{ intros d Hd. apply elem_of_seqZ in Hd. apply Hidle; lia. }
  simpl. rewrite (upwindValue_left_active d0 r0 Hrec Hex Hact Hsmall). simpl.
  rewrite stencil_idle_axes.
  2:{ intros d Hd. apply elem_of_seqZ in Hd. apply Hidle; lia. }
  simpl. f_equal.
  unfold LevelSetCartesian.accumulate. simpl.
  rewrite Rltb_true by exact Hsmall. unfold Std.pow2. simpl.
  apply solveQuadratic_single. exact Hh.
Qed.
End EikonalR.

(** The right probe never consults the record of the right neighbour:
    two stores that agree under the left neighbour give the same upwind
    value. *)
Lemma upwindValue_reads_left_record_only {D : Type} {num : Real64 D}
      (m_cmesh : VolCartesian.t D) (store store' : gmap Z (LSInfo D))
      (s : D) (I d : Z) :
  store !! VolCartesian.getAdjacency m_cmesh I (2 * d)
  = store' !! VolCartesian.getAdjacency m_cmesh I (2 * d) ->
  LevelSetCartesian.upwindValue m_cmesh store s I d
  = LevelSetCartesian.upwindValue m_cmesh store' s I d.
Proof. intros Hleft. unfold LevelSetCartesian.upwindValue. rewrite Hleft. reflexivity. Qed.

Section EikonalExamples.
Local Open Scope R_scope.

Lemma one_left_idle (d : Z) :
  (0 <= d < 2)%Z -> d <> 0%Z ->
  exists r, Examples.store_one_left (D := R) !! Examples.grid3x3_adjacency 4 (2 * d) = Some r
            /\ active r <> 0%Z.
Proof.
  intros Hd Hne. assert (d = 1%Z) as -> by lia.
  exists (mkLSInfo 0 1). split; [reflexivity | simpl; lia].
Qed.
End EikonalExamples.

(** C7 (as amended): a cell whose stencil has a single contributing
    axis [d0], fed by the left neighbour along [d0] (it exists, its
    record is active with value [v0], and [s * v0] is below the
    sentinel [1.0e+17]), every other axis having under its left
    neighbour a record that is not active; with spacing [h > 0] along
    [d0] and speed [g = 1], [updateEikonal] returns [s * v0 + h].  For
    [s = 1] this is [v0 + s * h]; for [s = -1] it is [- (v0 + s * h)]. *)
Theorem updateEikonal_single_axis
        (m_cmesh : VolCartesian.t R) (ls : LevelSet R) (s v0 h : R) (I d0 : Z)
        (r0 : LSInfo R) :
  (0 <= d0 < VolCartesian.getDimension m_cmesh)%Z ->
  info ls !! VolCartesian.getAdjacency m_cmesh I (2 * d0) = Some r0 ->
  (0 <= VolCartesian.getAdjacency m_cmesh I (2 * d0))%Z ->
  active r0 = 0%Z ->
  value r0 = v0 ->
  (s * v0 < IZR (10 ^ 17))%R ->
  VolCartesian.getSpacing m_cmesh d0 = h ->
  (0 < h)%R ->
  (forall d, (0 <= d < VolCartesian.getDimension m_cmesh)%Z -> d <> d0 ->
     exists r, info ls !! VolCartesian.getAdjacency m_cmesh I (2 * d) = Some r
               /\ active r <> 0%Z) ->
  LevelSetCartesian.updateEikonal m_cmesh ls s 1%R I = Some (s * v0 + h)%R /\
  (s = 1%R -> LevelSetCartesian.updateEikonal m_cmesh ls s 1%R I = Some (v0 + s * h)%R) /\
  (s = (-1)%R -> LevelSetCartesian.updateEikonal m_cmesh ls s 1%R I = Some (- (v0 + s * h))%R).
Proof.
  intros Hd0 Hrec Hex Hact Hval Hsmall Hsp Hh Hidle.
  destruct ls as [store rs]. simpl in Hrec, Hidle. subst v0 h.
  pose proof (updateEikonal_left_neighbour m_cmesh store s I rs d0 r0
                Hd0 Hrec Hex Hact Hsmall Hh Hidle) as Heq.
  split; [exact Heq|]. split; intros ->; rewrite Heq; f_equal; lra.
Qed.

Lemma updateEikonal_single_axis_witness :
  LevelSetCartesian.updateEikonal (Examples.grid3x3 (D := R))
    (mkLevelSet Examples.store_one_left 0%R) 1%R 1%R 4
  = Some (1 * 2 + 1)%R.
Proof.
  apply (updateEikonal_single_axis Examples.grid3x3
           (mkLevelSet Examples.store_one_left 0%R) 1%R 2%R 1%R 4 0 (mkLSInfo 2%R 0)).
  - simpl. lia.
  - reflexivity.
  - vm_compute. discriminate.
  - reflexivity.
  - reflexivity.
  - apply Rlt_trans with (IZR 3); [lra | apply IZR_lt; reflexivity].
  - reflexivity.
  - lra.
  - exact one_left_idle.
Defined.

(** C7, the claim as stated ([v0 + s * h] for either sign) fails for
    [s = -1]: with the single active neighbour at [v0 = 2] and [h = 1]
    the solver returns [-1], not [2 + (-1) * 1 = 1]. *)
Lemma updateEikonal_single_axis_counterexample :
  LevelSetCartesian.updateEikonal (Examples.grid3x3 (D := R))
    (mkLevelSet Examples.store_one_left 0%R) (-1)%R 1%R 4
  <> Some (2 + (-1) * 1)%R.
Proof.
  rewrite (updateEikonal_left_neighbour Examples.grid3x3 Examples.store_one_left
             (-1)%R 4 0%R 0 (mkLSInfo 2%R 0)).
  - intros Heq. injection Heq as Heq. simpl in Heq. lra.
  - simpl. lia.
  - reflexivity.
  - vm_compute. discriminate.
  - reflexivity.
  - apply Rlt_trans with (IZR 3); [simpl; lra | apply IZR_lt; reflexivity].
  - simpl. lra.
  - exact one_left_idle.
Qed.

(** The same two runs on binary64 numbers. *)
Example updateEikonal_single_axis_binary64 :
  LevelSetCartesian.updateEikonal (Examples.grid3x3 (D := PrimFloat.float))
    (mkLevelSet Examples.store_one_left (float_ofZ 0)) (float_ofZ 1) (float_ofZ 1) 4
  = Some (float_ofZ 3)
  /\ LevelSetCartesian.updateEikonal (Examples.grid3x3 (D := PrimFloat.float))
       (mkLevelSet Examples.store_one_left (float_ofZ 0)) (float_ofZ (-1)) (float_ofZ 1) 4
     = Some (float_ofZ (-1)).
Proof. split; vm_compute; reflexivity. Qed.

(** On binary64 numbers the root is rounded: with [v0 = 3/10],
    [h = 1/10] and [s = 1] the solver returns a number two units in the
    last place below the binary64 sum [v0 + h]. *)
Example updateEikonal_rounding_binary64 :
  let tenth n := PrimFloat.div (float_ofZ n) (float_ofZ 10) in
  let m := VolCartesian.mk 2 (fun _ => tenth 1) Examples.grid3x3_adjacency
             (fun _ => (0, 0, 0)) (fun i j k => i + 3 * j) in
  let store := <[ 3 := mkLSInfo (tenth 3) 0 ]> (<[ 1 := mkLSInfo (float_ofZ 0) 1 ]> ∅) in
  exists r, LevelSetCartesian.updateEikonal m (mkLevelSet store (float_ofZ 0))
              (float_ofZ 1) (float_ofZ 1) 4 = Some r
            /\ PrimFloat.ltb r (PrimFloat.add (tenth 3) (tenth 1)) = true
            /\ PrimFloat.next_up (PrimFloat.next_up r) = PrimFloat.add (tenth 3) (tenth 1).
Proof.
  intros tenth m store. eexists. split; [vm_compute; reflexivity|].
  split; vm_compute; reflexivity.
Qed.

(** Without a contributing axis the quadratic form is empty and the
    division [0/0] gives a NaN. *)
Example updateEikonal_no_axis_binary64 :
  let store := <[ 3 := mkLSInfo (float_ofZ 0) 1 ]> (<[ 1 := mkLSInfo (float_ofZ 0) 1 ]> ∅) in
  LevelSetCartesian.updateEikonal (Examples.grid3x3 (D := PrimFloat.float))
    (mkLevelSet store (float_ofZ 0)) (float_ofZ 1) (float_ofZ 1) 4
  = Some PrimFloat.nan.
Proof. vm_compute. reflexivity. Qed.

(** C1: the upwind value of an axis is meant to be the smaller of the
    contributions of the two neighbours, each read from its own record.
    At the centre cell of the 3 x 3 grid, with the left neighbour
    active at value 5 and the right neighbour active at value 3
    ([s = 1]), the wording of the specification gives the upwind value
    3, whereas the code returns 5: its right probe reads the record
    bound for the left neighbour.  The solve ([g = 1], unit spacing)
    then returns 6 where the upwind value 3 would give 4. *)
Theorem upwindValue_right_neighbour_misread :
  let store := Examples.store_two_sided (D := R) in
  LevelSetCartesian.upwindValue Examples.grid3x3 store 1%R 4 0 = Some 5%R /\
  EikonalSpec.upwindValue Examples.grid3x3 store 1%R 4 0 = Some 3%R /\
  LevelSetCartesian.updateEikonal Examples.grid3x3 (mkLevelSet store 0%R) 1%R 1%R 4
  = Some 6%R.
Proof.
  assert (Hsmall : (1 * 5 < IZR (10 ^ 17))%R)
    by (apply Rlt_trans with (IZR 6); [lra | apply IZR_lt; reflexivity]).
  assert (Hidle : forall d, 0 <= d < 2 -> d <> 0 ->
            exists r, Examples.store_two_sided (D := R)
                        !! Examples.grid3x3_adjacency 4 (2 * d) = Some r
                      /\ active r <> 0).
  { intros d Hd Hne. assert (d = 1) as -> by lia.
    exists (mkLSInfo 0%R 1). split; [reflexivity | simpl; lia]. }
  intros store. split; [|split].
  - rewrite (upwindValue_left_active Examples.grid3x3 store 1%R 4 0 (mkLSInfo 5%R 0));
      [f_equal; simpl; lra | reflexivity | vm_compute; discriminate | reflexivity | exact Hsmall].
  - unfold EikonalSpec.upwindValue.
    change (EikonalSpec.contribution store 1%R
              (VolCartesian.getAdjacency Examples.grid3x3 4 (2 * 0)))
      with (Some (1 * 5)%R).
    change (EikonalSpec.contribution store 1%R
              (VolCartesian.getAdjacency Examples.grid3x3 4 (2 * 0 + 1)))
      with (Some (1 * 3)%R).
    f_equal. rewrite std_min_Rmin. rewrite Rmin_right; lra.
  - rewrite (updateEikonal_left_neighbour Examples.grid3x3 store 1%R 4 0%R 0 (mkLSInfo 5%R 0));
      [f_equal; simpl; lra | simpl; lia | reflexivity | vm_compute; discriminate
       | reflexivity | exact Hsmall | simpl; lra | exact Hidle].
Qed.

(** The same evaluation on binary64 numbers. *)
Example upwindValue_right_neighbour_misread_binary64 :
  let store := Examples.store_two_sided (D := PrimFloat.float) in
  LevelSetCartesian.upwindValue Examples.grid3x3 store (float_ofZ 1) 4 0
  = Some (float_ofZ 5) /\
  EikonalSpec.upwindValue Examples.grid3x3 store (float_ofZ 1) 4 0
  = Some (float_ofZ 3) /\
  LevelSetCartesian.updateEikonal Examples.grid3x3 (mkLevelSet store (float_ofZ 0))
    (float_ofZ 1) (float_ofZ 1) 4
  = Some (float_ofZ 6).
Proof. repeat split; vm_compute; reflexivity. Qed.

(** ** The octree band maintainer *)

Section FoldFacts.
(** Inserting into a set the elements of a list that pass a test. *)
Lemma fold_insert_if (P : Z -> bool) (l : list Z) (acc : gset Z) (id : Z) :
  id ∈ fold_left (fun nb x => if P x then {[ x ]} ∪ nb else nb) l acc
  <-> id ∈ acc \/ (id ∈ l /\ P id = true).
Proof.
  revert acc. induction l as [|x l IH]; intros acc; simpl.
  - split; [now left | intros [Hin | [Hin _]]; [exact Hin | inversion Hin]].
  - rewrite IH. destruct (P x) eqn:Px.
    + rewrite elem_of_union, elem_of_singleton, elem_of_cons.
      split.
      * intros [[-> | Hacc] | [Hl HP]]; auto.
      * intros [Hacc | [[-> | Hl] HP]]; auto.
    + rewrite elem_of_cons. split.
      * intros [Hacc | [Hl HP]]; auto.
      * intros [Hacc | [[-> | Hl] HP]]; auto. congruence.
Qed.

Lemma fold_insert_all (l : list Z) (acc : gset Z) (id : Z) :
  id ∈ fold_left (fun nb x => {[ x ]} ∪ nb) l acc <-> id ∈ acc \/ id ∈ l.
Proof.
  revert acc. induction l as [|x l IH]; intros acc; simpl.
  - split; [now left | intros [Hin | Hin]; [exact Hin | inversion Hin]].
  - rewrite IH, elem_of_union, elem_of_singleton, elem_of_cons. tauto.
Qed.

(** A running minimum over integers, started at [start]. *)
Lemma fold_min_spec (f : Z -> Z) (P : Z -> bool) (l : list Z) (start : Z) :
  let r := fold_left (fun level x => if P x then Z.min level (f x) else level) l start in
  r <= start /\
  (forall x, x ∈ l -> P x = true -> r <= f x) /\
  (r = start \/ exists x, x ∈ l /\ P x = true /\ r = f x).
Proof.
  revert start. induction l as [|x l IH]; intros start; simpl.
  - split; [lia|]. split; [intros x Hx; inversion Hx | now left].
  - destruct (P x) eqn:Px.
    + destruct (IH (Z.min start (f x))) as (Hle & Hall & Hone).
      split; [lia|]. split.
      * intros y Hy HPy. apply elem_of_cons in Hy as [-> | Hy]; [lia | auto].
      * destruct Hone as [Hone | (y & Hy & HPy & Hone)].
        -- destruct (Z.min_spec start (f x)) as [[_ Hm] | [_ Hm]].
           ++ left. lia.
           ++ right. exists x. split; [left|]. split; [exact Px | lia].
        -- right. exists y. split; [now right | auto].
    + destruct (IH start) as (Hle & Hall & Hone).
      split; [lia|]. split.
      * intros y Hy HPy. apply elem_of_cons in Hy as [-> | Hy]; [congruence | auto].
      * destruct Hone as [Hone | (y & Hy & HPy & Hone)]; [now left|].
        right. exists y. split; [now right | auto].
Qed.

Lemma zip_with_flags {A B : Type} (f : A -> B) (l : list A) :
  zip l (map f l) = map (fun a => (a, f a)) l.
Proof. induction l as [|a l IH]; simpl; [reflexivity | now rewrite IH]. Qed.
End FoldFacts.

Section BandMaintainer.
Context {D : Type} {flag : BandFlag D}.
Variable ls : LevelSet D.

Lemma inBand_has_record (id : Z) :
  isInNarrowBand ls id = true -> is_Some (info ls !! id).
Proof.
  unfold isInNarrowBand. destruct (info ls !! id); [eauto | discriminate].
Qed.

(** The working set starts as the narrow band. *)
Lemma oldNarrowBand_spec (id : Z) :
  id ∈ LevelSetOctree.oldNarrowBand ls <-> isInNarrowBand ls id = true.
Proof.
  unfold LevelSetOctree.oldNarrowBand, PiercedVector.insert. rewrite fold_insert_if.
  rewrite elem_of_elements, elem_of_dom. split.
  - intros [Hin | [_ Hb]]; [now apply not_elem_of_empty in Hin | exact Hb].
  - intros Hb. right. split; [now apply inBand_has_record | exact Hb].
Qed.

Lemma eraseParents_spec (previous : list Z) (flag0 : bool) (nb : gset Z) :
  fst (LevelSetOctree.eraseParents ls previous flag0 nb)
  = flag0 || existsb (isInNarrowBand ls) previous
  /\ forall id, id ∈ snd (LevelSetOctree.eraseParents ls previous flag0 nb)
                <-> id ∈ nb /\ ~ (id ∈ previous /\ isInNarrowBand ls id = true).
Proof.
  unfold LevelSetOctree.eraseParents, PiercedVector.erase.
  revert flag0 nb. induction previous as [|p previous IH]; intros flag0 nb; simpl.
  - split; [now rewrite orb_false_r|]. intros id. split.
    + intros Hin. split; [exact Hin | intros [Hp _]; inversion Hp].
    + now intros [Hin _].
  - destruct (isInNarrowBand ls p) eqn:Hp.
    + destruct (IH true (nb ∖ {[ p ]})) as (Hf & Hnb). split.
      * rewrite Hf. simpl. now rewrite orb_true_r.
      * intros id. rewrite Hnb, elem_of_difference, elem_of_singleton, elem_of_cons.
        split.
        -- intros [[Hin Hne] Hno]. split; [exact Hin|].
           intros [[-> | Hprev] Hb]; [now apply Hne | now apply Hno].
        -- intros [Hin Hno]. split; [split; [exact Hin|] |].
           ++ intros ->. apply Hno. split; [now left | exact Hp].
           ++ intros [Hprev Hb]. apply Hno. split; [now right | exact Hb].
    + destruct (IH flag0 nb) as (Hf & Hnb). split.
      * rewrite Hf. reflexivity.
      * intros id. rewrite Hnb, elem_of_cons. split.
        -- intros [Hin Hno]. split; [exact Hin|].
           intros [[-> | Hprev] Hb]; [congruence | now apply Hno].
        -- intros [Hin Hno]. split; [exact Hin|].
           intros [Hprev Hb]. apply Hno. split; [now right | exact Hb].
Qed.

Lemma screenParents_gen (mapper : list Adaption.Info) (map0 : list bool) (nb : gset Z) :
  let step := fun '(map, nb) rec =>
    if Adaption.is_cell (Adaption.entity rec) then
      let '(flag, nb) := LevelSetOctree.eraseParents ls (Adaption.previous rec) false nb in
      (map ++ [flag], nb)
    else (map ++ [false], nb) in
  fst (fold_left step mapper (map0, nb))
  = map0 ++ map (LevelSetOctree.recordFlag ls) mapper
  /\ forall id, id ∈ snd (fold_left step mapper (map0, nb))
       <-> id ∈ nb /\ forall rec, rec ∈ mapper ->
                        Adaption.is_cell (Adaption.entity rec) = true ->
                        ~ (id ∈ Adaption.previous rec /\ isInNarrowBand ls id = true).
Proof.
  intros step. revert map0 nb.
  induction mapper as [|rec mapper IH]; intros map0 nb; simpl.
  - split; [now rewrite app_nil_r|]. intros id. split.
    + intros Hin. split; [exact Hin | intros rec Hrec; inversion Hrec].
    + now intros [Hin _].
  - unfold LevelSetOctree.recordFlag at 1.
    destruct (Adaption.is_cell (Adaption.entity rec)) eqn:Hcell; simpl.
    + destruct (eraseParents_spec (Adaption.previous rec) false nb) as (Hf & Hnb).
      destruct (LevelSetOctree.eraseParents ls (Adaption.previous rec) false nb)
        as [f nb'] eqn:Herase.
      simpl in Hf, Hnb. subst f.
      destruct (IH (map0 ++ [existsb (isInNarrowBand ls) (Adaption.previous rec)]) nb')
        as (Hmap & Hset).
      split.
      * rewrite Hmap, <- app_assoc. reflexivity.
      * intros id. rewrite Hset, Hnb. split.
        -- intros [[Hin Hno] Hrest]. split; [exact Hin|].
           intros rec' Hrec' Hcell'. apply elem_of_cons in Hrec' as [-> | Hrec']; auto.
        -- intros [Hin Hall]. split; [split; [exact Hin|] |].
           ++ apply (Hall rec); [left | exact Hcell].
           ++ intros rec' Hrec'. apply Hall. now right.
    + destruct (IH (map0 ++ [false]) nb) as (Hmap & Hset). split.
      * rewrite Hmap, <- app_assoc. reflexivity.
      * intros id. rewrite Hset. split.
        -- intros [Hin Hrest]. split; [exact Hin|].
           intros rec' Hrec' Hcell'.
           apply elem_of_cons in Hrec' as [-> | Hrec']; [congruence | auto].
        -- intros [Hin Hall]. split; [exact Hin|].
           intros rec' Hrec'. apply Hall. now right.
Qed.

Lemma insertChildren_spec (mapper : list Adaption.Info) (nb : gset Z) (id : Z) :
  id ∈ LevelSetOctree.insertChildren mapper (map (LevelSetOctree.recordFlag ls) mapper) nb
  <-> id ∈ nb \/ exists rec, rec ∈ mapper /\ LevelSetOctree.recordFlag ls rec = true
                             /\ id ∈ Adaption.current rec.
Proof.
  unfold LevelSetOctree.insertChildren, PiercedVector.insert. rewrite zip_with_flags.
  revert nb. induction mapper as [|rec mapper IH]; intros nb; simpl.
  - split; [now left | intros [Hin | (rec & Hrec & _)]; [exact Hin | inversion Hrec]].
  - rewrite IH. clear IH.
    assert (Hhead :
      id ∈ (if Adaption.is_cell (Adaption.entity rec) then
              if LevelSetOctree.recordFlag ls rec then
                fold_left (fun nb child => PiercedVector.insert child nb)
                     (Adaption.current rec) nb
              else nb
            else nb)
      <-> id ∈ nb \/ (LevelSetOctree.recordFlag ls rec = true /\ id ∈ Adaption.current rec)).
    { unfold LevelSetOctree.recordFlag.
      destruct (Adaption.is_cell (Adaption.entity rec)); simpl.
      - destruct (existsb (isInNarrowBand ls) (Adaption.previous rec)).
        + rewrite fold_insert_all. tauto.
        + split; [now left | intros [Hin | [Hf _]]; [exact Hin | discriminate]].
      - split; [now left | intros [Hin | [Hf _]]; [exact Hin | discriminate]]. }
    rewrite Hhead. split.
    + intros [[Hin | [Hf Hc]] | (rec' & Hrec' & Hf & Hc)].
      * now left.
      * right. exists rec. split; [left | auto].
      * right. exists rec'. split; [now right | auto].
    + intros [Hin | (rec' & Hrec' & Hf & Hc)]; [now left; left|].
      apply elem_of_cons in Hrec' as [-> | Hrec'].
      * left. right. auto.
      * right. exists rec'. auto.
Qed.

(** The working set after the three loops. *)
Lemma newNarrowBand_spec (mapper : list Adaption.Info) (id : Z) :
  id ∈ LevelSetOctree.newNarrowBand ls mapper
  <-> (exists rec, rec ∈ mapper /\ LevelSetOctree.recordFlag ls rec = true
                   /\ id ∈ Adaption.current rec)
      \/ (isInNarrowBand ls id = true
          /\ forall rec, rec ∈ mapper ->
                         Adaption.is_cell (Adaption.entity rec) = true ->
                         id ∉ Adaption.previous rec).
Proof.
  unfold LevelSetOctree.newNarrowBand, LevelSetOctree.screenParents.
  destruct (screenParents_gen mapper [] (LevelSetOctree.oldNarrowBand ls)) as (Hmap & Hset).
  cbv zeta in Hmap, Hset.
  match goal with
  | |- context [let '(_, _) := ?e in _] => destruct e as [flags nb] eqn:Hscreen
  end.
  simpl in Hmap, Hset. subst flags.
  rewrite insertChildren_spec, Hset, oldNarrowBand_spec. split.
  - intros [[Hb Hno] | Hchild]; [right | now left].
    split; [exact Hb|]. intros rec Hrec Hcell Hprev. apply (Hno rec); auto.
  - intros [Hchild | [Hb Hno]]; [now right | left].
    split; [exact Hb|]. intros rec Hrec Hcell [Hprev _]. apply (Hno rec); auto.
Qed.
End BandMaintainer.

Lemma to_uint8_small (z : Z) : 0 <= z < 256 -> to_uint8 z = z.
Proof. intros Hz. unfold to_uint8. apply Z.mod_small. exact Hz. Qed.

Section BandMaintainerClaims.
Context {D : Type} {num : Real64 D} {flag : BandFlag D}.
Variable m_omesh : VolOctree.t D.

Lemma recordFlag_true (ls : LevelSet D) (rec : Adaption.Info) :
  LevelSetOctree.recordFlag ls rec = true
  <-> Adaption.entity rec = Adaption.ENTITY_CELL
      /\ exists p, p ∈ Adaption.previous rec /\ isInNarrowBand ls p = true.
Proof.
  unfold LevelSetOctree.recordFlag. rewrite andb_true_iff, existsb_exists.
  split.
  - intros [Hcell (p & Hp & Hb)]. split.
    + destruct (Adaption.entity rec); simpl in Hcell; congruence.
    + exists p. split; [now apply list_elem_of_In | exact Hb].
  - intros [Hcell (p & Hp & Hb)]. split.
    + now rewrite Hcell.
    + exists p. split; [now apply list_elem_of_In | exact Hb].
Qed.

Lemma is_cell_true (rec : Adaption.Info) :
  Adaption.is_cell (Adaption.entity rec) = true
  <-> Adaption.entity rec = Adaption.ENTITY_CELL.
Proof. destruct (Adaption.entity rec); simpl; split; congruence. Qed.

(** Membership in the working set after the three loops, in the
    words of the records. *)
Lemma newNarrowBand_members (ls : LevelSet D) (mapper : list Adaption.Info) (id : Z) :
  id ∈ LevelSetOctree.newNarrowBand ls mapper
  <-> (exists rec, rec ∈ mapper
                   /\ Adaption.entity rec = Adaption.ENTITY_CELL
                   /\ (exists p, p ∈ Adaption.previous rec /\ isInNarrowBand ls p = true)
                   /\ id ∈ Adaption.current rec)
      \/ (id ∈ LevelSetOctree.oldNarrowBand ls
          /\ forall rec, rec ∈ mapper ->
                         Adaption.entity rec = Adaption.ENTITY_CELL ->
                         id ∉ Adaption.previous rec).
Proof.
  rewrite newNarrowBand_spec, oldNarrowBand_spec. split.
  - intros [(rec & Hrec & Hf & Hc) | [Hb Hno]].
    + left. exists rec. apply recordFlag_true in Hf as [Hcell Hp]. auto.
    + right. split; [exact Hb|]. intros rec Hrec Hcell. apply Hno; [exact Hrec|].
      now apply is_cell_true.
  - intros [(rec & Hrec & Hcell & Hp & Hc) | [Hb Hno]].
    + left. exists rec. split; [exact Hrec|]. split; [|exact Hc].
      apply recordFlag_true. auto.
    + right. split; [exact Hb|]. intros rec Hrec Hcell. apply Hno; [exact Hrec|].
      now apply is_cell_true.
Qed.

(** C2: the working set [nb] of the octree [updateSizeNarrowBand]
    starts as exactly the identifiers in the narrow band; after the
    loops it holds the children of every cell record that has a
    parent in that band, and the members of the old band that are
    not a parent of a cell record (the parents in the band are
    erased).  A record that is not a cell record, or none of whose
    parents is in the band, can be dropped from the batch without
    changing [nb].  A merge whose parents are all in the band puts
    the merged cell in [nb]; a merge none of whose parents is in the
    band leaves a merged cell that was out of the band out of [nb]. *)
Theorem band_maintainer_working_set (ls : LevelSet D) (mapper : list Adaption.Info) :
  (forall id, id ∈ LevelSetOctree.oldNarrowBand ls <-> isInNarrowBand ls id = true)
  /\ (forall id,
        id ∈ LevelSetOctree.newNarrowBand ls mapper
        <-> (exists rec, rec ∈ mapper
               /\ Adaption.entity rec = Adaption.ENTITY_CELL
               /\ (exists p, p ∈ Adaption.previous rec /\ isInNarrowBand ls p = true)
               /\ id ∈ Adaption.current rec)
            \/ (id ∈ LevelSetOctree.oldNarrowBand ls
                /\ forall rec, rec ∈ mapper ->
                               Adaption.entity rec = Adaption.ENTITY_CELL ->
                               id ∉ Adaption.previous rec))
  /\ (forall rec pre post,
        Adaption.entity rec <> Adaption.ENTITY_CELL
        \/ (forall p, p ∈ Adaption.previous rec -> isInNarrowBand ls p = false) ->
        LevelSetOctree.newNarrowBand ls (pre ++ rec :: post)
        = LevelSetOctree.newNarrowBand ls (pre ++ post))
  /\ (forall rec merged,
        Adaption.entity rec = Adaption.ENTITY_CELL ->
        Adaption.previous rec <> [] ->
        (forall p, p ∈ Adaption.previous rec -> isInNarrowBand ls p = true) ->
        merged ∈ Adaption.current rec ->
        merged ∈ LevelSetOctree.newNarrowBand ls [rec])
  /\ (forall rec merged,
        Adaption.entity rec = Adaption.ENTITY_CELL ->
        (forall p, p ∈ Adaption.previous rec -> isInNarrowBand ls p = false) ->
        isInNarrowBand ls merged = false ->
        merged ∉ LevelSetOctree.newNarrowBand ls [rec]).
Proof.
  split; [apply oldNarrowBand_spec|].
  split; [apply newNarrowBand_members|].
  split; [|split].
  - intros rec pre post Hidle. apply set_eq. intros id.
    rewrite !newNarrowBand_members. split.
    + intros [(rec' & Hrec' & Hcell & (p & Hp & Hb) & Hc) | [Hold Hno]].
      * left. exists rec'. split; [|eauto].
        apply elem_of_app in Hrec' as [Hpre | Hrest];
          [apply elem_of_app; now left|].
        apply elem_of_cons in Hrest as [-> | Hpost];
          [|apply elem_of_app; now right].
        destruct Hidle as [Hne | Hnone]; [contradiction|].
        rewrite (Hnone p Hp) in Hb. discriminate.
      * right. split; [exact Hold|]. intros rec' Hrec'. apply Hno.
        apply elem_of_app in Hrec' as [Hpre | Hpost]; apply elem_of_app;
          [now left | right; now right].
    + intros [(rec' & Hrec' & Hrest) | [Hold Hno]].
      * left. exists rec'. split; [|exact Hrest].
        apply elem_of_app in Hrec' as [Hpre | Hpost]; apply elem_of_app;
          [now left | right; now right].
      * right. split; [exact Hold|]. intros rec' Hrec' Hcell Hprev.
        apply elem_of_app in Hrec' as [Hpre | Hrest];
          [apply (Hno rec'); auto; apply elem_of_app; now left|].
        apply elem_of_cons in Hrest as [-> | Hpost];
          [|apply (Hno rec'); auto; apply elem_of_app; now right].
        destruct Hidle as [Hne | Hnone]; [contradiction|].
        apply oldNarrowBand_spec in Hold. rewrite (Hnone id Hprev) in Hold. discriminate.
  - intros rec merged Hcell Hne Hall Hm. apply newNarrowBand_members. left.
    exists rec. split; [left|]. split; [exact Hcell|]. split; [|exact Hm].
    destruct (Adaption.previous rec) as [|p ps]; [contradiction|].
    exists p. split; [left | apply Hall; left].
  - intros rec merged Hcell Hnone Hout Hin.
    apply newNarrowBand_members in Hin as [(rec' & Hrec' & _ & (p & Hp & Hb) & _) | [Hold _]].
    + apply list_elem_of_singleton in Hrec' as ->. rewrite (Hnone p Hp) in Hb. discriminate.
    + apply oldNarrowBand_spec in Hold. congruence.
Qed.

(** The level found by the last loop: at most the start level 100,
    below the level of every member, and attained unless it is 100. *)
Lemma coarsestLevel_spec (nb : gset Z) :
  let L := LevelSetOctree.coarsestLevel m_omesh nb in
  L <= 100
  /\ (forall id, id ∈ nb -> L <= VolOctree.getCellLevel m_omesh id)
  /\ (L = 100 \/ exists id, id ∈ nb /\ L = VolOctree.getCellLevel m_omesh id).
Proof.
  intros L.
  destruct (fold_min_spec (VolOctree.getCellLevel m_omesh) (fun _ => true)
              (elements nb) 100) as (Hle & Hall & Hone).
  change (fold_left
            (fun level x => if (fun _ : Z => true) x
                            then Z.min level (VolOctree.getCellLevel m_omesh x)
                            else level) (elements nb) 100)
    with L in Hle, Hall, Hone.
  split; [exact Hle|]. split.
  - intros id Hid. apply Hall; [now apply elem_of_elements | reflexivity].
  - destruct Hone as [Hone | (id & Hid & _ & Hone)]; [now left|].
    right. exists id. split; [now apply elem_of_elements | exact Hone].
Qed.

(** The radius of a cell: the radius of its level. *)
Lemma radius_of_band_level (nb : gset Z) (id0 : Z) :
  id0 ∈ nb ->
  (forall id, id ∈ nb -> 0 <= VolOctree.getCellLevel m_omesh id <= 100) ->
  exists c, c ∈ nb
    /\ (forall id, id ∈ nb ->
          VolOctree.getCellLevel m_omesh c <= VolOctree.getCellLevel m_omesh id)
    /\ LevelSetOctree.computeRSearchFromLevel m_omesh (LevelSetOctree.coarsestLevel m_omesh nb)
       = (VolOctree.levelToSize m_omesh (VolOctree.getCellLevel m_omesh c)
          * d_sqrt (d_ofZ 11) / d_ofZ 2)%D.
Proof.
  intros Hid0 Hrange.
  destruct (coarsestLevel_spec nb) as (Hle & Hall & Hone).
  set (L := LevelSetOctree.coarsestLevel m_omesh nb) in *.
  assert (Hex : exists c, c ∈ nb /\ VolOctree.getCellLevel m_omesh c = L).
  { destruct Hone as [Hone | (id & Hid & Hone)].
    - exists id0. split; [exact Hid0|].
      specialize (Hall id0 Hid0). specialize (Hrange id0 Hid0). lia.
    - exists id. split; [exact Hid | now symmetry]. }
  destruct Hex as (c & Hc & Hlev). exists c. split; [exact Hc|]. split.
  - intros id Hid. rewrite Hlev. now apply Hall.
  - unfold LevelSetOctree.computeRSearchFromLevel. specialize (Hrange c Hc).
    rewrite to_uint8_small by lia. rewrite Hlev. reflexivity.
Qed.

(** With no record the three loops leave the old band in [nb]. *)
Lemma newNarrowBand_no_record (ls : LevelSet D) (id : Z) :
  id ∈ LevelSetOctree.newNarrowBand ls [] <-> isInNarrowBand ls id = true.
Proof.
  rewrite newNarrowBand_spec. split.
  - intros [(rec & Hrec & _) | [Hb _]]; [inversion Hrec | exact Hb].
  - intros Hb. right. split; [exact Hb|]. intros rec Hrec. inversion Hrec.
Qed.

(** C8 (as amended): on a level set whose narrow band is not empty and
    holds cells of levels between 0 and 100, an update with a batch of
    zero records leaves in the working set exactly the cells of the
    band, and returns and stores the radius
    [levelToSize(L) * sqrt(11) / 2] of the least level [L] among the
    cells of the band, whatever the radius was before.  When the
    visitor leaves the level set as it is, the update leaves the level
    set (store, radius, and with them the band) unchanged exactly when
    the radius already had that value. *)
Theorem update_without_records (visitor : LSObject.t D) (ls : LevelSet D) (id0 : Z) :
  isInNarrowBand ls id0 = true ->
  (forall id, isInNarrowBand ls id = true ->
              0 <= VolOctree.getCellLevel m_omesh id <= 100) ->
  let ls' := snd (LevelSetOctree.update m_omesh visitor [] ls) in
  (forall id, id ∈ LevelSetOctree.newNarrowBand ls [] <-> isInNarrowBand ls id = true)
  /\ exists c,
       let radius := (VolOctree.levelToSize m_omesh (VolOctree.getCellLevel m_omesh c)
                      * d_sqrt (d_ofZ 11) / d_ofZ 2)%D in
       isInNarrowBand ls c = true
       /\ (forall id, isInNarrowBand ls id = true ->
             VolOctree.getCellLevel m_omesh c <= VolOctree.getCellLevel m_omesh id)
       /\ LevelSetOctree.updateSizeNarrowBand m_omesh [] ls = radius
       /\ RSearch ls' = radius
       /\ (LSObject.updateLSInNarrowBand visitor ls [] radius = ls ->
           (ls' = ls <-> RSearch ls = radius)).
Proof.
  intros Hid0 Hrange ls'. split; [apply newNarrowBand_no_record|].
  destruct (radius_of_band_level (LevelSetOctree.newNarrowBand ls []) id0)
    as (c & Hc & Hmin & Hrad).
  - now apply newNarrowBand_no_record.
  - intros id Hid. apply Hrange. now apply newNarrowBand_no_record.
  - exists c. cbv zeta.
    assert (Hnew : LevelSetOctree.updateSizeNarrowBand m_omesh [] ls
                   = (VolOctree.levelToSize m_omesh (VolOctree.getCellLevel m_omesh c)
                      * d_sqrt (d_ofZ 11) / d_ofZ 2)%D) by exact Hrad.
    split; [now apply newNarrowBand_no_record|]. split.
    { intros id Hid. apply Hmin. now apply newNarrowBand_no_record. }
    split; [exact Hnew|]. split.
    { unfold ls', LevelSetOctree.update. simpl. exact Hnew. }
    intros Hidle. unfold ls', LevelSetOctree.update. simpl.
    rewrite Hnew, Hidle. destruct ls as [st r]. unfold set_RSearch. simpl. split.
    + intros Heq. now inversion Heq.
    + intros ->. reflexivity.
Qed.

(** Reading statements leave the member data as they are: a loop whose
    body only reads is the fold of what the body returns. *)
Lemma foldM_reads {A B : Type} (body : B -> A -> Member.M D B)
      (step : LevelSet D -> B -> A -> B) (l : list A) (b : B) (ls : LevelSet D) :
  (forall b a, body b a ls = (step ls b a, ls)) ->
  Member.foldM body l b ls = (fold_left (step ls) l b, ls).
Proof.
  intros Hbody. revert b. induction l as [|a l IH]; intros b; simpl.
  - reflexivity.
  - unfold Member.bind. rewrite Hbody. apply IH.
Qed.

Lemma oldNarrowBand_reads (ls : LevelSet D) :
  OctreeProgram.oldNarrowBand ls = (LevelSetOctree.oldNarrowBand ls, ls).
Proof.
  unfold OctreeProgram.oldNarrowBand, LevelSetOctree.oldNarrowBand, Member.bind,
    OctreeProgram.storeIds, Member.read.
  apply (foldM_reads _ (fun ls nb id =>
           if isInNarrowBand ls id then PiercedVector.insert id nb else nb)).
  intros nb id. reflexivity.
Qed.

Lemma eraseParents_reads (ls : LevelSet D) (previous : list Z) (f : bool) (nb : gset Z) :
  OctreeProgram.eraseParents previous f nb ls
  = (LevelSetOctree.eraseParents ls previous f nb, ls).
Proof.
  unfold OctreeProgram.eraseParents, LevelSetOctree.eraseParents.
  apply (foldM_reads _ (fun ls '(f, nb) parent =>
           if isInNarrowBand ls parent then (true, PiercedVector.erase parent nb)
           else (f, nb))).
  intros [f' nb'] parent. reflexivity.
Qed.

Lemma screenParents_reads (ls : LevelSet D) (mapper : list Adaption.Info) (nb : gset Z) :
  OctreeProgram.screenParents mapper nb ls
  = (LevelSetOctree.screenParents ls mapper nb, ls).
Proof.
  unfold OctreeProgram.screenParents, LevelSetOctree.screenParents.
  apply (foldM_reads _ (fun ls '(map, nb) rec =>
           if Adaption.is_cell (Adaption.entity rec) then
             let '(f, nb) := LevelSetOctree.eraseParents ls (Adaption.previous rec) false nb in
             (map ++ [f], nb)
           else (map ++ [false], nb))).
  intros [map nb'] rec.
  destruct (Adaption.is_cell (Adaption.entity rec)); [|reflexivity].
  unfold Member.bind. rewrite eraseParents_reads.
  destruct (LevelSetOctree.eraseParents ls (Adaption.previous rec) false nb'). reflexivity.
Qed.

Lemma updateSizeNarrowBand_reads (ls : LevelSet D) (mapper : list Adaption.Info) :
  OctreeProgram.updateSizeNarrowBand m_omesh mapper ls
  = (LevelSetOctree.updateSizeNarrowBand m_omesh mapper ls, ls).
Proof.
  unfold OctreeProgram.updateSizeNarrowBand, Member.bind.
  rewrite oldNarrowBand_reads, screenParents_reads.
  unfold LevelSetOctree.updateSizeNarrowBand, LevelSetOctree.newNarrowBand.
  destruct (LevelSetOctree.screenParents ls mapper (LevelSetOctree.oldNarrowBand ls)).
  reflexivity.
Qed.

(** The working set is a function of the band membership. *)
Lemma newNarrowBand_reads_membership (ls ls2 : LevelSet D) (mapper : list Adaption.Info) :
  (forall id, isInNarrowBand ls2 id = isInNarrowBand ls id) ->
  LevelSetOctree.newNarrowBand ls2 mapper = LevelSetOctree.newNarrowBand ls mapper.
Proof.
  intros Hsame. apply set_eq. intros id. rewrite !newNarrowBand_members.
  rewrite !oldNarrowBand_spec, Hsame.
  split; (intros [(rec & Hrec & Hcell & (p & Hp & Hb) & Hc) | Hold]; [left | now right]);
    exists rec; (split; [exact Hrec|]); (split; [exact Hcell|]); (split; [|exact Hc]);
    exists p; (split; [exact Hp|]); [rewrite <- Hsame | rewrite Hsame]; exact Hb.
Qed.

(** C10: run statement by statement on the member data, the octree
    [updateSizeNarrowBand] returns the new radius and leaves the store
    and the radius as they were; what it reads of the member data is
    the band membership (two level sets with the same membership give
    the same radius).  [update] therefore calls the visitor on the
    level set as it was before the call, the old radius inside and the
    new one as argument, and writes the new radius into what the
    visitor leaves: the radius after [update] is the new radius
    whatever the visitor stored, and the store is the visitor's. *)
Theorem update_writes_radius_last
        (visitor : LSObject.t D) (mapper : list Adaption.Info) (ls : LevelSet D) :
  let newR := LevelSetOctree.updateSizeNarrowBand m_omesh mapper ls in
  let seen := LSObject.updateLSInNarrowBand visitor ls mapper newR in
  OctreeProgram.updateSizeNarrowBand m_omesh mapper ls = (newR, ls)
  /\ (forall ls2, (forall id, isInNarrowBand ls2 id = isInNarrowBand ls id) ->
        OctreeProgram.updateSizeNarrowBand m_omesh mapper ls2 = (newR, ls2))
  /\ OctreeProgram.update m_omesh visitor mapper ls
     = ([("old Rsearch"%string, RSearch ls); ("new Rsearch"%string, newR)],
        mkLevelSet (info seen) newR)
  /\ OctreeProgram.update m_omesh visitor mapper ls
     = LevelSetOctree.update m_omesh visitor mapper ls.
Proof.
  intros newR seen.
  assert (Hupd : OctreeProgram.update m_omesh visitor mapper ls
                 = LevelSetOctree.update m_omesh visitor mapper ls).
  { unfold OctreeProgram.update, Member.bind. rewrite updateSizeNarrowBand_reads.
    reflexivity. }
  split; [apply updateSizeNarrowBand_reads|]. split.
  - intros ls2 Hsame. rewrite updateSizeNarrowBand_reads. f_equal.
    unfold newR, LevelSetOctree.updateSizeNarrowBand.
    rewrite (newNarrowBand_reads_membership ls ls2 mapper Hsame). reflexivity.
  - split; [rewrite Hupd; reflexivity | exact Hupd].
Qed.
End BandMaintainerClaims.

(** ** The octree band sizer *)

Section FoldOr.
(** A flag that is only ever raised: it ends raised when it starts
    raised or one of the steps raises it. *)
Lemma fold_or_spec {A : Type} (F : A -> bool -> bool) (P : A -> Prop)
      (l : list A) (b0 : bool) :
  (forall x b, F x b = true <-> b = true \/ P x) ->
  fold_left (fun b x => F x b) l b0 = true <-> b0 = true \/ exists x, x ∈ l /\ P x.
Proof.
  intros HF. revert b0. induction l as [|x l IH]; intros b0; simpl.
  - split; [now left | intros [Hb | (x & Hx & _)]; [exact Hb | inversion Hx]].
  - rewrite IH, HF. split.
    + intros [[Hb | HP] | (y & Hy & HP)].
      * now left.
      * right. exists x. split; [left | exact HP].
      * right. exists y. split; [now right | exact HP].
    + intros [Hb | (y & Hy & HP)]; [now left; left|].
      apply elem_of_cons in Hy as [-> | Hy].
      * left. now right.
      * right. exists y. auto.
Qed.
End FoldOr.

Section OctreeSizer.
Context {D : Type} {num : Real64 D} {flag : BandFlag D}.
Variable intersectBoxBox :
  array3 D -> array3 D -> array3 D -> array3 D -> option (array3 D * array3 D).
Variable newVolCartesian :
  Z -> Z -> array3 D -> array3 D -> array3 Z -> VolCartesian.t D.
Variable m_omesh : VolOctree.t D.

Lemma sampleProxy_spec (cmesh : VolCartesian.t D) (auxLS : LevelSet D)
      (i0 i1 : array3 Z) :
  LevelSetOctree.sampleProxy cmesh auxLS i0 i1 = true
  <-> exists i j k,
        nth3 i0 0 <= i < nth3 i1 0 /\
        nth3 i0 1 <= j < nth3 i1 1 /\
        nth3 i0 2 <= k < nth3 i1 2 /\
        isInNarrowBand auxLS (VolCartesian.getCellLinearId cmesh i j k) = true.
Proof.
  unfold LevelSetOctree.sampleProxy.
  rewrite (fold_or_spec
             (fun _k b =>
                fold_left
                  (fun flagged _j =>
                     fold_left
                       (fun flagged _i =>
                          flagged || isInNarrowBand auxLS
                                       (VolCartesian.getCellLinearId cmesh _i _j _k))
                       (seqZ (nth3 i0 0) (nth3 i1 0 - nth3 i0 0)) flagged)
                  (seqZ (nth3 i0 1) (nth3 i1 1 - nth3 i0 1)) b)
             (fun k => exists j, j ∈ seqZ (nth3 i0 1) (nth3 i1 1 - nth3 i0 1) /\
                exists i, i ∈ seqZ (nth3 i0 0) (nth3 i1 0 - nth3 i0 0) /\
                  isInNarrowBand auxLS (VolCartesian.getCellLinearId cmesh i j k) = true)).
  - split.
    + intros [Hf | (k & Hk & j & Hj & i & Hi & Hb)]; [discriminate|].
      apply elem_of_seqZ in Hk, Hj, Hi. exists i, j, k. repeat split; try lia. exact Hb.
    + intros (i & j & k & Hi & Hj & Hk & Hb). right.
      exists k. split; [apply elem_of_seqZ; lia|].
      exists j. split; [apply elem_of_seqZ; lia|].
      exists i. split; [apply elem_of_seqZ; lia | exact Hb].
  - intros k b.
    apply (fold_or_spec
             (fun _j b =>
                fold_left
                  (fun flagged _i =>
                     flagged || isInNarrowBand auxLS
                                  (VolCartesian.getCellLinearId cmesh _i _j k))
                  (seqZ (nth3 i0 0) (nth3 i1 0 - nth3 i0 0)) b)
             (fun j => exists i, i ∈ seqZ (nth3 i0 0) (nth3 i1 0 - nth3 i0 0) /\
                isInNarrowBand auxLS (VolCartesian.getCellLinearId cmesh i j k) = true)).
    intros j b'.
    apply (fold_or_spec
             (fun _i b =>
                b || isInNarrowBand auxLS (VolCartesian.getCellLinearId cmesh _i j k))
             (fun i =>
                isInNarrowBand auxLS (VolCartesian.getCellLinearId cmesh i j k) = true)).
    intros i b''. apply orb_true_iff.
Qed.

(** C6 (as amended): a cell of the octree is flagged exactly when a
    lattice cell [(i,j,k)] of the auxiliary grid with
    [i0[a] <= index < i1[a]] on every axis is in the auxiliary narrow
    band, [i0] and [i1] being the nearest-vertex indices of the
    corner vertices [conn[0]] and [conn[2^dim - 1]]; the upper index
    [i1[a]] itself is not sampled. *)
Theorem cellFlagged_half_open_range
        (cmesh : VolCartesian.t D) (auxLS : LevelSet D) (cell : Z) :
  let corner j := VolOctree.getVertexCoords m_omesh (VolOctree.getConnect m_omesh cell j) in
  let i0 := VolCartesian.locateClosestVertexCartesian cmesh (corner 0) in
  let i1 := VolCartesian.locateClosestVertexCartesian cmesh
              (corner (to_uint8 (2 ^ VolOctree.getDimension m_omesh - 1))) in
  LevelSetOctree.cellFlagged m_omesh cmesh auxLS cell = true
  <-> exists i j k,
        nth3 i0 0 <= i < nth3 i1 0 /\
        nth3 i0 1 <= j < nth3 i1 1 /\
        nth3 i0 2 <= k < nth3 i1 2 /\
        isInNarrowBand auxLS (VolCartesian.getCellLinearId cmesh i j k) = true.
Proof. intros corner i0 i1. apply sampleProxy_spec. Qed.

(** C4: when the bounding boxes of the mesh and of the surface do not
    intersect, [computeSizeNarrowBand] returns the level set as it
    received it: [RSearch] is not written and the store is not
    touched; on an empty store every membership query is false. *)
Theorem computeSizeNarrowBand_disjoint_boxes
        (visitor : LSObject.t D) (ls : LevelSet D) :
  intersectBoxBox (fst (VolOctree.getBoundingBox m_omesh))
                  (snd (VolOctree.getBoundingBox m_omesh))
                  (fst (LSObject.getBoundingBox visitor))
                  (snd (LSObject.getBoundingBox visitor)) = None ->
  let ls' := LevelSetOctree.computeSizeNarrowBand
               intersectBoxBox newVolCartesian m_omesh visitor ls in
  ls' = ls
  /\ RSearch ls' = RSearch ls
  /\ info ls' = info ls
  /\ (info ls = ∅ -> forall id, isInNarrowBand ls' id = false).
Proof.
  intros Hnone ls'.
  assert (Heq : ls' = ls).
  { subst ls'. unfold LevelSetOctree.computeSizeNarrowBand.
    destruct (VolOctree.getBoundingBox m_omesh) as [octrBB0 octrBB1].
    destruct (LSObject.getBoundingBox visitor) as [triBB0 triBB1].
    simpl in Hnone. rewrite Hnone. reflexivity. }
  rewrite Heq. repeat split.
  intros Hempty id. unfold isInNarrowBand. rewrite Hempty, lookup_empty. reflexivity.
Qed.


(** The level found by the loop over the cells is the least level of
    a flagged cell, as soon as there is one and the levels of the
    flagged cells lie in [0, 100]. *)
Lemma coarsestFlagged_is_min (flagged : Z -> bool) (cells : list Z) (c0 : Z) :
  c0 ∈ cells -> flagged c0 = true ->
  (forall c, c ∈ cells -> flagged c = true ->
             0 <= VolOctree.getCellLevel m_omesh c <= 100) ->
  let L := LevelSetOctree.coarsestFlagged m_omesh flagged cells in
  (exists c, c ∈ cells /\ flagged c = true /\ VolOctree.getCellLevel m_omesh c = L)
  /\ (forall c, c ∈ cells -> flagged c = true -> L <= VolOctree.getCellLevel m_omesh c)
  /\ 0 <= L <= 100.
Proof.
  intros Hc0 Hf0 Hrange L.
  destruct (fold_min_spec (VolOctree.getCellLevel m_omesh) flagged cells 100)
    as (Hle & Hall & Hone).
  fold (LevelSetOctree.coarsestFlagged m_omesh flagged cells) in Hle, Hall, Hone.
  fold L in Hle, Hall, Hone.
  assert (Hex : exists c, c ∈ cells /\ flagged c = true
                          /\ VolOctree.getCellLevel m_omesh c = L).
  { destruct Hone as [Hone | (c & Hc & Hfc & Hone)].
    - exists c0. split; [exact Hc0|]. split; [exact Hf0|].
      specialize (Hall c0 Hc0 Hf0). specialize (Hrange c0 Hc0 Hf0). lia.
    - exists c. auto. }
  split; [exact Hex|]. split; [exact Hall|].
  destruct Hex as (c & Hc & Hfc & Hlev). specialize (Hrange c Hc Hfc). lia.
Qed.

(** C5: [computeRSearchFromLevel] is [levelToSize(level) * sqrt(11) / 2]
    for every level a [uint8_t] holds, and when the boxes intersect
    and some cell is flagged (octree levels between 0 and 100) the
    radius stored by [computeSizeNarrowBand] is that formula at the
    least level [L] among the flagged cells. *)
Theorem octree_radius_from_coarsest_flagged
        (visitor : LSObject.t D) (ls : LevelSet D) (C0 C1 : array3 D) (c0 : Z) :
  intersectBoxBox (fst (VolOctree.getBoundingBox m_omesh))
                  (snd (VolOctree.getBoundingBox m_omesh))
                  (fst (LSObject.getBoundingBox visitor))
                  (snd (LSObject.getBoundingBox visitor)) = Some (C0, C1) ->
  let aux := LevelSetOctree.auxiliary newVolCartesian m_omesh visitor C0 C1 in
  let flagged := LevelSetOctree.cellFlagged m_omesh (fst aux) (snd aux) in
  c0 ∈ VolOctree.getCells m_omesh ->
  flagged c0 = true ->
  (forall c, c ∈ VolOctree.getCells m_omesh -> flagged c = true ->
             0 <= VolOctree.getCellLevel m_omesh c <= 100) ->
  (forall level, 0 <= level < 256 ->
     LevelSetOctree.computeRSearchFromLevel m_omesh level
     = (VolOctree.levelToSize m_omesh level * d_sqrt (d_ofZ 11) / d_ofZ 2)%D)
  /\ exists L,
       (exists c, c ∈ VolOctree.getCells m_omesh /\ flagged c = true
                  /\ VolOctree.getCellLevel m_omesh c = L)
       /\ (forall c, c ∈ VolOctree.getCells m_omesh -> flagged c = true ->
                     L <= VolOctree.getCellLevel m_omesh c)
       /\ RSearch (LevelSetOctree.computeSizeNarrowBand
                     intersectBoxBox newVolCartesian m_omesh visitor ls)
          = (VolOctree.levelToSize m_omesh L * d_sqrt (d_ofZ 11) / d_ofZ 2)%D.
Proof.
  intros Hsome aux flagged Hc0 Hf0 Hrange.
  assert (Hformula : forall level, 0 <= level < 256 ->
            LevelSetOctree.computeRSearchFromLevel m_omesh level
            = (VolOctree.levelToSize m_omesh level * d_sqrt (d_ofZ 11) / d_ofZ 2)%D).
  { intros level Hlevel. unfold LevelSetOctree.computeRSearchFromLevel.
    now rewrite to_uint8_small. }
  split; [exact Hformula|].
  destruct (coarsestFlagged_is_min flagged (VolOctree.getCells m_omesh) c0 Hc0 Hf0 Hrange)
    as (Hex & Hmin & HL).
  exists (LevelSetOctree.coarsestFlagged m_omesh flagged (VolOctree.getCells m_omesh)).
  split; [exact Hex|]. split; [exact Hmin|].
  rewrite <- Hformula by lia.
  unfold LevelSetOctree.computeSizeNarrowBand.
  destruct (VolOctree.getBoundingBox m_omesh) as [octrBB0 octrBB1].
  destruct (LSObject.getBoundingBox visitor) as [triBB0 triBB1].
  simpl in Hsome. rewrite Hsome.
  subst flagged aux.
  destruct (LevelSetOctree.auxiliary newVolCartesian m_omesh visitor C0 C1)
    as [cmesh auxLS].
  reflexivity.
Qed.
End OctreeSizer.

Section OctreeMonotone.
Variable m_omesh : VolOctree.t R.

(** Cells get smaller as the level grows. *)
Hypothesis levelToSize_antitone :
  forall l1 l2, 0 <= l1 <= l2 -> l2 <= 255 ->
    (VolOctree.levelToSize m_omesh l2 <= VolOctree.levelToSize m_omesh l1)%R.

(** Levels are not negative. *)
Hypothesis level_nonneg : forall id, 0 <= VolOctree.getCellLevel m_omesh id.

Lemma computeRSearchFromLevel_antitone (l1 l2 : Z) :
  0 <= l1 <= l2 -> l2 <= 100 ->
  (LevelSetOctree.computeRSearchFromLevel m_omesh l2
   <= LevelSetOctree.computeRSearchFromLevel m_omesh l1)%R.
Proof.
  intros H12 H2. unfold LevelSetOctree.computeRSearchFromLevel, to_uint8. simpl.
  rewrite !Z.mod_small by lia.
  pose proof (levelToSize_antitone l1 l2 H12 ltac:(lia)) as Hsize.
  pose proof (sqrt_pos 11) as Hsqrt.
  unfold Rdiv. apply Rmult_le_compat_r; [lra|].
  apply Rmult_le_compat_r; [exact Hsqrt | exact Hsize].
Qed.

Lemma coarsestFlagged_bounds (flagged : Z -> bool) (cells : list Z) :
  0 <= LevelSetOctree.coarsestFlagged m_omesh flagged cells <= 100.
Proof.
  destruct (fold_min_spec (VolOctree.getCellLevel m_omesh) flagged cells 100)
    as (Hle & _ & Hone).
  fold (LevelSetOctree.coarsestFlagged m_omesh flagged cells) in Hle, Hone.
  split; [|exact Hle].
  destruct Hone as [-> | (x & _ & _ & ->)]; [lia | apply level_nonneg].
Qed.

(** The level found over one list of cells is below the level found
    over another as soon as every flagged cell of the second list is
    matched by a flagged cell of the first that is at most as fine. *)
Lemma coarsestFlagged_le (flagged : Z -> bool) (cells cells' : list Z) :
  (forall x, x ∈ cells' -> flagged x = true ->
     exists y, y ∈ cells /\ flagged y = true
               /\ VolOctree.getCellLevel m_omesh y <= VolOctree.getCellLevel m_omesh x) ->
  LevelSetOctree.coarsestFlagged m_omesh flagged cells
  <= LevelSetOctree.coarsestFlagged m_omesh flagged cells'.
Proof.
  intros Hmatch.
  destruct (fold_min_spec (VolOctree.getCellLevel m_omesh) flagged cells 100)
    as (Hle & Hall & _).
  destruct (fold_min_spec (VolOctree.getCellLevel m_omesh) flagged cells' 100)
    as (_ & _ & Hone').
  fold (LevelSetOctree.coarsestFlagged m_omesh flagged cells) in Hle, Hall.
  fold (LevelSetOctree.coarsestFlagged m_omesh flagged cells') in Hone'.
  destruct Hone' as [-> | (x & Hx & Hfx & ->)]; [exact Hle|].
  destruct (Hmatch x Hx Hfx) as (y & Hy & Hfy & Hlev).
  specialize (Hall y Hy Hfy). lia.
Qed.

(** C9: the flagged predicate (the surface) being fixed and
    [levelToSize] not increasing with the level, replacing a flagged
    cell [c] of the list of cells by cells [fine] that are at least as
    fine does not increase the radius computed from the coarsest
    flagged level, and replacing it by a flagged cell [coarse] that
    is at most as fine does not decrease it. *)
Theorem radius_monotone_in_coarsest_level
        (flagged : Z -> bool) (pre post fine : list Z) (c coarse : Z) :
  flagged c = true ->
  (forall f, f ∈ fine -> VolOctree.getCellLevel m_omesh c
                         <= VolOctree.getCellLevel m_omesh f) ->
  flagged coarse = true ->
  VolOctree.getCellLevel m_omesh coarse <= VolOctree.getCellLevel m_omesh c ->
  let radius cells :=
    LevelSetOctree.computeRSearchFromLevel m_omesh
      (LevelSetOctree.coarsestFlagged m_omesh flagged cells) in
  (radius (pre ++ fine ++ post) <= radius (pre ++ c :: post))%R
  /\ (radius (pre ++ c :: post) <= radius (pre ++ coarse :: post))%R.
Proof.
  intros Hfc Hfine Hfcoarse Hcoarse radius. subst radius. simpl. split.
  - apply computeRSearchFromLevel_antitone; [|apply coarsestFlagged_bounds].
    split; [apply coarsestFlagged_bounds|].
    apply coarsestFlagged_le. intros x Hx Hfx.
    apply elem_of_app in Hx as [Hpre | Hx].
    + exists x. split; [apply elem_of_app; now left|]. split; [exact Hfx | lia].
    + apply elem_of_app in Hx as [Hin | Hpost].
      * exists c. split; [apply elem_of_app; right; left|]. split; [exact Hfc | auto].
      * exists x. split; [apply elem_of_app; right; now right|]. split; [exact Hfx | lia].
  - apply computeRSearchFromLevel_antitone; [|apply coarsestFlagged_bounds].
    split; [apply coarsestFlagged_bounds|].
    apply coarsestFlagged_le. intros x Hx Hfx.
    apply elem_of_app in Hx as [Hpre | Hx].
    + exists x. split; [apply elem_of_app; now left|]. split; [exact Hfx | lia].
    + apply elem_of_cons in Hx as [-> | Hpost].
      * exists coarse. split; [apply elem_of_app; right; left|].
        split; [exact Hfcoarse | exact Hcoarse].
      * exists x. split; [apply elem_of_app; right; now right|]. split; [exact Hfx | lia].
Qed.
End OctreeMonotone.

(** ** The claims on concrete inputs *)

Section Runs.
Let F : Type := PrimFloat.float.
Let fl : BandFlag F := Examples.activeIsZero.

(** The merge of eight cells of the band puts the merged cell in the
    working set; the same merge on an empty band leaves it out. *)
Example merge_in_band :
  LevelSetOctree.newNarrowBand (flag := fl)
    (mkLevelSet Examples.store_siblings (float_ofZ 0)) [Examples.merge_siblings]
  = {[ 2 ]}
  /\ LevelSetOctree.newNarrowBand (flag := fl)
       (Examples.emptyLS (D := F)) [Examples.merge_siblings]
     = ∅.
Proof. split; vm_compute; reflexivity. Qed.

(** What a visitor sees during [update]: the old radius in the level
    set, the new radius as its argument. *)
Example update_seen_by_visitor :
  let ls := Examples.bandOfCell1 (D := F) 3 in
  let ls' := snd (LevelSetOctree.update (flag := fl) Examples.octree
                    Examples.spyVisitor [] ls) in
  info ls' !! 0 = Some (mkLSInfo (RSearch ls) 0)
  /\ info ls' !! 1 = Some (mkLSInfo (RSearch ls') 0)
  /\ RSearch ls' = LevelSetOctree.computeRSearchFromLevel Examples.octree 2.
Proof. repeat split; vm_compute; reflexivity. Qed.

(** With a membership test that compares the value with the radius,
    the radius decides the band: at the radius of level 3 the band of
    [store_near_far] is the cell 1; an update with zero records and a
    visitor that changes nothing stores the radius of level 2, the
    level of the cell 1, and the cell 2 is in the band afterwards. *)
Example update_without_records_moves_band :
  let ls := mkLevelSet (MoreExamples.store_near_far (D := F))
              (LevelSetOctree.computeRSearchFromLevel Examples.octree 3) in
  let ls' := snd (LevelSetOctree.update (flag := MoreExamples.withinRadius) Examples.octree
                    Examples.idleVisitor [] ls) in
  isInNarrowBand (flag := MoreExamples.withinRadius) ls 1 = true
  /\ isInNarrowBand (flag := MoreExamples.withinRadius) ls 2 = false
  /\ info ls' = info ls
  /\ RSearch ls' = LevelSetOctree.computeRSearchFromLevel Examples.octree 2
  /\ isInNarrowBand (flag := MoreExamples.withinRadius) ls' 2 = true.
Proof. repeat split; vm_compute; reflexivity. Qed.
End Runs.

Lemma computeSizeNarrowBand_disjoint_boxes_witness :
  let ls' := LevelSetOctree.computeSizeNarrowBand
               (flag := Examples.activeIsZero)
               Examples.boxes_intersect Examples.uniformGrid
               (Examples.cube8 (D := PrimFloat.float)) Examples.farAway Examples.emptyLS in
  ls' = Examples.emptyLS
  /\ RSearch ls' = RSearch (Examples.emptyLS (D := PrimFloat.float))
  /\ info ls' = info (Examples.emptyLS (D := PrimFloat.float))
  /\ (info (Examples.emptyLS (D := PrimFloat.float)) = ∅ ->
      forall id, isInNarrowBand (flag := Examples.activeIsZero) ls' id = false).
Proof.
  apply (computeSizeNarrowBand_disjoint_boxes (flag := Examples.activeIsZero)
           Examples.boxes_intersect Examples.uniformGrid
           (Examples.cube8 (D := PrimFloat.float)) Examples.farAway Examples.emptyLS).
  vm_compute. reflexivity.
Defined.

Lemma octree_radius_from_coarsest_flagged_witness :
  exists L,
    (exists c, c ∈ VolOctree.getCells (Examples.cube8 (D := PrimFloat.float))
               /\ LevelSetOctree.cellFlagged (flag := Examples.activeIsZero) Examples.cube8
                    (fst (LevelSetOctree.auxiliary Examples.uniformGrid Examples.cube8
                            (Examples.nearOrigin [0])
                            (fst Examples.nearOriginBox) (snd Examples.nearOriginBox)))
                    (snd (LevelSetOctree.auxiliary Examples.uniformGrid Examples.cube8
                            (Examples.nearOrigin [0])
                            (fst Examples.nearOriginBox) (snd Examples.nearOriginBox)))
                    c = true
               /\ VolOctree.getCellLevel (Examples.cube8 (D := PrimFloat.float)) c = L)
    /\ (forall c, c ∈ VolOctree.getCells (Examples.cube8 (D := PrimFloat.float)) ->
          LevelSetOctree.cellFlagged (flag := Examples.activeIsZero) Examples.cube8
            (fst (LevelSetOctree.auxiliary Examples.uniformGrid Examples.cube8
                    (Examples.nearOrigin [0])
                    (fst Examples.nearOriginBox) (snd Examples.nearOriginBox)))
            (snd (LevelSetOctree.auxiliary Examples.uniformGrid Examples.cube8
                    (Examples.nearOrigin [0])
                    (fst Examples.nearOriginBox) (snd Examples.nearOriginBox)))
            c = true ->
          L <= VolOctree.getCellLevel (Examples.cube8 (D := PrimFloat.float)) c)
    /\ RSearch (LevelSetOctree.computeSizeNarrowBand (flag := Examples.activeIsZero)
                  Examples.boxes_intersect Examples.uniformGrid Examples.cube8
                  (Examples.nearOrigin [0]) Examples.emptyLS)
       = (VolOctree.levelToSize (Examples.cube8 (D := PrimFloat.float)) L
          * d_sqrt (d_ofZ 11) / d_ofZ 2)%D.
Proof.
  apply (octree_radius_from_coarsest_flagged (flag := Examples.activeIsZero)
           Examples.boxes_intersect Examples.uniformGrid
           (Examples.cube8 (D := PrimFloat.float)) (Examples.nearOrigin [0])
           Examples.emptyLS
           (fst Examples.nearOriginBox) (snd Examples.nearOriginBox) 0).
  - vm_compute. reflexivity.
  - apply elem_of_seqZ. lia.
  - vm_compute. reflexivity.
  - intros c _ _. simpl. lia.
Defined.

(** C6, the claim as stated (inclusive range) fails: on the unit cube
    refined once, with the auxiliary grid of 2 x 2 x 2 cells whose only
    cell in the band is the last one, [(1,1,1)], the octree cell 0 has
    the corner indices [i0 = (0,0,0)] and [i1 = (1,1,1)]; the lattice
    cell [(1,1,1)] lies in the inclusive range and is in the band, yet
    the cell is not flagged. *)
Lemma cellFlagged_inclusive_range_counterexample :
  let m := Examples.cube8 (D := PrimFloat.float) in
  let aux := LevelSetOctree.auxiliary Examples.uniformGrid m (Examples.nearOrigin [7])
               (fst Examples.nearOriginBox) (snd Examples.nearOriginBox) in
  let corner j := VolOctree.getVertexCoords m (VolOctree.getConnect m 0 j) in
  let i0 := VolCartesian.locateClosestVertexCartesian (fst aux) (corner 0) in
  let i1 := VolCartesian.locateClosestVertexCartesian (fst aux) (corner 7) in
  ~ (LevelSetOctree.cellFlagged (flag := Examples.activeIsZero) m (fst aux) (snd aux) 0 = true
     <-> exists i j k,
           nth3 i0 0 <= i <= nth3 i1 0 /\
           nth3 i0 1 <= j <= nth3 i1 1 /\
           nth3 i0 2 <= k <= nth3 i1 2 /\
           isInNarrowBand (flag := Examples.activeIsZero) (snd aux)
             (VolCartesian.getCellLinearId (fst aux) i j k) = true).
Proof.
  intros m aux corner i0 i1 [_ Hflag].
  assert (Hf : LevelSetOctree.cellFlagged (flag := Examples.activeIsZero)
                 m (fst aux) (snd aux) 0 = true).
  { apply Hflag. exists 1, 1, 1.
    split; [vm_compute; split; discriminate|].
    split; [vm_compute; split; discriminate|].
    split; [vm_compute; split; discriminate|].
    vm_compute. reflexivity. }
  vm_compute in Hf. discriminate.
Qed.

Lemma update_without_records_witness :
  let m := Examples.octree (D := PrimFloat.float) in
  let ls := Examples.bandOfCell1 (D := PrimFloat.float) 2 in
  let ls' := snd (LevelSetOctree.update (flag := Examples.activeIsZero) m
                    Examples.idleVisitor [] ls) in
  (forall id, id ∈ LevelSetOctree.newNarrowBand (flag := Examples.activeIsZero) ls []
              <-> isInNarrowBand (flag := Examples.activeIsZero) ls id = true)
  /\ exists c,
       let radius := (VolOctree.levelToSize m (VolOctree.getCellLevel m c)
                      * d_sqrt (d_ofZ 11) / d_ofZ 2)%D in
       isInNarrowBand (flag := Examples.activeIsZero) ls c = true
       /\ (forall id, isInNarrowBand (flag := Examples.activeIsZero) ls id = true ->
             VolOctree.getCellLevel m c <= VolOctree.getCellLevel m id)
       /\ LevelSetOctree.updateSizeNarrowBand (flag := Examples.activeIsZero) m [] ls
          = radius
       /\ RSearch ls' = radius
       /\ (LSObject.updateLSInNarrowBand Examples.idleVisitor ls [] radius = ls ->
           (ls' = ls <-> RSearch ls = radius)).
Proof.
  apply (update_without_records (flag := Examples.activeIsZero)
           (Examples.octree (D := PrimFloat.float)) Examples.idleVisitor
           (Examples.bandOfCell1 2) 1).
  - vm_compute. reflexivity.
  - intros id _. simpl. destruct (id =? 1); lia.
Defined.

(** The same band in two level sets that differ in the store and in
    the radius: the band maintainer returns the same radius on both. *)
Lemma update_writes_radius_last_witness :
  let m := Examples.octree (D := PrimFloat.float) in
  let ls := Examples.bandOfCell1 (D := PrimFloat.float) 2 in
  let ls2 := mkLevelSet (<[ 1 := mkLSInfo (float_ofZ 5) 0 ]>
                           (<[ 7 := mkLSInfo (float_ofZ 0) 1 ]> ∅))
                        (float_ofZ 9) in
  OctreeProgram.updateSizeNarrowBand (flag := Examples.activeIsZero) m
    [MoreExamples.split1] ls2
  = (LevelSetOctree.updateSizeNarrowBand (flag := Examples.activeIsZero) m
       [MoreExamples.split1] ls, ls2).
Proof.
  intros m ls ls2.
  destruct (update_writes_radius_last (flag := Examples.activeIsZero) m
              Examples.idleVisitor [MoreExamples.split1] ls) as (_ & Hsame & _).
  apply Hsame. intros id. unfold isInNarrowBand, ls, ls2, Examples.bandOfCell1. simpl.
  destruct (decide (id = 1)) as [-> | Hne1].
  - rewrite !lookup_insert. reflexivity.
  - rewrite !(lookup_insert_ne _ 1 id) by congruence.
    destruct (decide (id = 7)) as [-> | Hne7].
    + rewrite lookup_insert. reflexivity.
    + rewrite lookup_insert_ne by congruence. reflexivity.
Defined.

(** C8, the claim as stated fails on a state produced by [compute]:
    on the unit cube whose first octant is refined twice, with the
    surface in the corner cell 0, only that cell (level 2) is flagged
    and [compute] stores the radius of level 2; the visitor then finds
    the cell 0 and the octant 8 (level 1) in the band.  An update with
    zero records leaves the store as it is and stores the radius of
    level 1. *)
Lemma update_without_records_counterexample :
  let ls := LevelSetOctree.compute (flag := Examples.activeIsZero)
              Examples.boxes_intersect Examples.uniformGrid
              (Examples.cube15 (D := PrimFloat.float))
              Examples.surfaceInCorner Examples.emptyLS in
  let ls' := snd (LevelSetOctree.update (flag := Examples.activeIsZero) Examples.cube15
                    Examples.surfaceInCorner [] ls) in
  isInNarrowBand (flag := Examples.activeIsZero) ls 0 = true
  /\ info ls' = info ls
  /\ RSearch ls = LevelSetOctree.computeRSearchFromLevel Examples.cube15 2
  /\ RSearch ls' = LevelSetOctree.computeRSearchFromLevel Examples.cube15 1
  /\ RSearch ls' <> RSearch ls.
Proof.
  intros ls ls'. split; [vm_compute; reflexivity|].
  split; [reflexivity|].
  split; [vm_compute; reflexivity|].
  split; [vm_compute; reflexivity|].
  intros Heq.
  apply (f_equal (fun x => PrimFloat.eqb x (RSearch ls))) in Heq.
  vm_compute in Heq. discriminate.
Qed.

Lemma example_levelToSize_antitone (l1 l2 : Z) :
  0 <= l1 <= l2 -> l2 <= 255 ->
  (VolOctree.levelToSize (Examples.octree (D := R)) l2
   <= VolOctree.levelToSize (Examples.octree (D := R)) l1)%R.
Proof.
  intros H12 _. simpl. unfold Rdiv.
  apply Rmult_le_compat_l; [lra|].
  apply Rinv_le_contravar.
  - apply IZR_lt. apply Z.pow_pos_nonneg; lia.
  - apply IZR_le. apply Z.pow_le_mono_r; lia.
Qed.

Lemma example_level_nonneg (id : Z) :
  0 <= VolOctree.getCellLevel (Examples.octree (D := R)) id.
Proof. simpl. destruct (id =? 1); lia. Qed.

Lemma radius_monotone_in_coarsest_level_witness :
  let radius cells :=
    LevelSetOctree.computeRSearchFromLevel (Examples.octree (D := R))
      (LevelSetOctree.coarsestFlagged Examples.octree (fun _ => true) cells) in
  Rle (radius ([2] ++ [4; 5] ++ [3])) (radius ([2] ++ 1 :: [3]))
  /\ Rle (radius ([2] ++ 1 :: [3])) (radius ([2] ++ 1 :: [3])).
Proof.
  apply (radius_monotone_in_coarsest_level (Examples.octree (D := R))
           example_levelToSize_antitone example_level_nonneg
           (fun _ => true) [2] [3] [4; 5] 1 1).
  - reflexivity.
  - intros f _. simpl. destruct (f =? 1); lia.
  - reflexivity.
  - simpl. lia.
Defined.

(** * Further properties of the code *)

(** ** The Eikonal stencil, in general *)

Section EikonalGeneral.
Local Open Scope R_scope.
Variable m_cmesh : VolCartesian.t R.
Variable store : gmap Z (LSInfo R).
Variables (s : R) (I : Z).

Let adjL (d : Z) : Z := VolCartesian.getAdjacency m_cmesh I (2 * d).
Let adjR (d : Z) : Z := VolCartesian.getAdjacency m_cmesh I (2 * d + 1).
Let spacing (d : Z) : R := VolCartesian.getSpacing m_cmesh d.

(** The value [a*phi^2 + b*phi + c] of a quadratic form. *)
Let eval (q : LevelSetCartesian.quad) (phi : R) : R :=
  LevelSetCartesian.qa q * phi * phi + LevelSetCartesian.qb q * phi
  + LevelSetCartesian.qc q.

Lemma upwindValue_cases (d : Z) (r : LSInfo R) :
  store !! VolCartesian.getAdjacency m_cmesh I (2 * d) = Some r ->
  LevelSetCartesian.upwindValue m_cmesh store s I d
  = Some (if (active r =? 0)%Z
             && ((0 <=? VolCartesian.getAdjacency m_cmesh I (2 * d))%Z
                 || (0 <=? VolCartesian.getAdjacency m_cmesh I (2 * d + 1))%Z)
          then Rmin (s * value r) (IZR (10 ^ 18))
          else IZR (10 ^ 18)).
Proof.
  intros Hrec. unfold LevelSetCartesian.upwindValue. rewrite Hrec. simpl.
  f_equal. unfold LevelSetCartesian.probe.
  destruct (active r =? 0)%Z; simpl;
    [|rewrite !andb_false_r; reflexivity].
  rewrite !andb_true_r.
  destruct (0 <=? VolCartesian.getAdjacency m_cmesh I (2 * d))%Z,
           (0 <=? VolCartesian.getAdjacency m_cmesh I (2 * d + 1))%Z; simpl;
    rewrite ?std_min_Rmin; try reflexivity.
  unfold Rmin at 1.
  destruct (Rle_dec (s * value r) (Rmin (s * value r) (IZR (10 ^ 18)))) as [Hle | Hnle];
    [|reflexivity].
  pose proof (Rmin_l (s * value r) (IZR (10 ^ 18))). lra.
Qed.

(** X2: the upwind value of an axis, given the record stored under the
    left neighbour: when that record is active and at least one of the
    two neighbours exists, it is [s * value] of that record capped at
    the sentinel [1.0e+18]; otherwise it is the sentinel.  The axis
    enters the quadratic form exactly when the record is active, one
    of the neighbours exists and [s * value] is below [1.0e+17].  The
    record of the right neighbour plays no part. *)
Theorem upwindValue_characterised (d : Z) (r : LSInfo R) :
  store !! VolCartesian.getAdjacency m_cmesh I (2 * d) = Some r ->
  LevelSetCartesian.upwindValue m_cmesh store s I d
  = Some (if (active r =? 0)%Z
             && ((0 <=? VolCartesian.getAdjacency m_cmesh I (2 * d))%Z
                 || (0 <=? VolCartesian.getAdjacency m_cmesh I (2 * d + 1))%Z)
          then Rmin (s * value r) (IZR (10 ^ 18))
          else IZR (10 ^ 18))
  /\ (EikonalEquation.contributes m_cmesh store s I d = true
      <-> active r = 0%Z
          /\ ((0 <= VolCartesian.getAdjacency m_cmesh I (2 * d))%Z
              \/ (0 <= VolCartesian.getAdjacency m_cmesh I (2 * d + 1))%Z)
          /\ s * value r < IZR (10 ^ 17)).
Proof.
  intros Hrec. pose proof (upwindValue_cases d r Hrec) as Hup.
  split; [exact Hup|].
  unfold EikonalEquation.contributes. rewrite Hup.
  assert (Hsen : IZR (10 ^ 17) < IZR (10 ^ 18)) by (apply IZR_lt; reflexivity).
  destruct (active r =? 0)%Z eqn:Hact; simpl.
  - apply Z.eqb_eq in Hact.
    destruct ((0 <=? VolCartesian.getAdjacency m_cmesh I (2 * d))%Z
              || (0 <=? VolCartesian.getAdjacency m_cmesh I (2 * d + 1))%Z) eqn:Hex.
    + apply orb_true_iff in Hex. rewrite !Z.leb_le in Hex.
      unfold Rltb. destruct (Rlt_dec (Rmin (s * value r) (IZR (10 ^ 18))) (IZR (10 ^ 17)))
        as [Hlt | Hnlt].
      * split; [intros _|reflexivity]. split; [exact Hact|]. split; [exact Hex|].
        unfold Rmin in Hlt. destruct (Rle_dec (s * value r) (IZR (10 ^ 18))); lra.
      * split; [discriminate|]. intros (_ & _ & Hsmall). exfalso. apply Hnlt.
        rewrite Rmin_left by lra. exact Hsmall.
    + apply orb_false_iff in Hex. rewrite !Z.leb_gt in Hex.
      rewrite Rltb_false by lra. split; [discriminate|]. intros (_ & [H0 | H0] & _); lia.
  - apply Z.eqb_neq in Hact. rewrite Rltb_false by lra.
    split; [discriminate|]. intros (H0 & _). contradiction.
Qed.

Lemma accumulate_eval (d : Z) (v : R) (q : LevelSetCartesian.quad) (phi : R) :
  eval (LevelSetCartesian.accumulate m_cmesh d v q) phi
  = eval q phi
    + (if Rltb v (IZR (10 ^ 17))
       then (phi - v) * (phi - v) / (spacing d * spacing d) else 0).
Proof.
  unfold LevelSetCartesian.accumulate, eval, spacing, Std.pow2. simpl.
  destruct (Rltb v (IZR (10 ^ 17))); simpl; unfold Rdiv; ring.
Qed.

(** The quadratic form accumulated over the axes is the sum of the
    terms of the axes. *)
Lemma stencil_eval (axes : list Z) (q q' : LevelSetCartesian.quad) (phi : R) :
  LevelSetCartesian.stencil m_cmesh store s I axes q = Some q' ->
  eval q' phi = eval q phi + EikonalEquation.residual m_cmesh store s I axes phi.
Proof.
  revert q. induction axes as [|d axes IH]; intros q Hst; simpl in *.
  - injection Hst as <-. lra.
  - unfold EikonalEquation.axisTerm.
    destruct (LevelSetCartesian.upwindValue m_cmesh store s I d) as [v|];
      simpl in Hst; [|discriminate].
    rewrite (IH _ Hst), accumulate_eval. unfold spacing. lra.
Qed.

Lemma accumulate_qa (d : Z) (v : R) (q : LevelSetCartesian.quad) :
  spacing d <> 0 ->
  LevelSetCartesian.qa q <= LevelSetCartesian.qa (LevelSetCartesian.accumulate m_cmesh d v q)
  /\ (Rltb v (IZR (10 ^ 17)) = true ->
      LevelSetCartesian.qa q
      < LevelSetCartesian.qa (LevelSetCartesian.accumulate m_cmesh d v q)).
Proof.
  intros Hh. unfold LevelSetCartesian.accumulate, Std.pow2. fold (spacing d). simpl.
  assert (Hpos : 0 < 1 / (spacing d * spacing d)).
  { apply Rdiv_lt_0_compat; [lra|]. nra. }
  destruct (Rltb v (IZR (10 ^ 17))); simpl.
  - split; [lra | intros _; lra].
  - split; [lra | discriminate].
Qed.

(** The leading coefficient only grows, and it grows at an axis that
    contributes. *)
Lemma stencil_qa (axes : list Z) (q q' : LevelSetCartesian.quad) :
  LevelSetCartesian.stencil m_cmesh store s I axes q = Some q' ->
  (forall d, d ∈ axes -> spacing d <> 0) ->
  LevelSetCartesian.qa q <= LevelSetCartesian.qa q'
  /\ ((exists d, d ∈ axes /\ EikonalEquation.contributes m_cmesh store s I d = true) ->
      LevelSetCartesian.qa q < LevelSetCartesian.qa q').
Proof.
  revert q. induction axes as [|d axes IH]; intros q Hst Hh; simpl in *.
  - injection Hst as <-. split; [lra|]. intros (d & Hd & _). inversion Hd.
  - assert (Hd : spacing d <> 0) by (apply Hh; left).
    unfold EikonalEquation.contributes in *.
    destruct (LevelSetCartesian.upwindValue m_cmesh store s I d) as [v|] eqn:Hv;
      simpl in Hst; [|discriminate].
    destruct (IH _ Hst) as (Hle & Hlt); [intros d' Hd'; apply Hh; now right|].
    destruct (accumulate_qa d v q Hd) as (Hle0 & Hlt0).
    split; [lra|].
    intros (d' & Hd' & Hc). apply elem_of_cons in Hd' as [-> | Hd'].
    + rewrite Hv in Hc. specialize (Hlt0 Hc). lra.
    + assert (LevelSetCartesian.qa (LevelSetCartesian.accumulate m_cmesh d v q)
              < LevelSetCartesian.qa q') by (apply Hlt; eauto).
      lra.
Qed.

(** The larger root of [a*x^2 + b*x + c = g^2] for [a > 0], as
    [solveQuadratic] computes it. *)
Lemma solveQuadratic_root (g : R) (q : LevelSetCartesian.quad) :
  0 < LevelSetCartesian.qa q ->
  (exists psi, eval q psi <= g * g) ->
  eval q (LevelSetCartesian.solveQuadratic g q) = g * g
  /\ forall psi, eval q psi <= g * g -> psi <= LevelSetCartesian.solveQuadratic g q.
Proof.
  destruct q as [a b c]. unfold eval. simpl. intros Ha (psi0 & Hpsi0).
  unfold LevelSetCartesian.solveQuadratic, Std.pow2. simpl.
  set (delta := b * b - 4 * a * (c - g * g)).
  assert (Hdelta : 0 <= delta).
  { set (X := a * psi0 * psi0 + b * psi0 + c - g * g).
    assert (HX : X <= 0) by (unfold X; lra).
    assert (HaX : a * X <= 0) by nra.
    pose proof (Rle_0_sqr (2 * a * psi0 + b)) as Hsq. unfold Rsqr in Hsq.
    replace delta with ((2 * a * psi0 + b) * (2 * a * psi0 + b) - 4 * (a * X))
      by (unfold delta, X; ring).
    lra. }
  pose proof (sqrt_pos delta) as HS. pose proof (sqrt_sqrt delta Hdelta) as HSS.
  set (S := sqrt delta) in *.
  set (phi := - (b - S) / (2 * a)).
  assert (Hphi : 2 * a * phi = S - b) by (unfold phi; field; lra).
  split.
  - assert (H4 : 4 * a * (a * phi * phi + b * phi + c - g * g) = 0).
    { replace (4 * a * (a * phi * phi + b * phi + c - g * g))
        with ((2 * a * phi) * (2 * a * phi) + 2 * b * (2 * a * phi) + b * b - delta)
        by (unfold delta; ring).
      rewrite Hphi. nra. }
    nra.
  - intros psi Hpsi.
    set (X := a * psi * psi + b * psi + c - g * g).
    assert (HX : X <= 0) by (unfold X; lra).
    assert (HaX : a * X <= 0) by nra.
    assert (Hsq : (2 * a * psi + b) * (2 * a * psi + b) <= S * S).
    { rewrite HSS.
      replace delta with ((2 * a * psi + b) * (2 * a * psi + b) - 4 * (a * X))
        by (unfold delta, X; ring).
      lra. }
    assert (Hle : 2 * a * psi + b <= S) by nra.
    assert (H2 : 2 * a * psi <= 2 * a * phi) by lra.
    nra.
Qed.

(** X1: whenever [updateEikonal] returns a value [phi], the spacings
    are not zero, some axis contributes and the discretised equation
    can be met at all, [phi] solves it, [sum ((phi - u_d)/h_d)^2 = g^2]
    over the contributing axes, and is the largest number that does
    not exceed it. *)
Theorem updateEikonal_solves_equation (ls : LevelSet R) (g phi : R) :
  info ls = store ->
  LevelSetCartesian.updateEikonal m_cmesh ls s g I = Some phi ->
  (forall d, (0 <= d < VolCartesian.getDimension m_cmesh)%Z ->
             VolCartesian.getSpacing m_cmesh d <> 0) ->
  (exists d, (0 <= d < VolCartesian.getDimension m_cmesh)%Z
             /\ EikonalEquation.contributes m_cmesh store s I d = true) ->
  (exists psi,
     EikonalEquation.residual m_cmesh store s I
       (seqZ 0 (VolCartesian.getDimension m_cmesh)) psi <= g * g) ->
  EikonalEquation.residual m_cmesh store s I
    (seqZ 0 (VolCartesian.getDimension m_cmesh)) phi = g * g
  /\ forall psi,
       EikonalEquation.residual m_cmesh store s I
         (seqZ 0 (VolCartesian.getDimension m_cmesh)) psi <= g * g ->
       psi <= phi.
Proof.
  intros Hinfo Hres Hh (d0 & Hd0 & Hc0) (psi0 & Hpsi0).
  unfold LevelSetCartesian.updateEikonal in Hres. rewrite Hinfo in Hres.
  destruct (LevelSetCartesian.stencil m_cmesh store s I
              (seqZ 0 (VolCartesian.getDimension m_cmesh))
              (LevelSetCartesian.mkQuad (d_ofZ 0) (d_ofZ 0) (d_ofZ 0)))
    as [q|] eqn:Hst; simpl in Hres; [|discriminate].
  injection Hres as <-.
  assert (Heval : forall psi,
            eval q psi = EikonalEquation.residual m_cmesh store s I
                           (seqZ 0 (VolCartesian.getDimension m_cmesh)) psi).
  { intros psi. rewrite (stencil_eval _ _ _ psi Hst). unfold eval. simpl. lra. }
  destruct (stencil_qa _ _ _ Hst) as (_ & Hlt).
  { intros d Hd. apply elem_of_seqZ in Hd. apply Hh. lia. }
  assert (Ha : 0 < LevelSetCartesian.qa q).
  { simpl in Hlt. apply Hlt. exists d0. split; [apply elem_of_seqZ; lia | exact Hc0]. }
  destruct (solveQuadratic_root g q Ha) as (Hroot & Hmax).
  { exists psi0. rewrite Heval. exact Hpsi0. }
  split.
  - rewrite <- Heval. exact Hroot.
  - intros psi Hpsi. apply Hmax. rewrite Heval. exact Hpsi.
Qed.
End EikonalGeneral.

Section EikonalSingleAxis.
Local Open Scope R_scope.
Variable m_cmesh : VolCartesian.t R.
Variable store : gmap Z (LSInfo R).
Variables (s : R) (I : Z).

(** The quadratic form left by a single contributing axis. *)
Lemma stencil_single_axis (d0 : Z) (r0 : LSInfo R) :
  (0 <= d0 < VolCartesian.getDimension m_cmesh)%Z ->
  store !! VolCartesian.getAdjacency m_cmesh I (2 * d0) = Some r0 ->
  (0 <= VolCartesian.getAdjacency m_cmesh I (2 * d0))%Z ->
  active r0 = 0%Z ->
  s * value r0 < IZR (10 ^ 17) ->
  (forall d, (0 <= d < VolCartesian.getDimension m_cmesh)%Z -> d <> d0 ->
     exists r, store !! VolCartesian.getAdjacency m_cmesh I (2 * d) = Some r
               /\ active r <> 0%Z) ->
  LevelSetCartesian.stencil m_cmesh store s I
    (seqZ 0 (VolCartesian.getDimension m_cmesh))
    (LevelSetCartesian.mkQuad 0 0 0)
  = Some (LevelSetCartesian.accumulate m_cmesh d0 (s * value r0)
            (LevelSetCartesian.mkQuad 0 0 0)).
Proof.
  intros Hd0 Hrec Hex Hact Hsmall Hidle.
  set (dim := VolCartesian.getDimension m_cmesh) in *.
  assert (Hsplit : seqZ 0 dim = seqZ 0 d0 ++ d0 :: seqZ (d0 + 1) (dim - d0 - 1)).
  { replace dim with (d0 + (1 + (dim - d0 - 1)))%Z at 1 by lia.
    rewrite seqZ_app by lia. f_equal.
    rewrite seqZ_cons by lia. rewrite Z.add_0_l. f_equal. f_equal; lia. }
  rewrite Hsplit, stencil_app.
  rewrite stencil_idle_axes.
  2:{ intros d Hd. apply elem_of_seqZ in Hd. apply Hidle; lia. }
  simpl. rewrite (upwindValue_left_active m_cmesh store s I d0 r0 Hrec Hex Hact Hsmall).
  simpl. apply stencil_idle_axes.
  intros d Hd. apply elem_of_seqZ in Hd. apply Hidle; lia.
Qed.

(** The root for a single axis with upwind value [u], spacing [h] and
    any [g]. *)
Lemma solveQuadratic_single_any_speed (u h g : R) :
  h <> 0 ->
  LevelSetCartesian.solveQuadratic g
    (LevelSetCartesian.mkQuad (0 + 1 / (h * h)) (0 + -2 * u / (h * h))
                              (0 + u * u / (h * h)))
  = u + Rabs g * Rabs h.
Proof.
  intros Hh. unfold LevelSetCartesian.solveQuadratic, Std.pow2. simpl.
  assert (Hh2 : 0 < h * h) by (apply (Rsqr_pos_lt h Hh)).
  assert (Hroot : forall y, 0 <= y -> y * h * h = 2 * (Rabs g * Rabs h) ->
            sqrt ((0 + -2 * u / (h * h)) * (0 + -2 * u / (h * h))
                  - 4 * (0 + 1 / (h * h)) * (0 + u * u / (h * h) - g * g)) = y).
  { intros y Hy Hyh.
    assert (Hgg : Rabs g * Rabs g = g * g).
    { destruct (Rcase_abs g); [rewrite Rabs_left | rewrite Rabs_right]; lra. }
    assert (Hhh : Rabs h * Rabs h = h * h).
    { destruct (Rcase_abs h); [rewrite Rabs_left | rewrite Rabs_right]; lra. }
    replace ((0 + -2 * u / (h * h)) * (0 + -2 * u / (h * h))
             - 4 * (0 + 1 / (h * h)) * (0 + u * u / (h * h) - g * g))
      with (y * y); [apply sqrt_square; exact Hy|].
    assert (Hy2 : y * y * (h * h) * (h * h) = 4 * (g * g) * (h * h)).
    { replace (y * y * (h * h) * (h * h)) with ((y * h * h) * (y * h * h)) by ring.
      rewrite Hyh.
      replace (2 * (Rabs g * Rabs h) * (2 * (Rabs g * Rabs h)))
        with (4 * (Rabs g * Rabs g) * (Rabs h * Rabs h)) by ring.
      rewrite Hgg, Hhh. ring. }
    assert (Hy3 : y * y = 4 * (g * g) / (h * h)).
    { apply Rmult_eq_reg_r with ((h * h) * (h * h)); [|nra].
      replace (y * y * (h * h * (h * h))) with (y * y * (h * h) * (h * h)) by ring.
      rewrite Hy2. field. exact Hh. }
    rewrite Hy3. field. exact Hh. }
  rewrite (Hroot (2 * (Rabs g * Rabs h) / (h * h))).
  - field. exact Hh.
  - pose proof (Rabs_pos g). pose proof (Rabs_pos h).
    apply Rmult_le_pos; [nra|]. apply Rlt_le, Rinv_0_lt_compat. exact Hh2.
  - field. exact Hh.
Qed.

(** X3: a stencil reduced to one contributing axis, whatever the
    spacing [h <> 0] and the factor [g]: the solver adds [|g| * |h|] to
    the upwind value [s * v0]; [g] is the slope the solution gets along
    the axis. *)
Theorem updateEikonal_single_axis_any_speed
        (ls : LevelSet R) (g : R) (d0 : Z) (r0 : LSInfo R) :
  info ls = store ->
  (0 <= d0 < VolCartesian.getDimension m_cmesh)%Z ->
  store !! VolCartesian.getAdjacency m_cmesh I (2 * d0) = Some r0 ->
  (0 <= VolCartesian.getAdjacency m_cmesh I (2 * d0))%Z ->
  active r0 = 0%Z ->
  s * value r0 < IZR (10 ^ 17) ->
  VolCartesian.getSpacing m_cmesh d0 <> 0 ->
  (forall d, (0 <= d < VolCartesian.getDimension m_cmesh)%Z -> d <> d0 ->
     exists r, store !! VolCartesian.getAdjacency m_cmesh I (2 * d) = Some r
               /\ active r <> 0%Z) ->
  LevelSetCartesian.updateEikonal m_cmesh ls s g I
  = Some (s * value r0 + Rabs g * Rabs (VolCartesian.getSpacing m_cmesh d0)).
Proof.
  intros Hinfo Hd0 Hrec Hex Hact Hsmall Hh Hidle.
  unfold LevelSetCartesian.updateEikonal. rewrite Hinfo.
  change (LevelSetCartesian.mkQuad (d_ofZ 0) (d_ofZ 0) (d_ofZ 0))
    with (LevelSetCartesian.mkQuad 0 0 0).
  rewrite (stencil_single_axis d0 r0 Hd0 Hrec Hex Hact Hsmall Hidle). simpl.
  f_equal. unfold LevelSetCartesian.accumulate. simpl.
  rewrite Rltb_true by exact Hsmall. unfold Std.pow2. simpl.
  apply solveQuadratic_single_any_speed. exact Hh.
Qed.
End EikonalSingleAxis.

Section EikonalGeneralRuns.
Local Open Scope R_scope.

Lemma corner_upwind (d : Z) :
  (0 <= d < 2)%Z ->
  LevelSetCartesian.upwindValue (Examples.grid3x3 (D := R)) MoreExamples.store_corner 1 4 d
  = Some (1 * 0).
Proof.
  intros Hd. assert (d = 0 \/ d = 1)%Z as [-> | ->] by lia.
  - apply (upwindValue_left_active Examples.grid3x3 MoreExamples.store_corner 1 4 0
             (mkLSInfo 0 0));
      [reflexivity | vm_compute; discriminate | reflexivity
       | apply Rlt_trans with (IZR 1); [simpl; lra | apply IZR_lt; reflexivity]].
  - apply (upwindValue_left_active Examples.grid3x3 MoreExamples.store_corner 1 4 1
             (mkLSInfo 0 0));
      [reflexivity | vm_compute; discriminate | reflexivity
       | apply Rlt_trans with (IZR 1); [simpl; lra | apply IZR_lt; reflexivity]].
Qed.

Lemma corner_small : Rltb (1 * 0) (IZR (10 ^ 17)) = true.
Proof.
  apply Rltb_true. apply Rlt_trans with (IZR 1); [lra | apply IZR_lt; reflexivity].
Qed.
End EikonalGeneralRuns.

Lemma upwindValue_characterised_witness :
  LevelSetCartesian.upwindValue (Examples.grid3x3 (D := R)) Examples.store_two_sided 1%R 4 0
  = Some (if (active (mkLSInfo 5%R 0) =? 0)
             && ((0 <=? VolCartesian.getAdjacency (Examples.grid3x3 (D := R)) 4 (2 * 0))
                 || (0 <=? VolCartesian.getAdjacency (Examples.grid3x3 (D := R)) 4 (2 * 0 + 1)))
          then Rmin (1 * value (mkLSInfo 5%R 0)) (IZR (10 ^ 18))
          else IZR (10 ^ 18)).
Proof.
  apply (upwindValue_characterised Examples.grid3x3 Examples.store_two_sided 1%R 4 0
           (mkLSInfo 5%R 0)).
  reflexivity.
Defined.

Lemma updateEikonal_solves_equation_witness :
  exists phi,
    LevelSetCartesian.updateEikonal (Examples.grid3x3 (D := R))
      (mkLevelSet MoreExamples.store_corner 0%R) 1%R 1%R 4 = Some phi
    /\ EikonalEquation.residual Examples.grid3x3 MoreExamples.store_corner 1%R 4
         (seqZ 0 2) phi = (1 * 1)%R.
Proof.
  assert (Hupd : LevelSetCartesian.updateEikonal (Examples.grid3x3 (D := R))
                   (mkLevelSet MoreExamples.store_corner 0%R) 1%R 1%R 4
                 = Some (LevelSetCartesian.solveQuadratic 1%R
                           (LevelSetCartesian.accumulate Examples.grid3x3 1 (1 * 0)%R
                              (LevelSetCartesian.accumulate Examples.grid3x3 0 (1 * 0)%R
                                 (LevelSetCartesian.mkQuad 0%R 0%R 0%R))))).
  { unfold LevelSetCartesian.updateEikonal.
    change (seqZ 0 (VolCartesian.getDimension (Examples.grid3x3 (D := R)))) with [0; 1].
    simpl LevelSetCartesian.stencil.
    rewrite (corner_upwind 0) by lia. simpl.
    rewrite (corner_upwind 1) by lia. reflexivity. }
  eexists. split; [exact Hupd|].
  apply (updateEikonal_solves_equation Examples.grid3x3 MoreExamples.store_corner 1%R 4
           (mkLevelSet MoreExamples.store_corner 0%R) 1%R _ eq_refl Hupd).
  - intros d _. simpl. lra.
  - exists 0. split; [simpl; lia|].
    unfold EikonalEquation.contributes. rewrite (corner_upwind 0) by lia.
    exact corner_small.
  - exists 0%R.
    change (seqZ 0 (VolCartesian.getDimension (Examples.grid3x3 (D := R)))) with [0; 1].
    unfold EikonalEquation.residual, EikonalEquation.axisTerm. simpl.
    rewrite (corner_upwind 0), (corner_upwind 1) by lia.
    rewrite corner_small. lra.
Defined.

Lemma updateEikonal_single_axis_any_speed_witness :
  LevelSetCartesian.updateEikonal (Examples.grid3x3 (D := R))
    (mkLevelSet Examples.store_one_left 0%R) 1%R 3%R 4
  = Some (1 * value (mkLSInfo 2%R 0)
          + Rabs 3 * Rabs (VolCartesian.getSpacing (Examples.grid3x3 (D := R)) 0))%R.
Proof.
  apply (updateEikonal_single_axis_any_speed Examples.grid3x3 Examples.store_one_left
           1%R 4 (mkLevelSet Examples.store_one_left 0%R) 3%R 0 (mkLSInfo 2%R 0)).
  - reflexivity.
  - simpl. lia.
  - reflexivity.
  - vm_compute. discriminate.
  - reflexivity.
  - apply Rlt_trans with (IZR 3); [simpl; lra | apply IZR_lt; reflexivity].
  - simpl. lra.
  - exact one_left_idle.
Defined.

(** ** The level recovered from the radius *)

Section LevelFromRadius.
Context {D : Type} {num : Real64 D}.
Variable m_omesh : VolOctree.t D.
Variable getLocalMaxDepth : Z.
Variable ls : LevelSet D.

Let tooSmall := LevelSetOctreeLevel.tooSmall m_omesh ls.
Let levelLoop (fuel : nat) := LevelSetOctreeLevel.levelLoop m_omesh fuel ls.

Lemma to_uint8_range (z : Z) : 0 <= to_uint8 z < 256.
Proof. unfold to_uint8. apply Z.mod_pos_bound. lia. Qed.

Lemma to_uint8_pred (l k : Z) :
  to_uint8 (to_uint8 (l - 1) - (k - 1)) = to_uint8 (l - k).
Proof.
  unfold to_uint8. rewrite Zminus_mod_idemp_l. f_equal. lia.
Qed.

(** A loop that uses up its fuel found every level it tried too small. *)
Lemma levelLoop_none_visits (fuel : nat) (l : Z) :
  0 <= l < 256 ->
  levelLoop fuel l = None ->
  forall k, 0 <= k <= Z.of_nat fuel -> tooSmall (to_uint8 (l - k)) = true.
Proof.
  revert l. induction fuel as [|fuel IH]; intros l Hl Hnone k Hk;
    unfold levelLoop in *; simpl in Hnone; fold tooSmall in Hnone;
    destruct (tooSmall l) eqn:Hsmall; try discriminate.
  - assert (k = 0) as -> by lia. rewrite Z.sub_0_r, to_uint8_small by lia. exact Hsmall.
  - destruct (Z.eq_dec k 0) as [-> | Hne].
    + rewrite Z.sub_0_r, to_uint8_small by lia. exact Hsmall.
    + rewrite <- to_uint8_pred. apply IH; [apply to_uint8_range | exact Hnone | lia].
Qed.

(** When every level is too small the loop never ends. *)
Lemma levelLoop_all_small (fuel : nat) (l : Z) :
  (forall level, 0 <= level < 256 -> tooSmall level = true) ->
  0 <= l < 256 ->
  levelLoop fuel l = None.
Proof.
  intros Hall. revert l. induction fuel as [|fuel IH]; intros l Hl;
    unfold levelLoop in *; simpl; fold tooSmall; rewrite (Hall l Hl); [reflexivity|].
  apply IH. apply to_uint8_range.
Qed.

(** More fuel does not change a result. *)
Lemma levelLoop_more_fuel (fuel fuel' : nat) (l L : Z) :
  levelLoop fuel l = Some L -> (fuel <= fuel')%nat -> levelLoop fuel' l = Some L.
Proof.
  revert fuel' l. induction fuel as [|fuel IH]; intros fuel' l Hsome Hle;
    unfold levelLoop in *; simpl in Hsome; fold tooSmall in Hsome;
    destruct (tooSmall l) eqn:Hsmall; try discriminate.
  - destruct fuel'; simpl; fold tooSmall; rewrite Hsmall; exact Hsome.
  - destruct fuel' as [|fuel']; [lia|]. simpl. fold tooSmall. rewrite Hsmall.
    apply IH; [exact Hsome | lia].
  - destruct fuel'; simpl; fold tooSmall; rewrite Hsmall; exact Hsome.
Qed.

(** What a result of the loop is: a level that is not too small,
    reached after [k] decrements over levels that all were. *)
Lemma levelLoop_some (fuel : nat) (l L : Z) :
  0 <= l < 256 ->
  levelLoop fuel l = Some L ->
  tooSmall L = false
  /\ exists k, 0 <= k <= Z.of_nat fuel /\ L = to_uint8 (l - k)
               /\ forall j, 0 <= j < k -> tooSmall (to_uint8 (l - j)) = true.
Proof.
  revert l. induction fuel as [|fuel IH]; intros l Hl Hsome;
    unfold levelLoop in *; simpl in Hsome; fold tooSmall in Hsome;
    destruct (tooSmall l) eqn:Hsmall; try discriminate.
  - injection Hsome as <-. split; [exact Hsmall|].
    exists 0. rewrite Z.sub_0_r, to_uint8_small by lia.
    split; [lia|]. split; [reflexivity | intros j Hj; lia].
  - destruct (IH _ (to_uint8_range (l - 1)) Hsome) as (HL & k & Hk & HLk & Hbefore).
    split; [exact HL|]. exists (k + 1). split; [lia|]. split.
    + rewrite HLk. rewrite <- (to_uint8_pred l (k + 1)). f_equal. lia.
    + intros j Hj. destruct (Z.eq_dec j 0) as [-> | Hne].
      * rewrite Z.sub_0_r, to_uint8_small by lia. exact Hsmall.
      * rewrite <- to_uint8_pred. apply Hbefore. lia.
  - injection Hsome as <-. split; [exact Hsmall|].
    exists 0. rewrite Z.sub_0_r, to_uint8_small by lia.
    split; [lia|]. split; [reflexivity | intros j Hj; lia].
Qed.

(** X4: [computeLevelFromRSearch] has no result exactly when every one
    of the 256 levels is too small for the stored radius, and then the
    loop does not end whatever the number of iterations allowed. *)
Theorem computeLevelFromRSearch_diverges (r : D) :
  (LevelSetOctreeLevel.computeLevelFromRSearch m_omesh getLocalMaxDepth ls r = None
   <-> forall level, 0 <= level < 256 ->
         LevelSetOctreeLevel.tooSmall m_omesh ls level = true)
  /\ (LevelSetOctreeLevel.computeLevelFromRSearch m_omesh getLocalMaxDepth ls r = None ->
      forall fuel,
        LevelSetOctreeLevel.levelLoop m_omesh fuel ls (to_uint8 getLocalMaxDepth) = None).
Proof.
  assert (Hiff :
    LevelSetOctreeLevel.computeLevelFromRSearch m_omesh getLocalMaxDepth ls r = None
    <-> forall level, 0 <= level < 256 -> tooSmall level = true).
  { unfold LevelSetOctreeLevel.computeLevelFromRSearch. split.
    - intros Hnone level Hlevel.
      pose proof (levelLoop_none_visits 256 _ (to_uint8_range getLocalMaxDepth) Hnone
                    ((to_uint8 getLocalMaxDepth - level) mod 256)) as Hvisit.
      assert (Hk : 0 <= (to_uint8 getLocalMaxDepth - level) mod 256 < 256)
        by (apply Z.mod_pos_bound; lia).
      specialize (Hvisit ltac:(simpl; lia)).
      replace (to_uint8 (to_uint8 getLocalMaxDepth
                         - (to_uint8 getLocalMaxDepth - level) mod 256))
        with level in Hvisit; [exact Hvisit|].
      unfold to_uint8 at 1. rewrite Zminus_mod_idemp_r.
      replace (to_uint8 getLocalMaxDepth - (to_uint8 getLocalMaxDepth - level))
        with level by lia.
      symmetry. apply Z.mod_small. exact Hlevel.
    - intros Hall. apply levelLoop_all_small; [exact Hall | apply to_uint8_range]. }
  split; [exact Hiff|].
  intros Hnone fuel. apply levelLoop_all_small; [|apply to_uint8_range].
  apply Hiff. exact Hnone.
Qed.

(** X5: a result [L] of [computeLevelFromRSearch] is a level whose size
    is not below [RSearch - 1.e-8], reached from the maximum depth by
    [k] decrements (modulo 256) over levels that all were below it;
    the result is the same for every argument [r] and for every larger
    number of iterations. *)
Theorem computeLevelFromRSearch_result (r : D) (L : Z) :
  LevelSetOctreeLevel.computeLevelFromRSearch m_omesh getLocalMaxDepth ls r = Some L ->
  LevelSetOctreeLevel.tooSmall m_omesh ls L = false
  /\ (exists k, 0 <= k <= 256 /\ L = to_uint8 (getLocalMaxDepth - k)
                /\ forall j, 0 <= j < k ->
                     LevelSetOctreeLevel.tooSmall m_omesh ls
                       (to_uint8 (getLocalMaxDepth - j)) = true)
  /\ (forall r',
        LevelSetOctreeLevel.computeLevelFromRSearch m_omesh getLocalMaxDepth ls r' = Some L)
  /\ (forall fuel, (256 <= fuel)%nat ->
        LevelSetOctreeLevel.levelLoop m_omesh fuel ls (to_uint8 getLocalMaxDepth) = Some L).
Proof.
  intros Hsome. unfold LevelSetOctreeLevel.computeLevelFromRSearch in Hsome.
  destruct (levelLoop_some 256 _ L (to_uint8_range getLocalMaxDepth) Hsome)
    as (HL & k & Hk & HLk & Hbefore).
  assert (Hshift : forall j, to_uint8 (to_uint8 getLocalMaxDepth - j)
                             = to_uint8 (getLocalMaxDepth - j)).
  { intros j. unfold to_uint8. apply Zminus_mod_idemp_l. }
  split; [exact HL|]. split; [|split].
  - exists k. split; [simpl in Hk; lia|]. split.
    + rewrite HLk. apply Hshift.
    + intros j Hj. rewrite <- Hshift. apply Hbefore. exact Hj.
  - intros r'. exact Hsome.
  - intros fuel Hfuel. apply (levelLoop_more_fuel 256 fuel _ L Hsome Hfuel).
Qed.

(** Counting down without wrapping: the first level that is not too
    small. *)
Lemma levelLoop_first_fit (fuel : nat) (l L : Z) :
  0 <= L <= l -> l < 256 -> l - L <= Z.of_nat fuel ->
  tooSmall L = false ->
  (forall j, L < j <= l -> tooSmall j = true) ->
  levelLoop fuel l = Some L.
Proof.
  revert l. induction fuel as [|fuel IH]; intros l HL Hl Hfuel Hfit Habove;
    unfold levelLoop in *; simpl; fold tooSmall.
  - assert (l = L) as -> by lia. rewrite Hfit. reflexivity.
  - destruct (Z.eq_dec l L) as [-> | Hne]; [rewrite Hfit; reflexivity|].
    rewrite (Habove l) by lia.
    rewrite to_uint8_small by lia.
    apply IH; try lia; [exact Hfit|]. intros j Hj. apply Habove. lia.
Qed.

(** X6: when some level between 0 and the maximum depth is not too
    small, [computeLevelFromRSearch] returns the finest such level. *)
Theorem computeLevelFromRSearch_first_fit (r : D) (L : Z) :
  0 <= L <= getLocalMaxDepth -> getLocalMaxDepth < 256 ->
  LevelSetOctreeLevel.tooSmall m_omesh ls L = false ->
  (forall j, L < j <= getLocalMaxDepth ->
             LevelSetOctreeLevel.tooSmall m_omesh ls j = true) ->
  LevelSetOctreeLevel.computeLevelFromRSearch m_omesh getLocalMaxDepth ls r = Some L.
Proof.
  intros HL Hdepth Hfit Habove.
  unfold LevelSetOctreeLevel.computeLevelFromRSearch.
  rewrite to_uint8_small by lia.
  apply levelLoop_first_fit; try lia; assumption.
Qed.
End LevelFromRadius.

Section LevelRoundTrip.
Local Open Scope R_scope.
Variable m_omesh : VolOctree.t R.
Variable getLocalMaxDepth : Z.

Lemma sqrt_11_bounds : 3 < sqrt 11 < 4.
Proof.
  assert (H3 : sqrt (3 * 3) = 3) by (apply sqrt_square; lra).
  assert (H4 : sqrt (4 * 4) = 4) by (apply sqrt_square; lra).
  assert (Hlo : sqrt (3 * 3) < sqrt 11) by (apply sqrt_lt_1_alt; lra).
  assert (Hhi : sqrt 11 < sqrt (4 * 4)) by (apply sqrt_lt_1_alt; lra).
  lra.
Qed.

(** X7: the radius of level [l] does not lead back to [l].  With cell
    sizes that do not grow with the level and at least double from
    [l] to [l - 1], and a cell of level [l] larger than twice the
    tolerance, [computeLevelFromRSearch] on a level set whose radius is
    [computeRSearchFromLevel(l)] returns [l - 1]: the loop compares the
    sizes with the radius itself, not with the radius scaled back by
    [2 / sqrt(11)]. *)
Theorem computeLevelFromRSearch_of_level_radius (ls : LevelSet R) (r : R) (l : Z) :
  (forall l1 l2, (0 <= l1 <= l2)%Z -> (l2 <= 255)%Z ->
     VolOctree.levelToSize m_omesh l2 <= VolOctree.levelToSize m_omesh l1) ->
  (1 <= l <= getLocalMaxDepth)%Z -> (getLocalMaxDepth < 256)%Z ->
  RSearch ls = LevelSetOctree.computeRSearchFromLevel m_omesh l ->
  2 * VolOctree.levelToSize m_omesh l <= VolOctree.levelToSize m_omesh (l - 1) ->
  2 * LevelSetOctreeLevel.tolerance < VolOctree.levelToSize m_omesh l ->
  LevelSetOctreeLevel.computeLevelFromRSearch m_omesh getLocalMaxDepth ls r
  = Some (l - 1)%Z.
Proof.
  intros Hanti Hl Hdepth HRS Hdouble Htol.
  pose proof sqrt_11_bounds as Hsqrt.
  assert (Htolpos : 0 < LevelSetOctreeLevel.tolerance (D := R)).
  { unfold LevelSetOctreeLevel.tolerance. simpl.
    apply Rdiv_lt_0_compat; [lra | apply IZR_lt; reflexivity]. }
  assert (HR : RSearch ls = VolOctree.levelToSize m_omesh l * sqrt 11 / 2).
  { rewrite HRS. unfold LevelSetOctree.computeRSearchFromLevel. simpl.
    unfold to_uint8. rewrite Z.mod_small by lia. reflexivity. }
  set (size := VolOctree.levelToSize m_omesh l) in *.
  assert (Hsize : 0 < size) by lra.
  assert (Htest : forall level,
            LevelSetOctreeLevel.tooSmall m_omesh ls level
            = Rltb (VolOctree.levelToSize m_omesh level)
                   (RSearch ls - LevelSetOctreeLevel.tolerance)) by reflexivity.
  set (tol := LevelSetOctreeLevel.tolerance (D := R)) in *.
  apply computeLevelFromRSearch_first_fit; try lia.
  - rewrite Htest. apply Rltb_false. rewrite HR. nra.
  - intros j Hj. rewrite Htest. apply Rltb_true.
    assert (Hj_le : VolOctree.levelToSize m_omesh j <= size)
      by (apply Hanti; lia).
    rewrite HR. nra.
Qed.
End LevelRoundTrip.

Lemma computeLevelFromRSearch_of_level_radius_witness :
  LevelSetOctreeLevel.computeLevelFromRSearch (Examples.octree (D := R)) 3
    (Examples.bandOfCell1 2) 0%R
  = Some (2 - 1).
Proof.
  apply (computeLevelFromRSearch_of_level_radius (Examples.octree (D := R)) 3
           (Examples.bandOfCell1 2) 0%R 2 example_levelToSize_antitone).
  - lia.
  - lia.
  - reflexivity.
  - simpl. change (2 ^ 2) with 4. change (2 ^ (2 - 1)) with 2. lra.
  - unfold LevelSetOctreeLevel.tolerance. simpl.
    change (10 ^ 8) with 100000000. change (2 ^ 2) with 4. lra.
Defined.

Lemma computeLevelFromRSearch_first_fit_witness :
  LevelSetOctreeLevel.computeLevelFromRSearch (Examples.octree (D := PrimFloat.float)) 3
    (Examples.bandOfCell1 2) (float_ofZ 0)
  = Some 1.
Proof.
  apply (computeLevelFromRSearch_first_fit (Examples.octree (D := PrimFloat.float)) 3
           (Examples.bandOfCell1 2) (float_ofZ 0) 1).
  - lia.
  - lia.
  - vm_compute. reflexivity.
  - intros j Hj. assert (j = 2 \/ j = 3) as [-> | ->] by lia; vm_compute; reflexivity.
Defined.

Lemma computeLevelFromRSearch_result_witness :
  LevelSetOctreeLevel.tooSmall (Examples.octree (D := PrimFloat.float))
    (Examples.bandOfCell1 2) 1 = false.
Proof.
  apply (computeLevelFromRSearch_result (Examples.octree (D := PrimFloat.float)) 3
           (Examples.bandOfCell1 2) (float_ofZ 0) 1).
  vm_compute. reflexivity.
Defined.

(** On binary64 numbers: with cells of size 1 at every level and the
    radius 2, every level is too small and the loop has no result. *)
Example computeLevelFromRSearch_no_result_binary64 :
  let m := VolOctree.mk 3
             ((float_ofZ 0, float_ofZ 0, float_ofZ 0), (float_ofZ 1, float_ofZ 1, float_ofZ 1))
             [0] (fun c j => j) (fun _ => (float_ofZ 0, float_ofZ 0, float_ofZ 0))
             (fun _ => 0) (fun _ => float_ofZ 1) (float_ofZ 1) in
  LevelSetOctreeLevel.computeLevelFromRSearch m 0 (mkLevelSet ∅ (float_ofZ 2)) (float_ofZ 0)
  = None.
Proof. vm_compute. reflexivity. Qed.

(** ** The band maintainer and the sizers at their edges *)

Section BandEdges.
Context {D : Type} {num : Real64 D} {flag : BandFlag D}.
Variable intersectBoxBox :
  array3 D -> array3 D -> array3 D -> array3 D -> option (array3 D * array3 D).
Variable newVolCartesian :
  Z -> Z -> array3 D -> array3 D -> array3 Z -> VolCartesian.t D.
Variable m_omesh : VolOctree.t D.

(** X8: the working set and the radius returned by the octree
    [updateSizeNarrowBand] depend on the batch only through the set of
    its records: their order and their repetition do not matter. *)
Theorem updateSizeNarrowBand_batch_as_set
        (ls : LevelSet D) (mapper mapper' : list Adaption.Info) :
  (forall rec, rec ∈ mapper <-> rec ∈ mapper') ->
  LevelSetOctree.newNarrowBand ls mapper = LevelSetOctree.newNarrowBand ls mapper'
  /\ LevelSetOctree.updateSizeNarrowBand m_omesh mapper ls
     = LevelSetOctree.updateSizeNarrowBand m_omesh mapper' ls.
Proof.
  intros Hsame.
  assert (Heq : LevelSetOctree.newNarrowBand ls mapper
                = LevelSetOctree.newNarrowBand ls mapper').
  { apply set_eq. intros id. rewrite !newNarrowBand_spec. split.
    - intros [(rec & Hrec & Hrest) | [Hb Hno]].
      + left. exists rec. split; [now apply Hsame | exact Hrest].
      + right. split; [exact Hb|]. intros rec Hrec. apply Hno. now apply Hsame.
    - intros [(rec & Hrec & Hrest) | [Hb Hno]].
      + left. exists rec. split; [now apply Hsame | exact Hrest].
      + right. split; [exact Hb|]. intros rec Hrec. apply Hno. now apply Hsame. }
  split; [exact Heq|].
  unfold LevelSetOctree.updateSizeNarrowBand. rewrite Heq. reflexivity.
Qed.

(** X9: on the update path the radius is
    [levelToSize(L) * sqrt(11) / 2] at the least level [L] of the cells
    of the working set, as soon as that set is not empty and its levels
    lie between 0 and 100. *)
Theorem updateSizeNarrowBand_radius
        (ls : LevelSet D) (mapper : list Adaption.Info) (id0 : Z) :
  id0 ∈ LevelSetOctree.newNarrowBand ls mapper ->
  (forall id, id ∈ LevelSetOctree.newNarrowBand ls mapper ->
              0 <= VolOctree.getCellLevel m_omesh id <= 100) ->
  exists L,
    (exists id, id ∈ LevelSetOctree.newNarrowBand ls mapper
                /\ VolOctree.getCellLevel m_omesh id = L)
    /\ (forall id, id ∈ LevelSetOctree.newNarrowBand ls mapper ->
                   L <= VolOctree.getCellLevel m_omesh id)
    /\ LevelSetOctree.updateSizeNarrowBand m_omesh mapper ls
       = (VolOctree.levelToSize m_omesh L * d_sqrt (d_ofZ 11) / d_ofZ 2)%D.
Proof.
  intros Hid0 Hrange.
  destruct (coarsestLevel_spec m_omesh (LevelSetOctree.newNarrowBand ls mapper))
    as (Hle & Hall & Hone).
  set (L := LevelSetOctree.coarsestLevel m_omesh (LevelSetOctree.newNarrowBand ls mapper)) in *.
  assert (Hex : exists id, id ∈ LevelSetOctree.newNarrowBand ls mapper
                           /\ VolOctree.getCellLevel m_omesh id = L).
  { destruct Hone as [Hone | (id & Hid & Hone)].
    - exists id0. split; [exact Hid0|].
      specialize (Hall id0 Hid0). specialize (Hrange id0 Hid0). lia.
    - exists id. split; [exact Hid | now symmetry]. }
  exists L. split; [exact Hex|]. split; [exact Hall|].
  unfold LevelSetOctree.updateSizeNarrowBand, LevelSetOctree.computeRSearchFromLevel.
  fold L. destruct Hex as (id & Hid & Hlev). specialize (Hrange id Hid).
  rewrite to_uint8_small by lia. reflexivity.
Qed.

(** X10: on a level set whose narrow band is empty the octree
    [updateSizeNarrowBand] returns, for every batch, the radius of the
    level 100 at which its search starts. *)
Theorem updateSizeNarrowBand_empty_band
        (ls : LevelSet D) (mapper : list Adaption.Info) :
  (forall id, isInNarrowBand ls id = false) ->
  LevelSetOctree.newNarrowBand ls mapper = ∅
  /\ LevelSetOctree.updateSizeNarrowBand m_omesh mapper ls
     = (VolOctree.levelToSize m_omesh 100 * d_sqrt (d_ofZ 11) / d_ofZ 2)%D.
Proof.
  intros Hempty.
  assert (Hnb : LevelSetOctree.newNarrowBand ls mapper = ∅).
  { apply set_eq. intros id. rewrite newNarrowBand_spec. split.
    - intros [(rec & _ & Hf & _) | [Hb _]].
      + unfold LevelSetOctree.recordFlag in Hf.
        apply andb_true_iff in Hf as [_ Hex].
        apply existsb_exists in Hex as (p & _ & Hp). rewrite Hempty in Hp. discriminate.
      + rewrite Hempty in Hb. discriminate.
    - intros Hin. now apply not_elem_of_empty in Hin. }
  split; [exact Hnb|].
  unfold LevelSetOctree.updateSizeNarrowBand. rewrite Hnb.
  unfold LevelSetOctree.coarsestLevel. rewrite elements_empty. reflexivity.
Qed.

(** X11: when the boxes intersect and no cell of the octree is
    flagged, [computeSizeNarrowBand] stores the radius of the level 100
    at which its search starts. *)
Theorem computeSizeNarrowBand_no_flagged_cell
        (visitor : LSObject.t D) (ls : LevelSet D) (C0 C1 : array3 D) :
  intersectBoxBox (fst (VolOctree.getBoundingBox m_omesh))
                  (snd (VolOctree.getBoundingBox m_omesh))
                  (fst (LSObject.getBoundingBox visitor))
                  (snd (LSObject.getBoundingBox visitor)) = Some (C0, C1) ->
  (forall c, c ∈ VolOctree.getCells m_omesh ->
     LevelSetOctree.cellFlagged m_omesh
       (fst (LevelSetOctree.auxiliary newVolCartesian m_omesh visitor C0 C1))
       (snd (LevelSetOctree.auxiliary newVolCartesian m_omesh visitor C0 C1)) c = false) ->
  RSearch (LevelSetOctree.computeSizeNarrowBand
             intersectBoxBox newVolCartesian m_omesh visitor ls)
  = (VolOctree.levelToSize m_omesh 100 * d_sqrt (d_ofZ 11) / d_ofZ 2)%D.
Proof.
  intros Hsome Hnone.
  unfold LevelSetOctree.computeSizeNarrowBand.
  destruct (VolOctree.getBoundingBox m_omesh) as [octrBB0 octrBB1].
  destruct (LSObject.getBoundingBox visitor) as [triBB0 triBB1].
  simpl in Hsome. rewrite Hsome.
  destruct (LevelSetOctree.auxiliary newVolCartesian m_omesh visitor C0 C1)
    as [cmesh auxLS].
  simpl in Hnone. simpl.
  destruct (fold_min_spec (VolOctree.getCellLevel m_omesh)
              (LevelSetOctree.cellFlagged m_omesh cmesh auxLS)
              (VolOctree.getCells m_omesh) 100) as (_ & _ & Hone).
  fold (LevelSetOctree.coarsestFlagged m_omesh
          (LevelSetOctree.cellFlagged m_omesh cmesh auxLS)
          (VolOctree.getCells m_omesh)) in Hone.
  destruct Hone as [-> | (c & Hc & Hf & _)]; [reflexivity|].
  rewrite (Hnone c Hc) in Hf. discriminate.
Qed.

(** X12: a cell whose two corner vertices get the same lattice index,
    or indices in the wrong order, along one of the three axes is not
    flagged, whatever the auxiliary narrow band holds. *)
Theorem cellFlagged_degenerate_range
        (cmesh : VolCartesian.t D) (auxLS : LevelSet D) (cell a : Z) :
  let corner j := VolOctree.getVertexCoords m_omesh (VolOctree.getConnect m_omesh cell j) in
  let i0 := VolCartesian.locateClosestVertexCartesian cmesh (corner 0) in
  let i1 := VolCartesian.locateClosestVertexCartesian cmesh
              (corner (to_uint8 (2 ^ VolOctree.getDimension m_omesh - 1))) in
  0 <= a <= 2 ->
  nth3 i1 a <= nth3 i0 a ->
  LevelSetOctree.cellFlagged m_omesh cmesh auxLS cell = false.
Proof.
  intros corner i0 i1 Ha Hdeg.
  destruct (LevelSetOctree.cellFlagged m_omesh cmesh auxLS cell) eqn:Hf; [|reflexivity].
  exfalso. unfold LevelSetOctree.cellFlagged in Hf. cbv zeta in Hf.
  apply sampleProxy_spec in Hf as (i & j & k & Hi & Hj & Hk & _).
  subst corner i0 i1. cbv beta in Hdeg.
  assert (a = 0 \/ a = 1 \/ a = 2) as [-> | [-> | ->]] by lia; lia.
Qed.
End BandEdges.

Section CartesianEdges.
Local Open Scope R_scope.

(** X13: the radius of the Cartesian sizer for any mesh: it is never
    below the start value [-1], it bounds every spacing, it is [-1] or
    one of the spacings, and it is [-1] when the mesh has no dimension. *)
Theorem cartesian_radius_bounds (m_cmesh : VolCartesian.t R)
        (visitor : LSObject.t R) (ls : LevelSet R) :
  let r := RSearch (LevelSetCartesian.computeSizeNarrowBand m_cmesh visitor ls) in
  -1 <= r
  /\ (forall d, (0 <= d < VolCartesian.getDimension m_cmesh)%Z ->
                VolCartesian.getSpacing m_cmesh d <= r)
  /\ (r = -1 \/ exists d, (0 <= d < VolCartesian.getDimension m_cmesh)%Z
                          /\ r = VolCartesian.getSpacing m_cmesh d)
  /\ ((VolCartesian.getDimension m_cmesh <= 0)%Z -> r = -1).
Proof.
  intros r.
  destruct (fold_max_spec (VolCartesian.getSpacing m_cmesh)
              (seqZ 0 (VolCartesian.getDimension m_cmesh)) (IZR (-1)))
    as (Hge & Hall & Hone).
  change (fold_left (fun r d => Std.max r (VolCartesian.getSpacing m_cmesh d))
            (seqZ 0 (VolCartesian.getDimension m_cmesh)) (IZR (-1)))
    with r in Hge, Hall, Hone.
  split; [exact Hge|]. split; [|split].
  - intros d Hd. apply Hall, elem_of_seqZ. lia.
  - destruct Hone as [Hone | (d & Hd & Hone)]; [now left|].
    right. exists d. split; [apply elem_of_seqZ in Hd; lia | exact Hone].
  - intros Hdim. subst r. simpl. unfold LevelSetCartesian.maxSpacing.
    rewrite seqZ_nil by lia. reflexivity.
Qed.
End CartesianEdges.

Lemma updateSizeNarrowBand_batch_as_set_witness :
  let ls := mkLevelSet (MoreExamples.store_pair (D := PrimFloat.float)) (float_ofZ 0) in
  let mapper := [MoreExamples.split1; MoreExamples.split2] in
  let mapper' := [MoreExamples.split2; MoreExamples.split1; MoreExamples.split2] in
  LevelSetOctree.newNarrowBand (flag := Examples.activeIsZero) ls mapper
  = LevelSetOctree.newNarrowBand (flag := Examples.activeIsZero) ls mapper'
  /\ LevelSetOctree.updateSizeNarrowBand (flag := Examples.activeIsZero)
       Examples.octree mapper ls
     = LevelSetOctree.updateSizeNarrowBand (flag := Examples.activeIsZero)
         Examples.octree mapper' ls.
Proof.
  intros ls mapper mapper'.
  apply (updateSizeNarrowBand_batch_as_set (flag := Examples.activeIsZero)
           (Examples.octree (D := PrimFloat.float)) ls mapper mapper').
  intros rec. unfold mapper, mapper'. rewrite !elem_of_cons. tauto.
Defined.

Lemma updateSizeNarrowBand_radius_witness :
  let ls := mkLevelSet (MoreExamples.store_pair (D := PrimFloat.float)) (float_ofZ 0) in
  exists L,
    (exists id, id ∈ LevelSetOctree.newNarrowBand (flag := Examples.activeIsZero)
                       ls [MoreExamples.split1]
                /\ VolOctree.getCellLevel (Examples.octree (D := PrimFloat.float)) id = L)
    /\ (forall id, id ∈ LevelSetOctree.newNarrowBand (flag := Examples.activeIsZero)
                          ls [MoreExamples.split1] ->
                   L <= VolOctree.getCellLevel (Examples.octree (D := PrimFloat.float)) id)
    /\ LevelSetOctree.updateSizeNarrowBand (flag := Examples.activeIsZero)
         Examples.octree [MoreExamples.split1] ls
       = (VolOctree.levelToSize (Examples.octree (D := PrimFloat.float)) L
          * d_sqrt (d_ofZ 11) / d_ofZ 2)%D.
Proof.
  intros ls.
  apply (updateSizeNarrowBand_radius (flag := Examples.activeIsZero)
           (Examples.octree (D := PrimFloat.float)) ls [MoreExamples.split1] 21).
  - apply newNarrowBand_spec. left. exists MoreExamples.split1.
    split; [left|]. split; [vm_compute; reflexivity|].
    simpl. left.
  - intros id _. simpl. destruct (id =? 1); lia.
Defined.

Lemma updateSizeNarrowBand_empty_band_witness :
  LevelSetOctree.newNarrowBand (flag := Examples.activeIsZero)
    (Examples.emptyLS (D := PrimFloat.float)) [MoreExamples.split1] = ∅
  /\ LevelSetOctree.updateSizeNarrowBand (flag := Examples.activeIsZero)
       Examples.octree [MoreExamples.split1] (Examples.emptyLS (D := PrimFloat.float))
     = (VolOctree.levelToSize (Examples.octree (D := PrimFloat.float)) 100
        * d_sqrt (d_ofZ 11) / d_ofZ 2)%D.
Proof.
  apply (updateSizeNarrowBand_empty_band (flag := Examples.activeIsZero)
           (Examples.octree (D := PrimFloat.float)) Examples.emptyLS [MoreExamples.split1]).
  intros id. unfold isInNarrowBand. simpl. rewrite lookup_empty. reflexivity.
Defined.

Lemma computeSizeNarrowBand_no_flagged_cell_witness :
  RSearch (LevelSetOctree.computeSizeNarrowBand (flag := Examples.activeIsZero)
             Examples.boxes_intersect Examples.uniformGrid
             (Examples.cube8 (D := PrimFloat.float)) (Examples.nearOrigin [])
             Examples.emptyLS)
  = (VolOctree.levelToSize (Examples.cube8 (D := PrimFloat.float)) 100
     * d_sqrt (d_ofZ 11) / d_ofZ 2)%D.
Proof.
  apply (computeSizeNarrowBand_no_flagged_cell (flag := Examples.activeIsZero)
           Examples.boxes_intersect Examples.uniformGrid
           (Examples.cube8 (D := PrimFloat.float)) (Examples.nearOrigin [])
           Examples.emptyLS (fst Examples.nearOriginBox) (snd Examples.nearOriginBox)).
  - vm_compute. reflexivity.
  - intros c Hc. apply elem_of_seqZ in Hc.
    assert (c = 0 \/ c = 1 \/ c = 2 \/ c = 3 \/ c = 4 \/ c = 5 \/ c = 6 \/ c = 7)
      as Hcases by lia.
    repeat (destruct Hcases as [-> | Hcases]; [vm_compute; reflexivity|]).
    subst c. vm_compute. reflexivity.
Defined.

Lemma cellFlagged_degenerate_range_witness :
  let m := Examples.cube15 (D := PrimFloat.float) in
  let box := LSObject.getBoundingBox (Examples.surfaceInCorner (D := PrimFloat.float)) in
  let aux := LevelSetOctree.auxiliary Examples.uniformGrid m Examples.surfaceInCorner
               (fst box) (snd box) in
  LevelSetOctree.cellFlagged (flag := Examples.activeIsZero) m (fst aux) (snd aux) 8 = false.
Proof.
  intros m box aux.
  apply (cellFlagged_degenerate_range (flag := Examples.activeIsZero) m
           (fst aux) (snd aux) 8 0).
  - lia.
  - vm_compute. discriminate.
Defined.

(** ** The bounds of the auxiliary grid *)

Section SnapToGrid.
Local Open Scope R_scope.

Lemma Rtoint_nonneg (x : R) :
  0 <= x -> IZR (Rtoint x) <= x < IZR (Rtoint x) + 1.
Proof.
  intros Hx. unfold Rtoint. destruct (Rlt_dec x 0) as [Hneg | _]; [lra|].
  destruct (base_Int_part x). lra.
Qed.

Lemma Rtoint_neg (x : R) :
  x < 0 -> x <= IZR (Rtoint x) < x + 1.
Proof.
  intros Hx. unfold Rtoint. destruct (Rlt_dec x 0) as [_ | Hpos]; [|lra].
  rewrite opp_IZR. destruct (base_Int_part (- x)). lra.
Qed.

Lemma IZR_between (a k : Z) : IZR a <= IZR k < IZR a + 1 -> a = k.
Proof.
  intros [Hle Hlt]. apply le_IZR in Hle.
  assert (Hlt' : IZR k < IZR (a + 1)) by (rewrite plus_IZR; exact Hlt).
  apply lt_IZR in Hlt'. lia.
Qed.

Lemma Rtoint_IZR (k : Z) : Rtoint (IZR k) = k.
Proof.
  destruct (Rlt_dec (IZR k) 0) as [Hneg | Hpos].
  - pose proof (Rtoint_neg (IZR k) Hneg) as [Hlo Hhi].
    apply le_IZR in Hlo.
    assert (Hhi' : IZR (Rtoint (IZR k)) < IZR (k + 1)) by (rewrite plus_IZR; exact Hhi).
    apply lt_IZR in Hhi'. lia.
  - apply IZR_between. apply Rtoint_nonneg. lra.
Qed.

Lemma Rround_IZR (k : Z) : Rround (IZR k) = IZR k.
Proof.
  unfold Rround. destruct (Rlt_dec (IZR k) 0) as [Hneg | Hpos].
  - assert (Hpart : Int_part (- IZR k + / 2) = (- k)%Z).
    { symmetry. apply Int_part_spec. rewrite opp_IZR. lra. }
    rewrite Hpart, opp_IZR. lra.
  - assert (Hpart : Int_part (IZR k + / 2) = k).
    { symmetry. apply Int_part_spec. lra. }
    rewrite Hpart. reflexivity.
Qed.

(** One direction of the snapping: the box [[a, b]], inside a mesh
    that starts at [o], is grown by [size] and snapped. *)
Lemma snap_axis_spec (o size a b : R) :
  0 < size -> o <= a -> a <= b ->
  let c0 := o + size * IZR (Rtoint ((a - size - o) / size)) in
  let c1 := o + size * IZR (Rtoint ((b + size - o) / size) + 1) in
  let n := Rtoint (Rround ((c1 - c0) / size)) in
  c0 <= a /\ b < c1
  /\ (2 <= n)%Z
  /\ c1 - c0 = size * IZR n
  /\ n = (Rtoint ((b + size - o) / size) + 1 - Rtoint ((a - size - o) / size))%Z.
Proof.
  intros Hsize Hoa Hab c0 c1 n.
  set (q0 := (a - size - o) / size) in *.
  set (q1 := (b + size - o) / size) in *.
  assert (Hq0 : q0 * size = a - size - o) by (unfold q0; field; lra).
  assert (Hq1 : q1 * size = b + size - o) by (unfold q1; field; lra).
  assert (Hq1pos : 1 <= q1) by nra.
  pose proof (Rtoint_nonneg q1 ltac:(lra)) as [Hk1lo Hk1hi].
  set (k1 := Rtoint q1) in *. set (k0 := Rtoint q0) in *.
  assert (Hk0 : IZR k0 <= q0 + 1 /\ IZR k0 <= Rmax q0 0 /\ IZR k0 * size <= a - o).
  { destruct (Rlt_dec q0 0) as [Hneg | Hpos].
    - pose proof (Rtoint_neg q0 Hneg) as [Hlo Hhi]. fold k0 in Hlo, Hhi.
      assert (Hk0le : (k0 <= 0)%Z).
      { assert (Hlt : IZR k0 < IZR 1) by lra. apply lt_IZR in Hlt. lia. }
      apply IZR_le in Hk0le.
      split; [lra|]. split; [rewrite Rmax_right by lra; exact Hk0le | nra].
    - pose proof (Rtoint_nonneg q0 ltac:(lra)) as [Hlo Hhi]. fold k0 in Hlo, Hhi.
      split; [lra|]. split; [rewrite Rmax_left by lra; exact Hlo | nra]. }
  destruct Hk0 as (Hk0a & Hk0b & Hk0c).
  assert (Hquot : (c1 - c0) / size = IZR (k1 + 1 - k0)).
  { unfold c1, c0. rewrite minus_IZR. field. lra. }
  assert (Hn : n = (k1 + 1 - k0)%Z).
  { unfold n. rewrite Hquot, Rround_IZR, Rtoint_IZR. reflexivity. }
  assert (Hk1ge : (1 <= k1)%Z).
  { assert (Hlt : IZR 0 < IZR k1) by lra. apply lt_IZR in Hlt. lia. }
  assert (Hgap : (2 <= k1 + 1 - k0)%Z).
  { assert (Hlt : IZR k0 < IZR k1).
    { destruct (Rlt_dec q0 0) as [Hneg | Hpos].
      - rewrite Rmax_right in Hk0b by lra. apply IZR_le in Hk1ge. lra.
      - rewrite Rmax_left in Hk0b by lra.
        assert (Hq01 : q0 + 2 <= q1) by nra. lra. }
    apply lt_IZR in Hlt.
    destruct (Rlt_dec q0 0) as [Hneg | Hpos].
    - rewrite Rmax_right in Hk0b by lra.
      assert (Hle : IZR k0 <= IZR 0) by lra. apply le_IZR in Hle. lia.
    - lia. }
  split; [unfold c0; fold k0; nra|].
  split; [unfold c1; fold k1; rewrite plus_IZR; nra|].
  split; [rewrite Hn; exact Hgap|].
  split; [|exact Hn].
  rewrite Hn. unfold c1, c0. fold k1 k0. rewrite minus_IZR. ring.
Qed.
(** Within the range of [int] the conversion is the truncation and
    the sum does not wrap. *)
Lemma to_int_in_range (x : R) :
  (INT_MIN <= Rtoint x <= INT_MAX)%Z -> to_int x = Rtoint x.
Proof.
  intros [Hlo Hhi]. unfold to_int. simpl.
  apply Z.leb_le in Hlo. apply Z.leb_le in Hhi. rewrite Hlo, Hhi. reflexivity.
Qed.

Lemma wrap_int_in_range (z : Z) :
  (INT_MIN <= z <= INT_MAX)%Z -> wrap_int z = z.
Proof.
  unfold wrap_int, INT_MIN, INT_MAX. intros Hz.
  rewrite Z.mod_small by lia. lia.
Qed.

(** The same direction as the code computes it, with its [int]
    conversions, when the lattice index of the upper bound leaves room
    in [int]. *)
Lemma snap_axis_in_range (o size a b : R) :
  0 < size -> o <= a -> a <= b ->
  (b - o) / size + 3 <= IZR INT_MAX ->
  let c0 := o + size * IZR (to_int ((a - size - o) / size)) in
  let c1 := o + size * IZR (wrap_int (to_int ((b + size - o) / size) + 1)) in
  let n := to_int (Rround ((c1 - c0) / size)) in
  c0 <= a /\ b < c1 /\ (2 <= n <= INT_MAX)%Z /\ c1 - c0 = size * IZR n.
Proof.
  intros Hsize Hoa Hab Hroom.
  destruct (snap_axis_spec o size a b Hsize Hoa Hab) as (H1 & H2 & H3 & H4 & H5).
  cbv zeta in *.
  set (q0 := (a - size - o) / size) in *.
  set (q1 := (b + size - o) / size) in *.
  assert (Hq0 : q0 * size = a - size - o) by (unfold q0; field; lra).
  assert (Hq1 : q1 = (b - o) / size + 1) by (unfold q1; field; lra).
  assert (Hq1' : q1 * size = b + size - o) by (unfold q1; field; lra).
  assert (Hq1pos : 1 <= q1) by nra.
  assert (Hq0low : -1 <= q0) by nra.
  assert (Hq01 : q0 <= q1) by nra.
  pose proof (Rtoint_nonneg q1 ltac:(lra)) as [Hk1lo Hk1hi].
  assert (Hk1 : (1 <= Rtoint q1 <= INT_MAX - 2)%Z).
  { split.
    - assert (Hlt : IZR 0 < IZR (Rtoint q1)) by lra. apply lt_IZR in Hlt. lia.
    - apply le_IZR. rewrite minus_IZR. lra. }
  assert (Hk0 : (-1 <= Rtoint q0 <= Rtoint q1)%Z).
  { destruct (Rlt_dec q0 0) as [Hneg | Hpos].
    - pose proof (Rtoint_neg q0 Hneg) as [Hlo Hhi]. split.
      + apply le_IZR. lra.
      + assert (Hlt : IZR (Rtoint q0) < IZR 1) by lra. apply lt_IZR in Hlt. lia.
    - pose proof (Rtoint_nonneg q0 ltac:(lra)) as [Hlo Hhi]. split.
      + assert (Hlt : IZR (-1) < IZR (Rtoint q0 + 1)) by (rewrite plus_IZR; lra).
        apply lt_IZR in Hlt. lia.
      + assert (Hlt : IZR (Rtoint q0) < IZR (Rtoint q1 + 1)) by (rewrite plus_IZR; lra).
        apply lt_IZR in Hlt. lia. }
  assert (Hmin : (INT_MIN <= -1)%Z) by (unfold INT_MIN; lia).
  assert (Hmax : (3 <= INT_MAX)%Z) by (unfold INT_MAX; lia).
  rewrite (to_int_in_range q0) by lia.
  rewrite (to_int_in_range q1) by lia.
  rewrite wrap_int_in_range by lia.
  rewrite to_int_in_range by (rewrite H5; lia).
  split; [exact H1|]. split; [exact H2|]. split; [|exact H4].
  rewrite H5. lia.
Qed.
End SnapToGrid.

Section SnapToGridMesh.
Local Open Scope R_scope.
Variable m_omesh : VolOctree.t R.

(** X14: in every direction [i] of a mesh of dimension at most 3, for
    a positive [size] and an intersection box [[C0, C1]] that is not
    empty, does not start below the mesh ([octrBB0[i] <= C0[i] <=
    C1[i]]) and whose upper bound, counted in cells of width [size]
    from the mesh origin, leaves room in [int]
    ([(C1[i] - octrBB0[i]) / size + 3 <= INT_MAX]), the snapped bounds
    enclose the box ([C0'[i] <= C0[i]] and [C1[i] < C1'[i]]), the
    number of cells [nc[i]] lies between 2 and [INT_MAX], and the cells
    have exactly the width [size]:
    [C1'[i] - C0'[i] = size * nc[i]]. *)
Theorem snapToGrid_encloses (octrBB0 C0 C1 : array3 R) (size : R) (i : Z) :
  (VolOctree.getDimension m_omesh <= 3)%Z ->
  (0 <= i < VolOctree.getDimension m_omesh)%Z ->
  0 < size ->
  nth3 octrBB0 i <= nth3 C0 i ->
  nth3 C0 i <= nth3 C1 i ->
  (nth3 C1 i - nth3 octrBB0 i) / size + 3 <= IZR INT_MAX ->
  let snapped := LevelSetOctree.snapToGrid m_omesh octrBB0 size C0 C1 in
  let C0' := fst (fst snapped) in
  let C1' := snd (fst snapped) in
  let nc := snd snapped in
  nth3 C0' i <= nth3 C0 i
  /\ nth3 C1 i < nth3 C1' i
  /\ (2 <= nth3 nc i <= INT_MAX)%Z
  /\ nth3 C1' i - nth3 C0' i = size * IZR (nth3 nc i).
Proof.
  intros Hdim Hi Hsize Hlow Hbox Hroom.
  destruct octrBB0 as [[o0 o1] o2], C0 as [[a0 a1] a2], C1 as [[b0 b1] b2].
  unfold LevelSetOctree.snapToGrid.
  assert (VolOctree.getDimension m_omesh = 1 \/ VolOctree.getDimension m_omesh = 2
          \/ VolOctree.getDimension m_omesh = 3)%Z as [Hd | [Hd | Hd]] by lia;
    rewrite Hd in *.
  - assert (i = 0)%Z as -> by lia. change (seqZ 0 1) with [0%Z].
    cbn -[to_int wrap_int INT_MAX] in *.
    exact (snap_axis_in_range o0 size a0 b0 Hsize Hlow Hbox Hroom).
  - change (seqZ 0 2) with [0%Z; 1%Z].
    assert (i = 0 \/ i = 1)%Z as [-> | ->] by lia; cbn -[to_int wrap_int INT_MAX] in *.
    + exact (snap_axis_in_range o0 size a0 b0 Hsize Hlow Hbox Hroom).
    + exact (snap_axis_in_range o1 size a1 b1 Hsize Hlow Hbox Hroom).
  - change (seqZ 0 3) with [0%Z; 1%Z; 2%Z].
    assert (i = 0 \/ i = 1 \/ i = 2)%Z as [-> | [-> | ->]] by lia;
      cbn -[to_int wrap_int INT_MAX] in *.
    + exact (snap_axis_in_range o0 size a0 b0 Hsize Hlow Hbox Hroom).
    + exact (snap_axis_in_range o1 size a1 b1 Hsize Hlow Hbox Hroom).
    + exact (snap_axis_in_range o2 size a2 b2 Hsize Hlow Hbox Hroom).
Qed.
End SnapToGridMesh.

Lemma snapToGrid_encloses_witness :
  let snapped := LevelSetOctree.snapToGrid (Examples.cube8 (D := R))
                   (0, 0, 0)%R (1 / 2)%R (1 / 4, 1 / 4, 1 / 4)%R (3 / 8, 3 / 8, 3 / 8)%R in
  (nth3 (fst (fst snapped)) 0 <= nth3 (1 / 4, 1 / 4, 1 / 4) 0)%R
  /\ (nth3 (3 / 8, 3 / 8, 3 / 8) 0 < nth3 (snd (fst snapped)) 0)%R
  /\ 2 <= nth3 (snd snapped) 0 <= INT_MAX
  /\ (nth3 (snd (fst snapped)) 0 - nth3 (fst (fst snapped)) 0
      = 1 / 2 * IZR (nth3 (snd snapped) 0))%R.
Proof.
  apply (snapToGrid_encloses (Examples.cube8 (D := R))
           (0, 0, 0)%R (1 / 4, 1 / 4, 1 / 4)%R (3 / 8, 3 / 8, 3 / 8)%R (1 / 2)%R 0).
  - simpl. lia.
  - simpl. lia.
  - lra.
  - simpl. lra.
  - simpl. lra.
  - simpl. change INT_MAX with 2147483647. lra.
Defined.

(** The same bounds on binary64 numbers: the unit cube, two cells per
    direction. *)
Example snapToGrid_binary64 :
  let eighth n := PrimFloat.div (float_ofZ n) (float_ofZ 8) in
  LevelSetOctree.snapToGrid (Examples.cube8 (D := PrimFloat.float))
    (float_ofZ 0, float_ofZ 0, float_ofZ 0) (eighth 4)
    (eighth 2, eighth 2, eighth 2) (eighth 3, eighth 3, eighth 3)
  = ((float_ofZ 0, float_ofZ 0, float_ofZ 0),
     (float_ofZ 1, float_ofZ 1, float_ofZ 1), (2, 2, 2)).
Proof. vm_compute. reflexivity. Qed.

(** Without that room the bounds are not those of an enclosing grid:
    with the cell width [2^-40] the lattice indices of the same box
    exceed [INT_MAX], both casts give [INT_MIN], and the grid is one
    cell at [-2^-9], below the box. *)
Example snapToGrid_out_of_range_binary64 :
  let eighth n := PrimFloat.div (float_ofZ n) (float_ofZ 8) in
  let two_to n := PrimFloat.div (float_ofZ 1) (float_ofZ (2 ^ n)) in
  let snapped := LevelSetOctree.snapToGrid (Examples.cube8 (D := PrimFloat.float))
                   (float_ofZ 0, float_ofZ 0, float_ofZ 0) (two_to 40)
                   (eighth 2, eighth 2, eighth 2) (eighth 3, eighth 3, eighth 3) in
  nth3 (fst (fst snapped)) 0 = PrimFloat.opp (two_to 9)
  /\ nth3 (snd (fst snapped)) 0
     = PrimFloat.add (PrimFloat.opp (two_to 9)) (two_to 40)
  /\ snd snapped = (1, 1, 1)
  /\ PrimFloat.ltb (nth3 (snd (fst snapped)) 0) (eighth 2) = true.
Proof. repeat split; vm_compute; reflexivity. Qed.

(** ** What the solve reads *)

Section EikonalReads.
Context {D : Type} {num : Real64 D}.
Variable m_cmesh : VolCartesian.t D.

Lemma stencil_reads_left_records (store store' : gmap Z (LSInfo D)) (s : D) (I : Z)
      (axes : list Z) (q : LevelSetCartesian.quad) :
  (forall d, d ∈ axes ->
     store !! VolCartesian.getAdjacency m_cmesh I (2 * d)
     = store' !! VolCartesian.getAdjacency m_cmesh I (2 * d)) ->
  LevelSetCartesian.stencil m_cmesh store s I axes q
  = LevelSetCartesian.stencil m_cmesh store' s I axes q.
Proof.
  revert q. induction axes as [|d axes IH]; intros q Hsame; simpl; [reflexivity|].
  rewrite (upwindValue_reads_left_record_only m_cmesh store store' s I d)
    by (apply Hsame; left).
  destruct (LevelSetCartesian.upwindValue m_cmesh store' s I d); simpl; [|reflexivity].
  apply IH. intros d' Hd'. apply Hsame. now right.
Qed.

(** X15: [updateEikonal] reads the store only under the left
    (low-side) neighbours of the cell: two level sets whose stores agree
    there give the same result, whatever they hold for the right
    neighbours and for every other cell. *)
Theorem updateEikonal_reads_left_records (ls ls' : LevelSet D) (s g : D) (I : Z) :
  (forall d, 0 <= d < VolCartesian.getDimension m_cmesh ->
     info ls !! VolCartesian.getAdjacency m_cmesh I (2 * d)
     = info ls' !! VolCartesian.getAdjacency m_cmesh I (2 * d)) ->
  LevelSetCartesian.updateEikonal m_cmesh ls s g I
  = LevelSetCartesian.updateEikonal m_cmesh ls' s g I.
Proof.
  intros Hsame. unfold LevelSetCartesian.updateEikonal.
  rewrite (stencil_reads_left_records (info ls) (info ls')); [reflexivity|].
  intros d Hd. apply elem_of_seqZ in Hd. apply Hsame. lia.
Qed.
End EikonalReads.

Lemma updateEikonal_reads_left_records_witness :
  let other := <[ 5 := mkLSInfo (float_ofZ 100) 0 ]>
                 (<[ 7 := mkLSInfo (float_ofZ (-4)) 0 ]> Examples.store_two_sided) in
  LevelSetCartesian.updateEikonal (Examples.grid3x3 (D := PrimFloat.float))
    (mkLevelSet Examples.store_two_sided (float_ofZ 0)) (float_ofZ 1) (float_ofZ 1) 4
  = LevelSetCartesian.updateEikonal (Examples.grid3x3 (D := PrimFloat.float))
      (mkLevelSet other (float_ofZ 0)) (float_ofZ 1) (float_ofZ 1) 4.
Proof.
  intros other.
  apply (updateEikonal_reads_left_records (Examples.grid3x3 (D := PrimFloat.float))).
  intros d Hd. simpl in Hd.
  assert (d = 0 \/ d = 1) as [-> | ->] by lia; reflexivity.
Defined.
